(** * COSMAX e-mail classifier: classification-and-routing pipeline

    A shallow embedding of [email_classifier.py] and the properties its
    design document states about it: backend selection, prompt
    construction, tolerant response parsing, staff matching and the
    orchestrating [classify_email].

    Python values are dynamically typed, so the embedding carries a
    [value] type for everything that comes out of [json.loads]; Python
    [str] is a sequence of Unicode code points; exceptions are an
    explicit result; [print] and the backend calls are logged in an
    explicit world that is threaded through the effectful functions. *)

From Stdlib Require Import String Ascii.
From Stdlib Require Import List ZArith NArith Bool Lia.
From Stdlib Require Import QArith Permutation Sorted.
Import ListNotations.

Set Implicit Arguments.
Set Warnings "-register-all".
Local Open Scope Z_scope.

(** ** Python [str]: sequences of code points *)

Module PyStr.

Definition char := N.
Definition str := list char.

(** UTF-8 decoding, used only to read the source's string literals. *)
Fixpoint utf8_decode (bs : list N) : str :=
  let cont b := N.land b 63 in
  match bs with
  | [] => []
  | b0 :: r0 =>
      if (b0 <? 128)%N then b0 :: utf8_decode r0
      else match r0 with
      | [] => [b0]
      | b1 :: r1 =>
          if (b0 <? 224)%N then
            (N.shiftl (N.land b0 31) 6 + cont b1)%N :: utf8_decode r1
          else match r1 with
          | [] => [b0; b1]
          | b2 :: r2 =>
              if (b0 <? 240)%N then
                (N.shiftl (N.land b0 15) 12 + N.shiftl (cont b1) 6 + cont b2)%N
                  :: utf8_decode r2
              else match r2 with
              | [] => [b0; b1; b2]
              | b3 :: r3 =>
                  (N.shiftl (N.land b0 7) 18 + N.shiftl (cont b1) 12
                   + N.shiftl (cont b2) 6 + cont b3)%N :: utf8_decode r3
              end
          end
      end
  end.

(** A literal of the source, as the [str] it denotes. *)
Definition lit (s : String.string) : str :=
  utf8_decode (map Ascii.N_of_ascii (String.list_ascii_of_string s)).

(** [a == b] *)
Fixpoint eqb (a b : str) : bool :=
  match a, b with
  | [], [] => true
  | x :: a', y :: b' => (x =? y)%N && eqb a' b'
  | _, _ => false
  end.

(** [str.isspace] on one character, which is also what [\s] matches in
    a [str] pattern: the white-space code points of CPython's Unicode
    database. *)
Definition isspace (c : char) : bool :=
  (((9 <=? c) && (c <=? 13)) || ((28 <=? c) && (c <=? 32))
   || (c =? 133) || (c =? 160) || (c =? 5760)
   || ((8192 <=? c) && (c <=? 8202))
   || (c =? 8232) || (c =? 8233) || (c =? 8239) || (c =? 8287)
   || (c =? 12288))%N.

Fixpoint lstrip (s : str) : str :=
  match s with
  | c :: r => if isspace c then lstrip r else s
  | [] => []
  end.

Definition rstrip (s : str) : str := rev (lstrip (rev s)).

(** [s.strip()] *)
Definition strip (s : str) : str := rstrip (lstrip s).

(** [s.startswith(p)] *)
Fixpoint startswith (p s : str) : bool :=
  match p, s with
  | [], _ => true
  | a :: p', b :: s' => (a =? b)%N && startswith p' s'
  | _ :: _, [] => false
  end.

(** [sub in s] *)
Fixpoint contains (sub s : str) : bool :=
  startswith sub s ||
  match s with
  | [] => false
  | _ :: r => contains sub r
  end.

(** [s.find(sub)]: lowest index where [sub] starts, or -1. *)
Fixpoint find (sub s : str) : Z :=
  if startswith sub s then 0
  else match s with
       | [] => -1
       | _ :: r => let i := find sub r in if i <? 0 then -1 else i + 1
       end.

(** [s.rfind(sub)]: highest index where [sub] starts, or -1. *)
Fixpoint rfind (sub s : str) : Z :=
  match s with
  | [] => if startswith sub s then 0 else -1
  | _ :: r =>
      let i := rfind sub r in
      if 0 <=? i then i + 1
      else if startswith sub s then 0 else -1
  end.

(** Python slicing [l[lo:hi]] with step 1; [None] bounds are [0] and
    [len(l)].  Negative indices count from the end. *)
Definition clamp (len i : Z) : Z :=
  if i <? 0 then Z.max (i + len) 0 else Z.min i len.

Definition slice {A} (lo hi : Z) (l : list A) : list A :=
  let len := Z.of_nat (length l) in
  let lo' := clamp len lo in
  let hi' := clamp len hi in
  firstn (Z.to_nat (hi' - lo')) (skipn (Z.to_nat lo') l).

(** [l[:hi]] *)
Definition slice_to {A} (hi : Z) (l : list A) : list A := slice 0 hi l.

(** [sep.join(parts)] *)
Fixpoint join (sep : str) (parts : list str) : str :=
  match parts with
  | [] => []
  | [p] => p
  | p :: ps => p ++ sep ++ join sep ps
  end.

End PyStr.
Import PyStr.

Arguments lit s%_string.

(** A literal in which the apostrophe stands for the double quote
    (code point 34). *)
Definition lit_q (s : string) : str :=
  map (fun c => if (c =? 39)%N then 34%N else c) (lit s).

Arguments lit_q s%_string.

(** ** Python values and exceptions *)

(** A Python [float] read from a decimal literal [(-1)^neg * m * 10^e],
    or one of the constants [NaN], [Infinity], [-Infinity]. *)
Inductive pyfloat :=
| FDec (neg : bool) (m : N) (e : Z)
| FNaN
| FInf (neg : bool).

(** What [json.loads] can return, and what the fields of a result hold. *)
Inductive value :=
| VNone
| VBool (b : bool)
| VInt (z : Z)
| VFloat (f : pyfloat)
| VStr (s : str)
| VList (l : list value)
| VDict (d : list (str * value)).

(** A [dict]: insertion-ordered, one binding per key. *)
Definition dict := list (str * value).

(** The exceptions of this program.  No handler of the program names
    [ValueError], so that its subclasses [JSONDecodeError] and
    [UnicodeDecodeError] stand beside it. *)
Inductive exn :=
| JSONDecodeError
| AttributeError
| TypeError
| KeyError (key : str)
| SystemExit (code : Z)
| ValueError
| RecursionError
| UnicodeDecodeError
| IOError (msg : str).

Inductive result (A : Type) :=
| Ok (a : A)
| Raise (e : exn).
Arguments Ok {A} a.
Arguments Raise {A} e.

Module Py.

(** [float(s) == 0.0]: a decimal literal rounds to zero in binary64
    exactly when its magnitude is at most half the least subnormal,
    [2^-1075]. *)
Definition float_is_zero (f : pyfloat) : bool :=
  match f with
  | FDec _ m e =>
      (m =? 0)%N
      || ((e <? 0) && (Z.of_N m * 2 ^ 1075 <=? 10 ^ (- e)))
  | FNaN | FInf _ => false
  end.

(** [bool(v)] *)
Definition truthy (v : value) : bool :=
  match v with
  | VNone => false
  | VBool b => b
  | VInt z => negb (z =? 0)
  | VFloat f => negb (float_is_zero f)
  | VStr s => match s with [] => false | _ => true end
  | VList l => match l with [] => false | _ => true end
  | VDict d => match d with [] => false | _ => true end
  end.

(** [d[k]] as an option, for a [dict]. *)
Fixpoint lookup (k : str) (d : dict) : option value :=
  match d with
  | [] => None
  | (k', v) :: r => if PyStr.eqb k k' then Some v else lookup k r
  end.

(** [d[k] = v]: a present key keeps its place. *)
Fixpoint setitem (k : str) (v : value) (d : dict) : dict :=
  match d with
  | [] => [(k, v)]
  | (k', v') :: r =>
      if PyStr.eqb k k' then (k', v) :: r else (k', v') :: setitem k v r
  end.

(** [dict(pairs)] *)
Definition dict_of_pairs (pairs : list (str * value)) : dict :=
  fold_left (fun d kv => setitem (fst kv) (snd kv) d) pairs [].

(** [v.get(k, default)]: only a [dict] has the method. *)
Definition get (v : value) (k : str) (default : value) : result value :=
  match v with
  | VDict d => Ok (match lookup k d with Some x => x | None => default end)
  | _ => Raise AttributeError
  end.

End Py.

(** ** [json.loads]

    The decoder of the standard library with its default settings
    ([strict=True], no hooks), on a [str] argument.  A malformed
    document raises [JSONDecodeError].  Two limits of the interpreter
    raise something else, from the place in the text where the scanner
    meets them: an integer literal of more than [int_max_str_digits]
    digits raises [ValueError], and an array or object opened inside
    [recursion_allowance] open ones raises [RecursionError]. *)

Module Json.

Inductive scanned (A : Type) :=
| Got (a : A) (rest : str)
| Bad                        (* JSONDecodeError *)
| Starved                    (* the fuel of the model used up *)
| Fail (e : exn).            (* a limit of the interpreter *)
Arguments Got {A} a rest.
Arguments Bad {A}.
Arguments Starved {A}.
Arguments Fail {A} e.

(** [sys.get_int_max_str_digits()], which is 4300 unless the interpreter
    is started otherwise. *)
Definition int_max_str_digits : N := 4300.

(** The number of arrays and objects the scanner may have open at once.
    CPython counts each one it enters against the recursion limit of
    the interpreter (1000 unless it is changed), together with the
    frames of the callers, so that the exact number depends on where
    the decoder is called from.  The model takes 900, which the
    interpreter grants at every call of the decoder in this program: a
    text that the model decodes, or refuses as malformed, CPython
    decodes or refuses alike. *)
Definition recursion_allowance : nat := 900.

Definition is_ws (c : char) : bool :=
  ((c =? 32) || (c =? 9) || (c =? 10) || (c =? 13))%N.

Fixpoint skip_ws (s : str) : str :=
  match s with
  | c :: r => if is_ws c then skip_ws r else s
  | [] => []
  end.

Definition is_digit (c : char) : bool := ((48 <=? c) && (c <=? 57))%N.

Fixpoint span (p : char -> bool) (s : str) : str * str :=
  match s with
  | c :: r => if p c then let (a, b) := span p r in (c :: a, b) else ([], s)
  | [] => ([], [])
  end.

Definition digits_value (ds : str) : N :=
  fold_left (fun acc c => (acc * 10 + (c - 48))%N) ds 0%N.

Definition hex_digit (c : char) : option N :=
  if is_digit c then Some (c - 48)%N
  else if ((97 <=? c) && (c <=? 102))%N then Some (c - 87)%N
  else if ((65 <=? c) && (c <=? 70))%N then Some (c - 55)%N
  else None.

Definition hex4 (a b c d : char) : option N :=
  match hex_digit a, hex_digit b, hex_digit c, hex_digit d with
  | Some x, Some y, Some z, Some w => Some (((x * 16 + y) * 16 + z) * 16 + w)%N
  | _, _, _, _ => None
  end.

Definition unescape (c : char) : option char :=
  if (c =? 34)%N then Some 34%N          (* quote *)
  else if (c =? 92)%N then Some 92%N     (* backslash *)
  else if (c =? 47)%N then Some 47%N     (* slash *)
  else if (c =? 98)%N then Some 8%N      (* b: backspace *)
  else if (c =? 102)%N then Some 12%N    (* f: form feed *)
  else if (c =? 110)%N then Some 10%N    (* n: line feed *)
  else if (c =? 114)%N then Some 13%N    (* r: carriage return *)
  else if (c =? 116)%N then Some 9%N     (* t: tab *)
  else None.

Definition is_high_surrogate (c : N) : bool := ((55296 <=? c) && (c <=? 56319))%N.
Definition is_low_surrogate (c : N) : bool := ((56320 <=? c) && (c <=? 57343))%N.
Definition join_surrogates (hi lo : N) : N :=
  (65536 + N.lor (N.shiftl (hi - 55296) 10) (lo - 56320))%N.

(** [scanstring], entered after the opening quote; [acc] holds the
    decoded characters, last first. *)
Fixpoint scanstring (s : str) (acc : str) : option (str * str) :=
  match s with
  | [] => None
  | c :: r =>
      if (c =? 34)%N then Some (rev acc, r)
      else if (c =? 92)%N then
        match r with
        | [] => None
        | e :: r1 =>
            if (e =? 117)%N then
              match r1 with
              | h1 :: h2 :: h3 :: h4 :: r2 =>
                  match hex4 h1 h2 h3 h4 with
                  | None => None
                  | Some c1 =>
                      if is_high_surrogate c1 then
                        match r2 with
                        | b :: x :: g1 :: g2 :: g3 :: g4 :: r3 =>
                            if ((b =? 92) && (x =? 117))%N then
                              match hex4 g1 g2 g3 g4 with
                              | None => None
                              | Some c2 =>
                                  if is_low_surrogate c2
                                  then scanstring r3 (join_surrogates c1 c2 :: acc)
                                  else scanstring r2 (c1 :: acc)
                              end
                            else scanstring r2 (c1 :: acc)
                        | _ => scanstring r2 (c1 :: acc)
                        end
                      else scanstring r2 (c1 :: acc)
                  end
              | _ => None
              end
            else
              match unescape e with
              | Some c' => scanstring r1 (c' :: acc)
              | None => None
              end
        end
      else if (c <? 32)%N then None
      else scanstring r (c :: acc)
  end.

(** A number: an optional minus sign; an integer part that is a lone
    zero or a non-zero digit followed by digits; an optional fraction
    (a dot and at least one digit); an optional exponent (e or E, an
    optional sign, at least one digit).  It is an [int] when there is
    neither fraction nor exponent, a [float] otherwise; the conversion
    to [int] raises [ValueError] when the integer part has more digits
    than [int_max_str_digits]. *)
Definition scan_sign (s : str) : bool * str :=
  match s with
  | c :: r => if (c =? 45)%N then (true, r) else (false, s)
  | [] => (false, s)
  end.

Definition scan_int (s : str) : option (str * str) :=
  match s with
  | c :: r =>
      if (c =? 48)%N then Some ([c], r)
      else if is_digit c then let (ds, r') := span is_digit r in Some (c :: ds, r')
      else None
  | [] => None
  end.

Definition scan_frac (s : str) : option str * str :=
  match s with
  | dot :: d :: r =>
      if ((dot =? 46)%N && is_digit d)
      then let (ds, r') := span is_digit r in (Some (d :: ds), r')
      else (None, s)
  | _ => (None, s)
  end.

(** The exponent, or nothing consumed when no digit follows. *)
Definition scan_exp (s : str) : option Z * str :=
  match s with
  | e :: r =>
      if ((e =? 101) || (e =? 69))%N then
        let (eneg, r1) :=
          match r with
          | sg :: r' =>
              if (sg =? 45)%N then (true, r')
              else if (sg =? 43)%N then (false, r')
              else (false, r)
          | [] => (false, r)
          end in
        match span is_digit r1 with
        | ([], _) => (None, s)
        | (ds, r2) =>
            (Some (if eneg then - Z.of_N (digits_value ds)
                   else Z.of_N (digits_value ds)), r2)
        end
      else (None, s)
  | [] => (None, s)
  end.

Definition scan_number (s : str) : option (result value * str) :=
  let (neg, s1) := scan_sign s in
  match scan_int s1 with
  | None => None
  | Some (ids, s2) =>
      let (frac, s3) := scan_frac s2 in
      let (expo, s4) := scan_exp s3 in
      match frac, expo with
      | None, None =>
          if (int_max_str_digits <? N.of_nat (length ids))%N
          then Some (Raise ValueError, s4)
          else
            let n := Z.of_N (digits_value ids) in
            Some (Ok (VInt (if neg then - n else n)), s4)
      | _, _ =>
          let fds := match frac with Some ds => ds | None => [] end in
          let ex := match expo with Some x => x | None => 0 end in
          Some (Ok (VFloat (FDec neg (digits_value (ids ++ fds))
                                 (ex - Z.of_nat (length fds)))), s4)
      end
  end.

Section Containers.
(** The scanner for one value, as [parse_array] and [parse_object]
    receive it. *)
Variable scan_once : str -> scanned value.

(** The loop of [JSONArray], entered where a value is expected. *)
Fixpoint array_loop (n : nat) (s : str) (acc : list value) : scanned value :=
  match n with
  | O => Starved
  | S n' =>
      match scan_once s with
      | Got v r =>
          match skip_ws r with
          | c :: r' =>
              if (c =? 93)%N then Got (VList (rev (v :: acc))) r'
              else if (c =? 44)%N then array_loop n' (skip_ws r') (v :: acc)
              else Bad
          | [] => Bad
          end
      | Bad => Bad
      | Starved => Starved
      | Fail e => Fail e
      end
  end.

(** The loop of [JSONObject], entered after the opening quote of a
    key. *)
Fixpoint object_loop (n : nat) (s : str) (acc : list (str * value))
  : scanned value :=
  match n with
  | O => Starved
  | S n' =>
      match scanstring s [] with
      | None => Bad
      | Some (key, r) =>
          match skip_ws r with
          | c :: r1 =>
              if (c =? 58)%N then
                match scan_once (skip_ws r1) with
                | Got v r2 =>
                    match skip_ws r2 with
                    | c' :: r3 =>
                        if (c' =? 125)%N
                        then Got (VDict (Py.dict_of_pairs (rev ((key, v) :: acc)))) r3
                        else if (c' =? 44)%N then
                          match skip_ws r3 with
                          | q :: r4 =>
                              if (q =? 34)%N
                              then object_loop n' r4 ((key, v) :: acc)
                              else Bad
                          | [] => Bad
                          end
                        else Bad
                    | [] => Bad
                    end
                | Bad => Bad
                | Starved => Starved
                | Fail e => Fail e
                end
              else Bad
          | [] => Bad
          end
      end
  end.
End Containers.

(** [scan_once]; [depth] is the number of arrays and objects that may
    still be opened, one inside the other. *)
Fixpoint scan_once (fuel depth : nat) (s : str) : scanned value :=
  match fuel with
  | O => Starved
  | S f =>
      match s with
      | [] => Bad
      | c :: r =>
          if (c =? 34)%N then
            match scanstring r [] with
            | Some (x, r') => Got (VStr x) r'
            | None => Bad
            end
          else if (c =? 123)%N then
            match depth with
            | O => Fail RecursionError
            | S d =>
                match skip_ws r with
                | c' :: r' =>
                    if (c' =? 125)%N then Got (VDict []) r'
                    else if (c' =? 34)%N then object_loop (scan_once f d) f r' []
                    else Bad
                | [] => Bad
                end
            end
          else if (c =? 91)%N then
            match depth with
            | O => Fail RecursionError
            | S d =>
                match skip_ws r with
                | c' :: r' =>
                    if (c' =? 93)%N then Got (VList []) r'
                    else array_loop (scan_once f d) f (skip_ws r) []
                | [] => Bad
                end
            end
          else if startswith (lit "null") s then Got VNone (skipn 4 s)
          else if startswith (lit "true") s then Got (VBool true) (skipn 4 s)
          else if startswith (lit "false") s then Got (VBool false) (skipn 5 s)
          else
            match scan_number s with
            | Some (Ok v, r') => Got v r'
            | Some (Raise e, _) => Fail e
            | None =>
                if startswith (lit "NaN") s then Got (VFloat FNaN) (skipn 3 s)
                else if startswith (lit "Infinity") s
                then Got (VFloat (FInf false)) (skipn 8 s)
                else if startswith (lit "-Infinity") s
                then Got (VFloat (FInf true)) (skipn 9 s)
                else Bad
            end
      end
  end.

(** [json.loads(s)] *)
Definition loads (s : str) : result value :=
  if startswith [65279%N] s then Raise JSONDecodeError
  else
    match scan_once (S (length s)) recursion_allowance (skip_ws s) with
    | Got v r =>
        match skip_ws r with
        | [] => Ok v
        | _ :: _ => Raise JSONDecodeError
        end
    | Bad | Starved => Raise JSONDecodeError
    | Fail e => Raise e
    end.

End Json.

(** ** The regular expression of the parser

    A backtracking matcher for the constructs the pattern uses, with the
    priorities of Python's [re]: a greedy quantifier tries the longer
    match first, a lazy one the shorter, and the first complete match in
    that order is the match. *)

Module Re.

Inductive regex :=
| Lit (s : str)                    (* the characters of [s] *)
| Seq (r1 r2 : regex)
| Opt (r : regex)                  (* [r?], greedy *)
| Star (c : char -> bool)          (* [c*], greedy, on a character class *)
| LazyStar (c : char -> bool)      (* [c*?] *)
| Group (r : regex).               (* the capturing group *)

Section Match.
Variable A : Type.

Fixpoint star (c : char -> bool) (s : str) (k : str -> option A) : option A :=
  match s with
  | x :: s' =>
      if c x then
        match star c s' k with
        | Some a => Some a
        | None => k s
        end
      else k s
  | [] => k s
  end.

Fixpoint lazy_star (c : char -> bool) (s : str) (k : str -> option A) : option A :=
  match k s with
  | Some a => Some a
  | None =>
      match s with
      | x :: s' => if c x then lazy_star c s' k else None
      | [] => None
      end
  end.

(** [rmatch r s cap k]: match [r] at the head of [s], then continue
    with [k] on what is left and on the text of the group. *)
Fixpoint rmatch (r : regex) (s : str) (cap : str)
         (k : str -> str -> option A) : option A :=
  match r with
  | Lit l => if startswith l s then k (skipn (length l) s) cap else None
  | Seq r1 r2 => rmatch r1 s cap (fun s' cap' => rmatch r2 s' cap' k)
  | Opt r' =>
      match rmatch r' s cap k with
      | Some a => Some a
      | None => k s cap
      end
  | Star c => star c s (fun s' => k s' cap)
  | LazyStar c => lazy_star c s (fun s' => k s' cap)
  | Group r' =>
      rmatch r' s cap (fun s' _ => k s' (firstn (length s - length s') s))
  end.
End Match.

(** A match of [r] at the head of [s]: what is left of [s], and the
    group. *)
Definition match_here (r : regex) (s : str) : option (str * str) :=
  rmatch r s [] (fun s' cap => Some (s', cap)).

(** [re.findall] for a pattern with one group: the groups of the
    successive non-overlapping matches, leftmost first.  [skip] counts
    the characters still covered by the previous match. *)
Fixpoint findall_from (r : regex) (skip : nat) (s : str) : list str :=
  match skip with
  | S n =>
      match s with
      | [] => []
      | _ :: t => findall_from r n t
      end
  | O =>
      match match_here r s with
      | Some (rest, cap) =>
          cap :: match s with
                 | [] => []
                 | _ :: t => findall_from r (length s - length rest - 1) t
                 end
      | None =>
          match s with
          | [] => []
          | _ :: t => findall_from r 0 t
          end
      end
  end.

Definition findall (r : regex) (s : str) : list str := findall_from r 0 s.

End Re.

Definition backticks : str := [96; 96; 96]%N.

(** The pattern of [parse_gemini_response], compiled with [re.DOTALL]:
    three backticks, an optional [json] tag, white space up to a line
    feed, then lazily anything (the group) up to three backticks. *)
Definition fence_pattern : Re.regex :=
  Re.Seq (Re.Lit backticks)
    (Re.Seq (Re.Opt (Re.Lit (lit "json")))
       (Re.Seq (Re.Star isspace)
          (Re.Seq (Re.Lit [10%N])
             (Re.Seq (Re.Group (Re.LazyStar (fun _ => true)))
                (Re.Lit backticks))))).

(** ** [parse_gemini_response] *)

(** [try: return json.loads(s)  except json.JSONDecodeError: k] *)
Definition try_loads (s : str) (k : result value) : result value :=
  match Json.loads s with
  | Ok v => Ok v
  | Raise JSONDecodeError => k
  | Raise e => Raise e
  end.

(** The loop over [reversed(code_blocks)]; [k] is the code after it. *)
Fixpoint try_blocks (blocks : list str) (k : result value) : result value :=
  match blocks with
  | [] => k
  | block :: rest => try_loads (strip block) (try_blocks rest k)
  end.

Definition parse_gemini_response (response_text : str) : result value :=
  let text := strip response_text in
  let code_blocks := Re.findall fence_pattern text in
  try_blocks (rev code_blocks)
    (try_loads text
       (let start := find (lit "{") text in
        let end_ := rfind (lit "}") text + 1 in
        if (start >=? 0) && (end_ >? start)
        then try_loads (slice start end_ text) (Ok (VDict []))
        else Ok (VDict []))).

(** ** Effects: standard output, backend calls, exceptions *)

Record GenerateContentConfig := {
  temperature : option Q;
  top_p : option Q;
  max_output_tokens : option Z
}.

(** One call of [client.models.generate_content]. *)
Record request := {
  model : str;
  contents : str;
  config : GenerateContentConfig
}.

(** What a call does: it returns a response with a [text], or a
    response that has none ([response.text] is [None]), or raises an
    exception [e] with [str(e) = msg]. *)
Inductive reply :=
| Text (text : str)
| Failure (msg : str)
| NoText.

(** A client handle: the behaviour of the backend behind it. *)
Definition Client := request -> reply.

Record world := {
  stdout : list str;          (* the lines printed so far *)
  calls : list request        (* the backend calls made so far *)
}.

Definition M (A : Type) := world -> result A * world.

Definition ret {A} (a : A) : M A := fun w => (Ok a, w).

Definition bind {A B} (m : M A) (f : A -> M B) : M B :=
  fun w =>
    match m w with
    | (Ok a, w') => f a w'
    | (Raise e, w') => (Raise e, w')
    end.

Definition raise {A} (e : exn) : M A := fun w => (Raise e, w).

Definition lift {A} (r : result A) : M A := fun w => (r, w).

(** [print(line)]: the line is appended to the standard output, which
    is taken to encode every text it is given.  (A stream that encodes
    to UTF-8 refuses a lone surrogate with [UnicodeEncodeError]; the
    statements that depend on a [print] going through say so, with the
    lines printed as a hypothesis.) *)
Definition print (line : str) : M unit :=
  fun w => (Ok tt, {| stdout := stdout w ++ [line]; calls := calls w |}).

Definition generate_content (client : Client) (req : request) : M reply :=
  fun w => (Ok (client req), {| stdout := stdout w; calls := calls w ++ [req] |}).

Declare Scope py_scope.
Delimit Scope py_scope with py.
Notation "x <- m ;; k" := (bind m (fun x => k))
  (at level 61, m at next level, right associativity) : py_scope.
Notation "m ;; k" := (bind m (fun _ => k))
  (at level 61, right associativity) : py_scope.
Local Open Scope py_scope.

(** ** Configuration and data model *)

Definition GEMINI_MODELS : list str :=
  [ lit "gemini-2.0-flash";
    lit "gemini-2.5-flash";
    lit "gemini-2.0-flash-lite";
    lit "gemini-2.5-flash-lite" ].

Definition CATEGORIES : list (str * str) :=
  [ (lit "원료_문의", lit "원료 관련 문의, 원료 스펙, 원료 추천, 원료 변경");
    (lit "처방_요청", lit "신제품 처방 개발, 처방 변경, 처방 최적화 요청");
    (lit "품질_이슈", lit "제품 품질 문제, 클레임, 불량, 안정성 이슈");
    (lit "일정_조율", lit "개발 일정, 납기, 미팅 일정, 샘플 일정");
    (lit "규제_인허가", lit "인허가, 규제, 성분 규제, 수출 규정, INCI");
    (lit "샘플_요청", lit "샘플 제작, 샘플 발송, 시제품 요청");
    (lit "기술_검토", lit "기술 검토, 특허, 기술 자문, 공정 문의");
    (lit "견적_계약", lit "견적서, 단가, 계약, MOQ, 거래 조건");
    (lit "기타", lit "위 카테고리에 해당하지 않는 일반 문의") ].

Definition URGENCY_LEVELS : list (str * str) :=
  [ (lit "긴급", lit "즉시 대응 필요 (품질 사고, 라인 중단, 클레임 등)");
    (lit "높음", lit "당일 또는 익일 대응 필요 (납기 임박, 고객 긴급 요청)");
    (lit "보통", lit "일반적인 업무 처리 (3-5일 내 대응)");
    (lit "낮음", lit "참고/정보 공유 성격 (일주일 이내 대응)") ].

Record EmailInput := {
  subject : str;
  body : str;
  sender : str;
  date : str
}.

(** The fields are dynamically typed: whatever the backend's JSON held
    under the key is stored as it is. *)
Record ClassificationResult := {
  category : value;
  category_description : value;
  urgency : value;
  urgency_reason : value;
  summary : value;
  key_points : value;
  recommended_department : value;
  recommended_lab : value;
  recommended_team : value;
  recommended_researchers : list dict;
  suggested_actions : value;
  raw_response : str
}.

(** [ClassificationResult()] *)
Definition ClassificationResult_default : ClassificationResult := {|
  category := VStr [];
  category_description := VStr [];
  urgency := VStr [];
  urgency_reason := VStr [];
  summary := VStr [];
  key_points := VList [];
  recommended_department := VStr [];
  recommended_lab := VStr [];
  recommended_team := VStr [];
  recommended_researchers := [];
  suggested_actions := VList [];
  raw_response := []
|}.

(** One record of the staff directory, as [build_researcher_db] of
    [preprocess_researchers.py] writes it: a [dict] with texts under
    [name], [department], [lab], [team], [position] and [email] and a
    boolean under [email_verified]; a key may be absent ([None]).  The
    directory itself is an insertion-ordered [dict] from staff code to
    record.  A directory file edited by hand can hold other values
    under these keys (a number, [null]); such records are outside this
    type, and the statements on the matcher are about the records
    inside it. *)
Record StaffRecord := {
  sr_name : option str;
  sr_department : option str;
  sr_lab : option str;
  sr_team : option str;
  sr_position : option str;
  sr_email : option str;
  sr_email_verified : option bool
}.

Definition Directory := list (str * StaffRecord).

(** [info.get(key, default)] on a record field. *)
Definition get_or {A} (field : option A) (default : A) : A :=
  match field with
  | Some x => x
  | None => default
  end.

(** ** [configure_gemini] *)

Definition probe_request (model_name : str) : request :=
  {| model := model_name;
     contents := lit "ping";
     config := {| temperature := None; top_p := None; max_output_tokens := Some 8 |} |}.

(** The [for model_name in ...] loop: [Some] when the loop returns from
    inside, [None] when it runs to its end. *)
Fixpoint probe_models (client : Client) (models : list str)
  : M (option (Client * str)) :=
  match models with
  | [] => ret None
  | model_name :: rest =>
      response <- generate_content client (probe_request model_name) ;;
      match response with
      | Text _ | NoText =>
          print (lit "[INFO] Gemini 모델 선택 완료: " ++ model_name) ;;
          ret (Some (client, model_name))
      | Failure e =>
          let reason := if contains (lit "429") e then lit "quota" else slice_to 60 e in
          print (lit "[INFO] " ++ model_name ++ lit " 사용 불가 (" ++ reason
                 ++ lit "), 다음 모델 시도...") ;;
          probe_models client rest
      end
  end.

(** [os.getenv("GEMINI_API_KEY") or os.getenv("GOOGLE_API_KEY")] *)
Definition lookup_api_key (getenv : str -> option str) : option str :=
  match getenv (lit "GEMINI_API_KEY") with
  | Some (c :: k) => Some (c :: k)
  | _ => getenv (lit "GOOGLE_API_KEY")
  end.

(** [configure_gemini], with the candidate list, the environment
    ([os.getenv]) and the client constructor ([genai.Client]) as
    parameters. *)
Definition configure_gemini_with (models : list str)
           (getenv : str -> option str) (genai_Client : str -> Client)
  : M (Client * str) :=
  match lookup_api_key getenv with
  | Some (c :: k) =>
      let client := genai_Client (c :: k) in
      found <- probe_models client models ;;
      match found with
      | Some r => ret r
      | None =>
          print (lit "[에러] 사용 가능한 Gemini 모델이 없습니다. API 키 또는 할당량을 확인하세요.") ;;
          raise (SystemExit 1)
      end
  | _ =>
      print (lit "[에러] API 키가 설정되지 않았습니다.") ;;
      print (lit "  방법 1: export GEMINI_API_KEY='your-key'") ;;
      print (lit "  방법 2: .env 파일에 GEMINI_API_KEY=your-key 또는 GOOGLE_API_KEY=your-key 추가") ;;
      raise (SystemExit 1)
  end.

Definition configure_gemini := configure_gemini_with GEMINI_MODELS.

(** ** [build_classification_prompt] *)

Definition taxonomy_lines (entries : list (str * str)) : str :=
  join [10%N] (map (fun kv => lit "  - " ++ fst kv ++ lit ": " ++ snd kv) entries).

(** [x or default] on strings *)
Definition or_else (x default : str) : str :=
  match x with
  | [] => default
  | _ => x
  end.

Definition build_classification_prompt (email : EmailInput) (dept_summary : str) : str :=
  let categories_text := taxonomy_lines CATEGORIES in
  let urgency_text := taxonomy_lines URGENCY_LEVELS in
  lit "당신은 코스맥스(Cosmax) 화장품 OEM 회사의 이메일 분류 전문가입니다.
코스맥스는 한국의 화장품 OEM/ODM 기업으로, 스킨케어, 메이크업, 선케어 등을 연구·개발·생산합니다.

아래 이메일을 분석하여 JSON 형식으로 분류 결과를 반환하세요.

=== 이메일 정보 ===
발신자: " ++ or_else (sender email) (lit "(미상)") ++ lit "
날짜: " ++ or_else (date email) (lit "(미상)") ++ lit "
제목: " ++ subject email ++ lit "

본문:
" ++ body email ++ lit "

=== 분류 카테고리 ===
" ++ categories_text ++ lit "

=== 긴급도 레벨 ===
" ++ urgency_text ++ lit "

=== 코스맥스 연구소 구조 ===
" ++ dept_summary ++ lit_q "

=== 응답 형식 (반드시 JSON만 반환) ===
{
  'category': '카테고리명 (위 목록에서 선택)',
  'category_description': '해당 카테고리로 분류한 이유 (1문장)',
  'urgency': '긴급/높음/보통/낮음',
  'urgency_reason': '긴급도 판단 근거 (1문장)',
  'summary': '이메일 핵심 내용 요약 (2-3문장)',
  'key_points': ['핵심 포인트1', '핵심 포인트2'],
  'recommended_department': '추천 담당 연구소',
  'recommended_lab': '추천 담당 랩',
  'recommended_team': '추천 담당 팀 (알 수 없으면 빈 문자열)',
  'suggested_actions': ['추천 액션1', '추천 액션2', '추천 액션3']
}

중요:
- 반드시 유효한 JSON만 반환하세요. 설명이나 마크다운 없이 JSON만 출력하세요.
- 코스맥스 연구소 구조를 참고하여 가장 적합한 부서를 추천하세요.
- 모든 응답은 한국어로 작성하세요.
".

(** ** [find_matching_researchers] *)

Definition rbind {A B} (r : result A) (f : A -> result B) : result B :=
  match r with
  | Ok a => f a
  | Raise e => Raise e
  end.

Notation "x <~ r ;; k" := (rbind r (fun x => k))
  (at level 61, r at next level, right associativity) : py_scope.

(** The test [guess and field and guess in field], where [field] is a
    [str]: [in] needs a [str] on its left. *)
Definition guess_in_field (guess : value) (field : str) : result bool :=
  if negb (Py.truthy guess) then Ok false
  else
    match field with
    | [] => Ok false
    | _ :: _ =>
        match guess with
        | VStr g => Ok (contains g field)
        | _ => Raise TypeError
        end
    end.

(** The body of the loop for one directory item: the score, and the
    candidate [dict] when the score is positive. *)
Definition score_record (department lab team : value) (info : StaffRecord)
  : result Z :=
  let r_dept := get_or (sr_department info) [] in
  let r_lab := get_or (sr_lab info) [] in
  let r_team := get_or (sr_team info) [] in
  in_dept <~ guess_in_field department r_dept ;;
  let score := if in_dept then 0 + 3 else 0 in
  in_lab <~ guess_in_field lab r_lab ;;
  let score := if in_lab then score + 2 else score in
  in_team <~ guess_in_field team r_team ;;
  let score := if in_team then score + 1 else score in
  Ok score.

(** The [dict] display appended to [candidates]; [info["name"]] raises
    [KeyError] when the record has no name. *)
Definition candidate (code : str) (info : StaffRecord) (score : Z) : result dict :=
  match sr_name info with
  | None => Raise (KeyError (lit "name"))
  | Some name =>
      Ok [ (lit "code", VStr code);
           (lit "name", VStr name);
           (lit "department", VStr (get_or (sr_department info) []));
           (lit "lab", VStr (get_or (sr_lab info) []));
           (lit "team", VStr (get_or (sr_team info) []));
           (lit "position", VStr (get_or (sr_position info) []));
           (lit "email", VStr (get_or (sr_email info) []));
           (lit "email_verified", VBool (get_or (sr_email_verified info) false));
           (lit "match_score", VInt score) ]
  end.

(** The loop over [researcher_db.items()], appending to [candidates]. *)
Fixpoint collect_candidates (items : Directory) (department lab team : value)
         (candidates : list dict) : result (list dict) :=
  match items with
  | [] => Ok candidates
  | (code, info) :: rest =>
      score <~ score_record department lab team info ;;
      if score >? 0 then
        c <~ candidate code info score ;;
        collect_candidates rest department lab team (candidates ++ [c])
      else collect_candidates rest department lab team candidates
  end.

(** The sort key [x["match_score"]].  Every candidate is built with this
    key bound to an [int], so the other branch is never taken. *)
Definition match_score (x : dict) : Z :=
  match Py.lookup (lit "match_score") x with
  | Some (VInt n) => n
  | _ => 0
  end.

(** [list.sort(key=..., reverse=True)]: descending by key, and stable,
    elements with equal keys keeping their order. *)
Fixpoint insert_desc (x : dict) (l : list dict) : list dict :=
  match l with
  | [] => [x]
  | y :: r =>
      if match_score x <? match_score y then y :: insert_desc x r
      else x :: l
  end.

Definition sort_desc (l : list dict) : list dict := fold_right insert_desc [] l.

Definition find_matching_researchers (researcher_db : Directory)
           (department lab team : value) (limit : Z) : result (list dict) :=
  candidates <~ collect_candidates researcher_db department lab team [] ;;
  Ok (slice_to limit (sort_desc candidates)).

(** ** [classify_email] *)

Definition classify_request (model_name prompt : str) : request :=
  {| model := model_name;
     contents := prompt;
     config := {| temperature := Some (2 # 10);
                  top_p := Some (8 # 10);
                  max_output_tokens := Some 8192 |} |}.

Definition backend_failed (e : str) : ClassificationResult := {|
  category := VStr [];
  category_description := VStr [];
  urgency := VStr [];
  urgency_reason := VStr [];
  summary := VStr (lit "분류 실패: " ++ e);
  key_points := VList [];
  recommended_department := VStr [];
  recommended_lab := VStr [];
  recommended_team := VStr [];
  recommended_researchers := [];
  suggested_actions := VList [];
  raw_response := []
|}.

Definition parse_failed (text : str) : ClassificationResult := {|
  category := VStr [];
  category_description := VStr [];
  urgency := VStr [];
  urgency_reason := VStr [];
  summary := VStr (lit "JSON 파싱 실패 — 원본 응답을 확인하세요");
  key_points := VList [];
  recommended_department := VStr [];
  recommended_lab := VStr [];
  recommended_team := VStr [];
  recommended_researchers := [];
  suggested_actions := VList [];
  raw_response := text
|}.

Definition classify_email (client : Client) (model_name : str)
           (email : EmailInput) (researcher_db : Directory) (dept_summary : str)
  : M ClassificationResult :=
  let prompt := build_classification_prompt email dept_summary in
  response <- generate_content client (classify_request model_name prompt) ;;
  match response with
  | Failure e =>
      print (lit "[에러] Gemini API 호출 실패: " ++ e) ;;
      ret (backend_failed e)
  | NoText =>
      (* parse_gemini_response(None): None has no strip *)
      raise AttributeError
  | Text text =>
      parsed <- lift (parse_gemini_response text) ;;
      if negb (Py.truthy parsed) then
        print (lit "[경고] Gemini 응답 JSON 파싱 실패") ;;
        print (lit "[DEBUG] 원본 응답:" ++ [10%N] ++ slice_to 500 text) ;;
        ret (parse_failed text)
      else
        v_category <- lift (Py.get parsed (lit "category") (VStr (lit "기타"))) ;;
        v_category_description <- lift (Py.get parsed (lit "category_description") (VStr [])) ;;
        v_urgency <- lift (Py.get parsed (lit "urgency") (VStr (lit "보통"))) ;;
        v_urgency_reason <- lift (Py.get parsed (lit "urgency_reason") (VStr [])) ;;
        v_summary <- lift (Py.get parsed (lit "summary") (VStr [])) ;;
        v_key_points <- lift (Py.get parsed (lit "key_points") (VList [])) ;;
        v_department <- lift (Py.get parsed (lit "recommended_department") (VStr [])) ;;
        v_lab <- lift (Py.get parsed (lit "recommended_lab") (VStr [])) ;;
        v_team <- lift (Py.get parsed (lit "recommended_team") (VStr [])) ;;
        v_actions <- lift (Py.get parsed (lit "suggested_actions") (VList [])) ;;
        researchers <-
          match researcher_db with
          | [] => ret []
          | _ :: _ =>
              lift (find_matching_researchers researcher_db
                      v_department v_lab v_team 5)
          end ;;
        ret {| category := v_category;
               category_description := v_category_description;
               urgency := v_urgency;
               urgency_reason := v_urgency_reason;
               summary := v_summary;
               key_points := v_key_points;
               recommended_department := v_department;
               recommended_lab := v_lab;
               recommended_team := v_team;
               recommended_researchers := researchers;
               suggested_actions := v_actions;
               raw_response := text |}
  end.

(** * More of the program *)

(** ** [get_department_summary] *)

(** [a < b] on [str]: the order of the code points, a proper prefix
    coming first. *)
Fixpoint str_ltb (a b : str) : bool :=
  match a, b with
  | [], [] => false
  | [], _ :: _ => true
  | _ :: _, [] => false
  | x :: a', y :: b' =>
      if (x <? y)%N then true
      else if (y <? x)%N then false
      else str_ltb a' b'
  end.

(** [sorted(l, key=key)]: ascending, elements with equal keys keeping
    their order. *)
Fixpoint insert_by {A} (key : A -> str) (x : A) (l : list A) : list A :=
  match l with
  | [] => [x]
  | y :: r => if str_ltb (key y) (key x) then y :: insert_by key x r else x :: l
  end.

Definition sorted_by {A} (key : A -> str) (l : list A) : list A :=
  fold_right (insert_by key) [] l.

(** [sorted(l)] on texts *)
Definition sorted (l : list str) : list str := sorted_by (fun s => s) l.

(** [s.add(x)] on a set of texts, kept as a list without repetition. *)
Definition set_add (x : str) (s : list str) : list str :=
  if existsb (PyStr.eqb x) s then s else s ++ [x].

(** The value [departments[dept]]: the set of labs and the set of
    teams. *)
Definition department_sets := (list str * list str)%type.

(** The additions to the sets [labs] and [teams] of [departments[dept]],
    each only for a non-empty text. *)
Fixpoint add_lab_team (dept lab team : str)
         (departments : list (str * department_sets))
  : list (str * department_sets) :=
  match departments with
  | [] => []
  | (d, (labs, teams)) :: rest =>
      if PyStr.eqb d dept then
        (d, (match lab with [] => labs | _ :: _ => set_add lab labs end,
             match team with [] => teams | _ :: _ => set_add team teams end)) :: rest
      else (d, (labs, teams)) :: add_lab_team dept lab team rest
  end.

(** The body of the loop over [researcher_db.values()]. *)
Definition summary_step (departments : list (str * department_sets))
           (info : StaffRecord) : list (str * department_sets) :=
  let dept := strip (get_or (sr_department info) []) in
  let lab := strip (get_or (sr_lab info) []) in
  let team := strip (get_or (sr_team info) []) in
  match dept with
  | [] => departments
  | _ :: _ =>
      if PyStr.eqb dept (lit "nan") || PyStr.eqb dept (lit "-") then departments
      else
        let departments :=
          if existsb (fun e => PyStr.eqb (fst e) dept) departments
          then departments
          else departments ++ [(dept, ([], []))] in
        add_lab_team dept lab team departments
  end.

(** The departments are sorted by name (the names are distinct, so the
    sort never compares the sets), the labs of each by name; the teams
    are collected and not shown. *)
Definition get_department_summary (researcher_db : Directory) : str :=
  let departments := fold_left summary_step (map snd researcher_db) [] in
  let lines :=
    map (fun e =>
           lit "- " ++ fst e ++ lit ": " ++ join (lit ", ") (sorted (fst (snd e))))
        (sorted_by fst departments) in
  join [10%N] lines.

(** ** [str] of a natural number *)

Module PyInt.

(** [int.__repr__] on a natural number: the decimal digits, the most
    significant first.  [fuel] bounds the number of digits. *)
Fixpoint digits (fuel : nat) (n : N) (acc : str) : str :=
  match fuel with
  | O => acc
  | S f =>
      let acc' := (48 + n mod 10)%N :: acc in
      if (n / 10 =? 0)%N then acc' else digits f (n / 10) acc'
  end.

Definition decimal (n : N) : str := digits (S (N.to_nat (N.log2 n))) n [].

End PyInt.

(** ** Files

    A file the program reads is passed explicitly, as what opening and
    reading it as UTF-8 does: the file is missing; it is
    there but cannot be opened or read (an [IOError], with its text);
    its bytes are no UTF-8 (a [UnicodeDecodeError]); or it holds a
    text. *)

Inductive file_state :=
| Missing
| Unreadable (msg : str)
| Contents (text : str)
| Garbled.

(** ** [load_researcher_db] *)


(** [len(v)] *)
Definition len (v : value) : result N :=
  match v with
  | VStr s => Ok (N.of_nat (length s))
  | VList l => Ok (N.of_nat (length l))
  | VDict d => Ok (N.of_nat (length d))
  | VNone | VBool _ | VInt _ | VFloat _ => Raise TypeError
  end.


(** ** [load_email_overrides] of [preprocess_researchers.py]

    [data/email_overrides.json] is passed explicitly. *)

(** [EMAIL_OVERRIDES_PATH] as it prints on a POSIX system. *)
Definition EMAIL_OVERRIDES_PATH : str := lit "data/email_overrides.json".

(** The address an entry gives: the value itself when it is a text, its
    [email] field when it is a mapping with a textual one, trimmed;
    the empty text otherwise. *)
Definition override_email (val : value) : str :=
  match val with
  | VStr s => strip s
  | VDict d =>
      match Py.lookup (lit "email") d with
      | Some (VStr s) => strip s
      | _ => []
      end
  | VNone | VBool _ | VInt _ | VFloat _ | VList _ => []
  end.

(** The loop over [data.items()]. *)
Fixpoint collect_overrides (items : list (str * value)) (overrides : dict) : M dict :=
  match items with
  | [] => ret overrides
  | (key, val) :: rest =>
      match key with
      | [] => collect_overrides rest overrides
      | _ :: _ =>
          match override_email val with
          | [] => collect_overrides rest overrides
          | (_ :: _) as email =>
              if contains (lit "@") email
              then collect_overrides rest (Py.setitem (strip key) (VStr email) overrides)
              else
                print (lit "[경고] 이메일 형식 이상 (code=" ++ key ++ lit "): " ++ email) ;;
                collect_overrides rest overrides
          end
      end
  end.

(** [load_email_overrides()] on the file; [decode_error text] is the
    message of the [JSONDecodeError] that [text] raises.  The handler
    names [JSONDecodeError] and [IOError]: what else reading or decoding
    raises leaves the function. *)
Definition load_email_overrides (decode_error : str -> str) (file : file_state)
  : M dict :=
  match file with
  | Missing =>
      print (lit "[INFO] 이메일 오버라이드 파일 없음: " ++ EMAIL_OVERRIDES_PATH) ;;
      ret []
  | Unreadable msg =>
      print (lit "[경고] 이메일 오버라이드 파일 읽기 실패: " ++ msg) ;;
      ret []
  | Garbled => raise UnicodeDecodeError
  | Contents text =>
      match Json.loads text with
      | Raise JSONDecodeError =>
          print (lit "[경고] 이메일 오버라이드 파일 읽기 실패: " ++ decode_error text) ;;
          ret []
      | Raise e => raise e
      | Ok (VDict data) =>
          overrides <- collect_overrides data [] ;;
          print (lit "[INFO] 이메일 오버라이드 로드 완료: "
                 ++ PyInt.decimal (N.of_nat (length overrides)) ++ lit "건") ;;
          ret overrides
      | Ok _ =>
          print (lit "[경고] email_overrides.json 형식이 올바르지 않습니다 (JSON object 필요)") ;;
          ret []
      end
  end.

(** ** [_normalize_column] of [preprocess_researchers.py] *)

(** [s.replace(c, [])] for a single character [c] *)
Definition remove_char (c : char) (s : str) : str :=
  filter (fun x => negb (x =? c)%N) s.

(** [str(val)]; [str_of] is [str] on the values that are not texts. *)
Definition text_of (str_of : value -> str) (val : value) : str :=
  match val with
  | VStr s => s
  | _ => str_of val
  end.

(** [_normalize_column(val)] *)
Definition _normalize_column (str_of : value -> str) (val : value) : str :=
  match val with
  | VNone => []
  | _ =>
      strip (remove_char 32%N (remove_char 9%N (remove_char 13%N
               (remove_char 10%N (text_of str_of val)))))
  end.

(** ** [print_result] *)

Definition urgency_icons : list (str * str) :=
  [ (lit "긴급", lit "🔴"); (lit "높음", lit "🟠");
    (lit "보통", lit "🟢"); (lit "낮음", lit "⚪") ].

(** [urgency_icons.get(key, default)] with the white circle as default:
    the key is hashed, which a list and a mapping refuse; a key that is
    no text equals none of the keys. *)
Definition icon_for (key : value) : result str :=
  match key with
  | VList _ | VDict _ => Raise TypeError
  | VStr s =>
      Ok (match List.find (fun kv => PyStr.eqb (fst kv) s) urgency_icons with
          | Some kv => snd kv
          | None => lit "⚪"
          end)
  | VNone | VBool _ | VInt _ | VFloat _ => Ok (lit "⚪")
  end.

(** What a [for] loop goes through: the items of a list, the characters
    of a text, the keys of a mapping; nothing else can be iterated. *)
Definition items_of (v : value) : result (list value) :=
  match v with
  | VList l => Ok l
  | VStr s => Ok (map (fun c => VStr [c]) s)
  | VDict d => Ok (map (fun kv => VStr (fst kv)) d)
  | VNone | VBool _ | VInt _ | VFloat _ => Raise TypeError
  end.

(** The parts of [sep.join(parts)], each of which has to be a text. *)
Fixpoint texts_of (parts : list value) : result (list str) :=
  match parts with
  | [] => Ok []
  | VStr s :: rest => rest' <~ texts_of rest ;; Ok (s :: rest')
  | _ :: _ => Raise TypeError
  end.

(** [r[key]] *)
Definition getitem (r : dict) (key : str) : result value :=
  match Py.lookup key r with
  | Some v => Ok v
  | None => Raise (KeyError key)
  end.

(** [for x in l: body(x)] *)
Fixpoint for_each {A} (body : A -> M unit) (l : list A) : M unit :=
  match l with
  | [] => ret tt
  | x :: rest => body x ;; for_each body rest
  end.

(** [for i, x in enumerate(l, i): body(i, x)] *)
Fixpoint for_each_from {A} (body : N -> A -> M unit) (i : N) (l : list A) : M unit :=
  match l with
  | [] => ret tt
  | x :: rest => body i x ;; for_each_from body (i + 1)%N rest
  end.

Section PrintResult.
(** [str] on the values that are not texts, which a formatted string
    applies to what it shows. *)
Variable str_of : value -> str.

(** The block under [핵심 포인트]. *)
Definition print_key_points (result : ClassificationResult) : M unit :=
  if Py.truthy (key_points result) then
    print (10%N :: lit "[핵심 포인트]") ;;
    points <- lift (items_of (key_points result)) ;;
    for_each (fun point => print (lit "  • " ++ text_of str_of point)) points
  else ret tt.

(** The block under [추천 담당부서]. *)
Definition print_department (result : ClassificationResult) : M unit :=
  print (10%N :: lit "[추천 담당부서]") ;;
  let dept_parts :=
    filter Py.truthy [ recommended_department result;
                       recommended_lab result;
                       recommended_team result ] in
  shown <- lift (match dept_parts with
                 | [] => Ok (lit "(판별 불가)")
                 | _ :: _ => parts <~ texts_of dept_parts ;; Ok (join (lit " > ") parts)
                 end) ;;
  print (lit "  " ++ shown).

(** The body of the loop over the candidates. *)
Definition print_researcher (r : dict) : M unit :=
  email_verified <- lift (getitem r (lit "email_verified")) ;;
  let verified := if Py.truthy email_verified then lit "✓" else lit "✗" in
  name <- lift (getitem r (lit "name")) ;;
  code <- lift (getitem r (lit "code")) ;;
  department <- lift (getitem r (lit "department")) ;;
  lab <- lift (getitem r (lit "lab")) ;;
  team <- lift (getitem r (lit "team")) ;;
  position <- lift (getitem r (lit "position")) ;;
  print (lit "  [" ++ verified ++ lit "] " ++ text_of str_of name
         ++ lit " (" ++ text_of str_of code ++ lit ") — "
         ++ text_of str_of department ++ lit " > " ++ text_of str_of lab
         ++ lit " > " ++ text_of str_of team ++ lit " | "
         ++ text_of str_of position) ;;
  email_verified <- lift (getitem r (lit "email_verified")) ;;
  if Py.truthy email_verified then
    email <- lift (getitem r (lit "email")) ;;
    print (lit "       이메일: " ++ text_of str_of email)
  else ret tt.

(** The block of the candidates. *)
Definition print_researchers (result : ClassificationResult) : M unit :=
  match recommended_researchers result with
  | _ :: _ =>
      print (10%N :: lit "[추천 담당자 후보]") ;;
      for_each print_researcher (recommended_researchers result)
  | [] =>
      print (10%N :: lit "[추천 담당자]") ;;
      print (lit "  매칭되는 담당자를 찾지 못했습니다.")
  end.

(** The block under [추천 액션]. *)
Definition print_actions (result : ClassificationResult) : M unit :=
  if Py.truthy (suggested_actions result) then
    print (10%N :: lit "[추천 액션]") ;;
    actions <- lift (items_of (suggested_actions result)) ;;
    for_each_from
      (fun i action =>
         print (lit "  " ++ PyInt.decimal i ++ lit ". " ++ text_of str_of action))
      1%N actions
  else ret tt.

Definition print_result (email : EmailInput) (result : ClassificationResult)
  : M unit :=
  icon <- lift (icon_for (urgency result)) ;;
  print (10%N :: repeat 61%N 60) ;;
  print (lit "  코스맥스 이메일 분류 결과") ;;
  print (repeat 61%N 60) ;;
  print (10%N :: lit "[이메일 정보]") ;;
  print (lit "  제목: " ++ subject email) ;;
  match sender email with
  | [] => ret tt
  | _ :: _ => print (lit "  발신자: " ++ sender email)
  end ;;
  print (10%N :: lit "[분류 결과]") ;;
  print (lit "  카테고리: " ++ text_of str_of (category result)) ;;
  print (lit "  분류 근거: " ++ text_of str_of (category_description result)) ;;
  print (lit "  긴급도: " ++ icon ++ lit " " ++ text_of str_of (urgency result)) ;;
  print (lit "  긴급도 근거: " ++ text_of str_of (urgency_reason result)) ;;
  print (10%N :: lit "[요약]") ;;
  print (lit "  " ++ text_of str_of (summary result)) ;;
  print_key_points result ;;
  print_department result ;;
  print_researchers result ;;
  print_actions result ;;
  print (10%N :: repeat 61%N 60).
End PrintResult.

(** ** [run_file_mode] *)


Section FileMode.
(** [str.lower], of which the function uses one test, and [str] on the
    values that are not texts. *)
Variable lower : str -> str.
Variable str_of : value -> str.

End FileMode.

(** * Vocabulary of the properties, and example data *)

(** A text decodes when [json.loads] returns on it. *)
Definition decodes (s : str) : Prop := exists v, Json.loads s = Ok v.

(** A text is malformed when [json.loads] raises [JSONDecodeError] on
    it, the one failure the handlers of this program catch. *)
Definition malformed (s : str) : Prop := Json.loads s = Raise JSONDecodeError.

(** The exceptions of the decoder that come from a limit of the
    interpreter. *)
Definition limit (e : exn) : Prop := e = ValueError \/ e = RecursionError.

(** The candidate between the first opening and the last closing brace,
    when there is one. *)
Definition brace_candidate (text : str) : list str :=
  let start := find (lit "{") text in
  let end_ := rfind (lit "}") text + 1 in
  if (start >=? 0) && (end_ >? start) then [slice start end_ text] else [].

(** The texts the parser hands to the decoder, in the order it tries
    them: the fenced blocks from the last to the first, the whole
    trimmed text, the brace candidate. *)
Definition attempts (response_text : str) : list str :=
  let text := strip response_text in
  map strip (rev (Re.findall fence_pattern text)) ++ [text] ++ brace_candidate text.

(** First success wins; the empty mapping when there is none. *)
Fixpoint first_decoded (candidates : list str) : result value :=
  match candidates with
  | [] => Ok (VDict [])
  | c :: rest => try_loads c (first_decoded rest)
  end.

Definition no_backtick (s : str) : Prop := Forall (fun c => c <> 96%N) s.

(** The text does not begin with white space. *)
Definition not_space_led (s : str) : Prop :=
  match s with
  | [] => True
  | c :: _ => isspace c = false
  end.

(** What is left of a run of white space after its last line feed. *)
Fixpoint after_last_newline (w : str) : option str :=
  match w with
  | [] => None
  | x :: w' =>
      match after_last_newline w' with
      | Some t => Some t
      | None => if (x =? 10)%N then Some w' else None
      end
  end.

Definition all_space (w : str) : Prop := Forall (fun c => isspace c = true) w.

(** A fenced block: the opening fence with its tag, a line feed, the
    content, the closing fence. *)
Definition fenced (tag content : str) : str :=
  backticks ++ tag ++ [10%N] ++ content ++ backticks.

Definition json_tag (tag : str) : Prop := tag = [] \/ tag = lit "json".

Definition is_mapping (v : value) : Prop :=
  match v with
  | VDict _ => True
  | _ => False
  end.

(** A reply with two fenced blocks of which only the second is JSON. *)
Definition two_fenced_blocks : str :=
  (lit "Here is my answer:" ++ [10%N])
  ++ fenced (lit "json") (lit "{category: broken" ++ [10%N])
  ++ ([10%N] ++ lit "Sorry, fixed:" ++ [10%N])
  ++ fenced (lit "json") (lit_q "{'category': 'fixed'}" ++ [10%N])
  ++ [].

Definition empty_world : world := {| stdout := []; calls := [] |}.

(** A directory with one record, in department [Lab X]. *)
Definition one_record_directory : Directory :=
  [ (lit "A1",
     {| sr_name := Some (lit "Kim");
        sr_department := Some (lit "Lab X");
        sr_lab := Some (lit "Formulation");
        sr_team := None;
        sr_position := None;
        sr_email := None;
        sr_email_verified := None |}) ].

(** The value a mapping holds under a key, or the default when the key
    is missing. *)
Definition field_or (d : dict) (k : str) (default : value) : value :=
  match Py.lookup k d with
  | Some x => x
  | None => default
  end.

(** The scenario of the design document: a shipment-hold mail and a
    backend that answers with a quality issue of the highest urgency. *)
Definition shipment_hold : EmailInput :=
  {| subject := lit "[Urgent] Shipment hold";
     body := lit "SPF measured 38 vs labeled 50+";
     sender := [];
     date := [] |}.

Definition quality_issue_reply : str :=
  lit_q "{'category':'품질_이슈','urgency':'긴급','summary':'...','recommended_department':'Lab X'}".

(** The parser recovers nothing from a text when none of its decoding
    attempts succeeds. *)
Definition recovers_nothing (response_text : str) : Prop :=
  Forall (fun c => ~ decodes c) (attempts response_text).

Definition decodesb (s : str) : bool :=
  match Json.loads s with
  | Ok _ => true
  | Raise _ => false
  end.

Definition malformedb (s : str) : bool :=
  match Json.loads s with
  | Raise JSONDecodeError => true
  | _ => false
  end.

(** An integer literal with one digit more than the interpreter
    converts. *)
Definition oversized_number : str := repeat 49%N 4301.

(** A reply that is no JSON: the number, then a word. *)
Definition oversized_reply : str := oversized_number ++ lit " oops".

(** A reply with two fenced blocks: the first holds a JSON object, the
    second, which is tried first, is no JSON and begins with the
    number. *)
Definition first_block : str := lit_q "{'category': 'first'}" ++ [10%N].

Definition second_block : str := oversized_number ++ lit " units" ++ [10%N].

Definition oversized_second_block : str :=
  (lit "First answer:" ++ [10%N])
  ++ fenced (lit "json") first_block
  ++ ([10%N] ++ lit "Second answer:" ++ [10%N])
  ++ fenced (lit "json") second_block.




(** The scenario of the design document: the first candidate is out of
    quota, the others answer. *)
Definition quota_on_m1 : Client :=
  fun req =>
    if PyStr.eqb (model req) (lit "m1")
    then Failure (lit "429 RESOURCE_EXHAUSTED")
    else Text (lit "pong").

Definition descending (l : list dict) : Prop :=
  StronglySorted (fun a b => match_score b <= match_score a) l.

(** [a] occurs in [b] as a contiguous run of characters. *)
Definition substring (a b : str) : Prop := exists pre post, b = pre ++ a ++ post.

(** One signal of the scoring rule: a non-empty guess contained in the
    record's field. *)
Definition guess_matches (guess field : str) : Prop :=
  guess <> [] /\ substring guess field.

Definition signal (guess field : str) : bool :=
  match guess with
  | [] => false
  | _ :: _ => contains guess field
  end.

(** The score of a record for a free-text guess. *)
Definition directory_score (d l t : str) (info : StaffRecord) : Z :=
  (if signal d (get_or (sr_department info) []) then 3 else 0)
  + (if signal l (get_or (sr_lab info) []) then 2 else 0)
  + (if signal t (get_or (sr_team info) []) then 1 else 0).

(** The directory items the loop appends a candidate for. *)
Definition scoring (department lab team : value) (item : str * StaffRecord) : bool :=
  match score_record department lab team (snd item) with
  | Ok s => 0 <? s
  | Raise _ => false
  end.

Definition is_candidate (department lab team : value)
           (item : str * StaffRecord) (c : dict) : Prop :=
  exists s,
    score_record department lab team (snd item) = Ok s
    /\ candidate (fst item) (snd item) s = Ok c.

Definition candidate_keys : list str :=
  [ lit "code"; lit "name"; lit "department"; lit "lab"; lit "team";
    lit "position"; lit "email"; lit "email_verified"; lit "match_score" ].

(** The scoring rule as the claim words it: a signal fires when the
    non-empty guess is contained in the record's field or the record's
    field is contained in the guess. *)
Definition claimed_signal (guess field : str) : bool :=
  match guess with
  | [] => false
  | _ :: _ => contains guess field || contains field guess
  end.

Definition claimed_score (d l t : str) (info : StaffRecord) : Z :=
  (if claimed_signal d (get_or (sr_department info) []) then 3 else 0)
  + (if claimed_signal l (get_or (sr_lab info) []) then 2 else 0)
  + (if claimed_signal t (get_or (sr_team info) []) then 1 else 0).

Definition staff (name department lab team : str) : StaffRecord :=
  {| sr_name := Some name;
     sr_department := Some department;
     sr_lab := Some lab;
     sr_team := Some team;
     sr_position := None;
     sr_email := None;
     sr_email_verified := None |}.

(** Two records of the same department, which tie on a department
    guess. *)
Definition tied_directory : Directory :=
  [ (lit "A1", staff (lit "Kim") (lit "Lab X") (lit "Formulation") []);
    (lit "B2", staff (lit "Lee") (lit "Lab X") (lit "Analysis") []) ].

(** A guess the matcher can test against a text field without raising:
    a text, or a falsy value, which is never tested. *)
Definition safe_guess (v : value) : Prop :=
  (exists s, v = VStr s) \/ Py.truthy v = false.

(** Every record of the directory has a name. *)
Definition all_named (researcher_db : Directory) : Prop :=
  Forall (fun item => sr_name (snd item) <> None) researcher_db.

(** The number of directory records a textual guess gives points to. *)
Definition scoring_count (d l t : str) (researcher_db : Directory) : Z :=
  Z.of_nat (length (filter (fun item => 0 <? directory_score d l t (snd item))
                      researcher_db)).

(** The one entry the matcher keeps of [tied_directory] for the guess
    [Lab X] / [Analysis] under the limit 1. *)
Definition tied_top_one : list dict :=
  match find_matching_researchers tied_directory
          (VStr (lit "Lab X")) (VStr (lit "Analysis")) (VStr []) 1 with
  | Ok res => res
  | Raise _ => []
  end.




Definition credential_help : list str :=
  [ lit "[에러] API 키가 설정되지 않았습니다.";
    lit "  방법 1: export GEMINI_API_KEY='your-key'";
    lit "  방법 2: .env 파일에 GEMINI_API_KEY=your-key 또는 GOOGLE_API_KEY=your-key 추가" ].

(** The environment holds no usable credential: each of the two
    variables is unset or empty. *)
Definition no_credential (getenv : str -> option str) : Prop :=
  (getenv (lit "GEMINI_API_KEY") = None \/ getenv (lit "GEMINI_API_KEY") = Some [])
  /\ (getenv (lit "GOOGLE_API_KEY") = None \/ getenv (lit "GOOGLE_API_KEY") = Some []).

(** What the summary reads of a record: the trimmed department, lab and
    team. *)
Definition department_of (info : StaffRecord) : str :=
  strip (get_or (sr_department info) []).

Definition lab_of (info : StaffRecord) : str :=
  strip (get_or (sr_lab info) []).

Definition team_of (info : StaffRecord) : str :=
  strip (get_or (sr_team info) []).

(** A department name the summary keeps: not empty, not [nan], not a
    lone dash. *)
Definition usable_department (d : str) : bool :=
  match d with
  | [] => false
  | _ :: _ => negb (PyStr.eqb d (lit "nan") || PyStr.eqb d (lit "-"))
  end.

(** The (department, lab) pairs of the directory. *)
Definition dept_lab_pairs (researcher_db : Directory) : list (str * str) :=
  map (fun item => (department_of (snd item), lab_of (snd item))) researcher_db.

(** One line of the summary. *)
Definition summary_line (dept : str) (labs : list str) : str :=
  lit "- " ++ dept ++ lit ": " ++ join (lit ", ") labs.

(** Strictly ascending in the order of the code points. *)
Definition ascending (l : list str) : Prop :=
  StronglySorted (fun a b => str_ltb a b = true) l.

(** The distinct texts of a list, in the order of their first
    occurrence. *)
Definition distinct (l : list str) : list str :=
  fold_left (fun s x => set_add x s) l [].

(** The departments the loop has an entry for after the records
    [infos], and the non-empty values of the field [f] it has collected
    for the department [d]. *)
Definition shown_departments (infos : list StaffRecord) : list str :=
  distinct (filter usable_department (map department_of infos)).

Definition collected (f : StaffRecord -> str) (d : str) (infos : list StaffRecord)
  : list str :=
  distinct (filter (fun s => match s with [] => false | _ :: _ => true end)
              (map f (filter (fun info => PyStr.eqb (department_of info) d) infos))).

Definition collected_entry (infos : list StaffRecord) (d : str)
  : str * department_sets :=
  (d, (collected lab_of d infos, collected team_of d infos)).

Definition two_departments : Directory :=
  [ (lit "R001", staff (lit "Kim") (lit "Skin Care") (lit "Lab B") (lit "T1"));
    (lit "R002", staff (lit "Lee") (lit "Make-up") (lit "Lab C") (lit "T2"));
    (lit "R003", staff (lit "Park") (lit " Skin Care ") (lit "Lab A") (lit ""));
    (lit "R004", staff (lit "Choi") (lit "nan") (lit "Lab Z") (lit "")) ].

(** The same department and lab pairs as [two_departments], in another
    order, under other codes and names, with a repetition and other
    teams. *)
Definition shuffled_departments : Directory :=
  [ (lit "S9", staff (lit "Jung") (lit "nan") (lit " Lab Z") (lit "T7"));
    (lit "S8", staff (lit "Han") (lit "Skin Care") (lit "Lab A") (lit "T8"));
    (lit "S7", staff (lit "Yoon") (lit "Make-up ") (lit "Lab C") (lit ""));
    (lit "S6", staff (lit "Lim") (lit "Skin Care") (lit "Lab B ") (lit "T9"));
    (lit "S5", staff (lit "Seo") (lit "Skin Care") (lit "Lab A") (lit "")) ].






(** An entry of the overrides the database builder can use: the code
    is trimmed, and the address is a text that is trimmed, not empty
    and has an [@] in it. *)
Definition usable_override (kv : str * value) : Prop :=
  strip (fst kv) = fst kv
  /\ exists email,
      snd kv = VStr email
      /\ email <> []
      /\ contains (lit "@") email = true
      /\ strip email = email.

(** The second of the two formats of an entry: the address under the
    key [email] of a mapping. *)
Definition nested_format (val : value) : value :=
  match val with
  | VStr s => VDict [(lit "email", VStr s)]
  | _ => val
  end.

Definition overrides_text : str :=
  lit_q "{'AHJ01': ' hyunjung.ahn@cosmax.com ', 'SYW01 ': {'email': 'yewon.shin@cosmax.com'}, 'KDH02': 'no address', '': 'x@cosmax.com', 'LJS03': 7}".

Definition overrides_nested_text : str :=
  lit_q "{'AHJ01': {'email': ' hyunjung.ahn@cosmax.com '}, 'SYW01 ': {'email': 'yewon.shin@cosmax.com'}, 'KDH02': {'email': 'no address'}, '': {'email': 'x@cosmax.com'}, 'LJS03': 7}".

(** No blank, tab, carriage return or line feed. *)
Definition no_blank (s : str) : Prop :=
  Forall (fun c => c <> 32%N /\ c <> 9%N /\ c <> 13%N /\ c <> 10%N) s.

(** No white space at either end. *)
Definition trimmed (s : str) : Prop :=
  match s with
  | [] => True
  | c :: _ => isspace c = false /\ isspace (last s c) = false
  end.

(** A text the standard output can take: it has no surrogate code
    point, the one thing UTF-8 does not encode. *)
Definition is_surrogate (c : char) : bool := ((55296 <=? c) && (c <=? 57343))%N.

Definition encodable (s : str) : Prop := Forall (fun c => is_surrogate c = false) s.

(** The lines the computation [m] prints when it is started in the
    world [w]. *)
Definition printed {A} (m : M A) (w : world) : list str :=
  skipn (length (stdout w)) (stdout (snd (m w))).

(** Every attempt of the parser on the text is malformed. *)
Definition unparseable (response_text : str) : Prop :=
  Forall malformed (attempts response_text).

(** The computation [m], started in the world [w], returns and raises
    nothing. *)
Definition returns {A} (m : M A) (w : world) : Prop :=
  exists a w', m w = (Ok a, w').

(** A value that can be the key of a [dict] lookup. *)
Definition hashable (v : value) : Prop :=
  match v with
  | VList _ | VDict _ => False
  | VNone | VBool _ | VInt _ | VFloat _ | VStr _ => True
  end.

(** A value the report can list: falsy, so that the block is skipped,
    or a list, a text or a mapping. *)
Definition listable (v : value) : Prop :=
  Py.truthy v = false
  \/ match v with
     | VList _ | VStr _ | VDict _ => True
     | VNone | VBool _ | VInt _ | VFloat _ => False
     end.

Definition has_key (r : dict) (k : str) : Prop := Py.lookup k r <> None.

(** An entry of the candidates the report can show: it has the keys the
    line reads and, when it is marked as verified, the address. *)
Definition printable_entry (r : dict) : Prop :=
  exists email_verified,
    Py.lookup (lit "email_verified") r = Some email_verified
    /\ has_key r (lit "name")
    /\ has_key r (lit "code")
    /\ has_key r (lit "department")
    /\ has_key r (lit "lab")
    /\ has_key r (lit "team")
    /\ has_key r (lit "position")
    /\ (Py.truthy email_verified = true -> has_key r (lit "email")).

(** The fields of a result the report can show. *)
Definition printable_fields (result : ClassificationResult) : Prop :=
  hashable (urgency result)
  /\ listable (key_points result)
  /\ safe_guess (recommended_department result)
  /\ safe_guess (recommended_lab result)
  /\ safe_guess (recommended_team result)
  /\ listable (suggested_actions result).

(** What [classify_email] returns in the scenario of the design
    document, on the directory with one record: the fields of the reply
    and one candidate. *)
Definition quality_issue_result : ClassificationResult :=
  match fst (classify_email (fun _ => Text quality_issue_reply) (lit "gemini-2.0-flash")
               shipment_hold one_record_directory [] empty_world) with
  | Ok r => r
  | Raise _ => ClassificationResult_default
  end.





(** * Properties *)

(** ** Strings *)

Lemma eqb_eq (a b : str) : PyStr.eqb a b = true <-> a = b.
Proof.
  revert b; induction a as [|x a IH]; intros [|y b]; simpl; split;
    try congruence; try reflexivity.
  - rewrite andb_true_iff, N.eqb_eq, IH. intros [-> ->]; reflexivity.
  - intros E; injection E as -> ->. now rewrite N.eqb_refl, (proj2 (IH b) eq_refl).
Qed.

Lemma startswith_spec (p s : str) :
  startswith p s = true <-> exists r, s = p ++ r.
Proof.
  revert s; induction p as [|a p IH]; intros s; simpl.
  - split; [intros _; now exists s | reflexivity].
  - destruct s as [|b s]; [split; [discriminate | intros [r E]; discriminate]|].
    rewrite andb_true_iff, N.eqb_eq, IH. split.
    + intros [-> [r ->]]. now exists r.
    + intros [r E]. injection E as -> ->. split; [reflexivity | now exists r].
Qed.

(** Python's [sub in s] is substring containment. *)
Lemma contains_spec (sub s : str) :
  contains sub s = true <-> exists pre post, s = pre ++ sub ++ post.
Proof.
  induction s as [|c s IH].
  - simpl. rewrite orb_false_r, startswith_spec. split.
    + intros [r E]. now exists [], r.
    + intros [pre [post E]]. destruct pre; [now exists post | discriminate].
  - cbn [contains]. rewrite orb_true_iff, startswith_spec, IH. split.
    + intros [[r E] | [pre [post E]]].
      * now exists [], r.
      * exists (c :: pre), post. now rewrite E.
    + intros [[|c' pre] [post E]].
      * left. now exists post.
      * right. injection E as _ E. now exists pre, post.
Qed.

(** ** The decoder never uses up its fuel *)

Module JsonFacts.
Import Json.

Ltac break_match :=
match goal with
| |- context [match ?x with _ => _ end] => destruct x eqn:?
| H : context [match ?x with _ => _ end] |- _ => destruct x eqn:?
end.

Lemma skip_ws_length (s : str) : (length (skip_ws s) <= length s)%nat.
Proof.
induction s as [|c s IH]; cbn; [lia|]. destruct (is_ws c); cbn; lia.
Qed.

Lemma span_length (p : char -> bool) (s a b : str) :
span p s = (a, b) -> (length b <= length s)%nat.
Proof.
revert a b; induction s as [|c s IH]; cbn; intros a b.
- intros [= <- <-]. cbn; lia.
- destruct (p c).
  + destruct (span p s) as [a' b'] eqn:E. intros [= <- <-].
    specialize (IH _ _ eq_refl). lia.
  + intros [= <- <-]. cbn; lia.
Qed.

Lemma scanstring_length (n : nat) :
forall s acc x r,
  (length s <= n)%nat ->
  scanstring s acc = Some (x, r) -> (length r < length s)%nat.
Proof.
induction n as [|n IH]; intros s acc x r Hn.
- destruct s; [discriminate | cbn in Hn; lia].
- destruct s as [|c s]; [discriminate|]. cbn in Hn. cbn [scanstring].
  intros H.
  repeat break_match; try discriminate;
    try (injection H as <- <-; cbn [length]; lia);
    try (apply IH in H; cbn [length] in *; lia).
Qed.

Lemma scan_sign_length (s : str) : (length (snd (scan_sign s)) <= length s)%nat.
Proof.
destruct s as [|c r]; cbn; [lia|]. destruct (c =? 45)%N; cbn; lia.
Qed.

Lemma scan_int_length (s ids r : str) :
scan_int s = Some (ids, r) -> (length r < length s)%nat.
Proof.
destruct s as [|c s]; cbn; [discriminate|].
destruct (c =? 48)%N; [intros [= <- <-]; lia|].
destruct (is_digit c); [|discriminate].
destruct (span is_digit s) as [ds r'] eqn:E. apply span_length in E.
intros [= <- <-]. lia.
Qed.

Lemma scan_frac_length (s : str) : (length (snd (scan_frac s)) <= length s)%nat.
Proof.
destruct s as [|dot [|d r]]; cbn [scan_frac snd]; try lia.
destruct (_ && _); cbn [snd]; [|lia].
destruct (span is_digit r) as [ds r'] eqn:E. apply span_length in E.
cbn [snd length]. lia.
Qed.

Lemma scan_exp_length (s : str) : (length (snd (scan_exp s)) <= length s)%nat.
Proof.
destruct s as [|e r]; cbn [scan_exp snd]; [lia|].
destruct (_ || _)%N; cbn [snd]; [|lia].
match goal with
| |- context [let (eneg, r1) := ?p in _] =>
    assert (Hp : (length (snd p) <= length r)%nat)
      by (destruct r as [|sg r']; cbn [snd length]; [lia|];
          destruct (sg =? 45)%N; cbn [snd length]; [lia|];
          destruct (sg =? 43)%N; cbn [snd length]; lia);
    destruct p as [eneg r1]
end.
cbn [snd] in Hp.
destruct (span is_digit r1) as [[|c ds] r2] eqn:E; cbn [snd length]; [lia|].
apply span_length in E. lia.
Qed.

Lemma scan_number_length (s : str) (v : result value) (r : str) :
scan_number s = Some (v, r) -> (length r < length s)%nat.
Proof.
unfold scan_number.
pose proof (scan_sign_length s) as H1.
destruct (scan_sign s) as [neg s1]. cbn [snd] in H1.
destruct (scan_int s1) as [[ids s2]|] eqn:E2; [|discriminate].
apply scan_int_length in E2.
pose proof (scan_frac_length s2) as H3.
destruct (scan_frac s2) as [frac s3]. cbn [snd] in H3.
pose proof (scan_exp_length s3) as H4.
destruct (scan_exp s3) as [expo s4]. cbn [snd] in H4.
destruct frac, expo; try (intros [= <- <-]; lia).
destruct (_ <? _)%N; intros [= <- <-]; lia.
Qed.

(** The one limit a number can meet is the cap on the digits. *)
Lemma scan_number_raises (s : str) (e : exn) (r : str) :
scan_number s = Some (Raise e, r) -> e = ValueError.
Proof.
unfold scan_number.
destruct (scan_sign s) as [neg s1].
destruct (scan_int s1) as [[ids s2]|]; [|discriminate].
destruct (scan_frac s2) as [frac s3].
destruct (scan_exp s3) as [expo s4].
destruct frac, expo; try discriminate.
destruct (_ <? _)%N; [|discriminate]. now intros [= <- _].
Qed.

Section Loops.
Variable sc : str -> scanned value.
Variable f : nat.
Hypothesis sc_ok :
forall s, (length s < f)%nat ->
sc s <> Starved /\ forall v r, sc s = Got v r -> (length r < length s)%nat.

Lemma array_loop_ok (n : nat) :
forall s acc,
(length s < n)%nat -> (n <= f)%nat ->
array_loop sc n s acc <> Starved
/\ forall v r, array_loop sc n s acc = Got v r -> (length r < length s)%nat.
Proof.
induction n as [|n IH]; intros s acc Hs Hn; [lia|].
cbn [array_loop].
destruct (sc_ok s ltac:(lia)) as [Hstarved Hgot].
destruct (sc s) as [v r| | |e] eqn:E;
  [|split; [discriminate | discriminate]|congruence|split; discriminate].
specialize (Hgot _ _ eq_refl).
pose proof (skip_ws_length r) as Hr.
destruct (skip_ws r) as [|c r'] eqn:Er; [split; discriminate|].
cbn [length] in Hr.
destruct (c =? 93)%N.
{ split; [discriminate|]. intros v' r'' [= <- <-]. lia. }
destruct (c =? 44)%N; [|split; discriminate].
pose proof (skip_ws_length r') as Hr'.
destruct (IH (skip_ws r') (v :: acc) ltac:(lia) ltac:(lia)) as [IH1 IH2].
split; [exact IH1|]. intros v' r'' H. apply IH2 in H. lia.
Qed.

Lemma object_loop_ok (n : nat) :
forall s acc,
(length s < n)%nat -> (n <= f)%nat ->
object_loop sc n s acc <> Starved
/\ forall v r, object_loop sc n s acc = Got v r -> (length r < length s)%nat.
Proof.
induction n as [|n IH]; intros s acc Hs Hn; [lia|].
cbn [object_loop].
destruct (scanstring s []) as [[key r]|] eqn:Ekey; [|split; discriminate].
apply (@scanstring_length (length s)) in Ekey; [|lia].
pose proof (skip_ws_length r) as Hr.
destruct (skip_ws r) as [|c r1] eqn:Er; [split; discriminate|].
cbn [length] in Hr.
destruct (c =? 58)%N; [|split; discriminate].
pose proof (skip_ws_length r1) as Hr1.
destruct (sc_ok (skip_ws r1) ltac:(lia)) as [Hstarved Hgot].
destruct (sc (skip_ws r1)) as [v r2| | |e] eqn:E;
  [|split; discriminate|congruence|split; discriminate].
specialize (Hgot _ _ eq_refl).
pose proof (skip_ws_length r2) as Hr2.
destruct (skip_ws r2) as [|c' r3] eqn:Er2; [split; discriminate|].
cbn [length] in Hr2.
destruct (c' =? 125)%N.
{ split; [discriminate|]. intros v' r'' [= <- <-]. lia. }
destruct (c' =? 44)%N; [|split; discriminate].
pose proof (skip_ws_length r3) as Hr3.
destruct (skip_ws r3) as [|q r4] eqn:Er3; [split; discriminate|].
cbn [length] in Hr3.
destruct (q =? 34)%N; [|split; discriminate].
destruct (IH r4 ((key, v) :: acc) ltac:(lia) ltac:(lia)) as [IH1 IH2].
split; [exact IH1|]. intros v' r'' H. apply IH2 in H. lia.
Qed.
End Loops.

Lemma startswith_length (p s : str) :
startswith p s = true -> (length p <= length s)%nat.
Proof.
revert s; induction p as [|a p IH]; intros [|b s]; cbn; try lia; try discriminate.
intros H. apply andb_true_iff in H as [_ H]. apply IH in H. lia.
Qed.

(** A budget larger than the text is never used up, and every value
  scanned consumes at least one character. *)
Lemma scan_once_ok (f : nat) :
forall d s, (length s < f)%nat ->
  scan_once f d s <> Starved
  /\ forall v r, scan_once f d s = Got v r -> (length r < length s)%nat.
Proof.
induction f as [|f IH]; intros d s Hs; [lia|].
cbn [scan_once]. destruct s as [|c r]; [split; discriminate|].
cbn [length] in Hs.
destruct (c =? 34)%N.
{ destruct (scanstring r []) as [[x r']|] eqn:E; [|split; discriminate].
  apply (@scanstring_length (length r)) in E; [|lia].
  split; [discriminate|]. intros v r'' [= <- <-]. cbn [length]. lia. }
destruct (c =? 123)%N.
{ destruct d as [|d]; [split; discriminate|].
  pose proof (skip_ws_length r) as Hr.
  destruct (skip_ws r) as [|c' r'] eqn:Er; [split; discriminate|].
  cbn [length] in Hr.
  destruct (c' =? 125)%N.
  { split; [discriminate|]. intros v r'' [= <- <-]. cbn [length]. lia. }
  destruct (c' =? 34)%N; [|split; discriminate].
  destruct (@object_loop_ok (scan_once f d) f (IH d) f r' [] ltac:(lia) ltac:(lia))
    as [H1 H2].
  split; [exact H1|]. intros v r'' H. apply H2 in H. cbn [length]. lia. }
destruct (c =? 91)%N.
{ destruct d as [|d]; [split; discriminate|].
  pose proof (skip_ws_length r) as Hr.
  destruct (skip_ws r) as [|c' r'] eqn:Er; [split; discriminate|].
  destruct (c' =? 93)%N.
  { split; [discriminate|]. intros v r'' [= <- <-]. cbn [length] in *. lia. }
  destruct (@array_loop_ok (scan_once f d) f (IH d) f (c' :: r') []
              ltac:(lia) ltac:(lia))
    as [H1 H2].
  split; [exact H1|]. intros v r'' H. apply H2 in H. cbn [length]. lia. }
assert (Hskip : forall k, (0 < k)%nat -> (k <= length (c :: r))%nat ->
                (length (skipn k (c :: r)) < length (c :: r))%nat).
{ intros k Hk Hle. rewrite length_skipn. lia. }
assert (Hlit : forall (p : str) (k : nat) (v0 : value),
           (0 < k)%nat -> length p = k ->
           startswith p (c :: r) = true ->
           Got v0 (skipn k (c :: r)) <> Starved
           /\ forall v r', Got v0 (skipn k (c :: r)) = Got v r' ->
                          (length r' < length (c :: r))%nat).
{ intros p k v0 Hk Hp E. apply startswith_length in E.
  split; [discriminate|]. intros v r' [= <- <-]. apply Hskip; lia. }
destruct (startswith (lit "null") (c :: r)) eqn:E1;
  [apply (Hlit (lit "null") 4%nat); [lia | reflexivity | exact E1]|].
destruct (startswith (lit "true") (c :: r)) eqn:E2;
  [apply (Hlit (lit "true") 4%nat); [lia | reflexivity | exact E2]|].
destruct (startswith (lit "false") (c :: r)) eqn:E3;
  [apply (Hlit (lit "false") 5%nat); [lia | reflexivity | exact E3]|].
destruct (scan_number (c :: r)) as [[[v0|e0] r0]|] eqn:E4.
{ apply scan_number_length in E4.
  split; [discriminate|]. now intros v r' [= <- <-]. }
{ split; discriminate. }
destruct (startswith (lit "NaN") (c :: r)) eqn:E5;
  [apply (Hlit (lit "NaN") 3%nat); [lia | reflexivity | exact E5]|].
destruct (startswith (lit "Infinity") (c :: r)) eqn:E6;
  [apply (Hlit (lit "Infinity") 8%nat); [lia | reflexivity | exact E6]|].
destruct (startswith (lit "-Infinity") (c :: r)) eqn:E7;
  [apply (Hlit (lit "-Infinity") 9%nat); [lia | reflexivity | exact E7]|].
split; discriminate.
Qed.

Lemma loads_never_starved (s : str) :
scan_once (S (length s)) recursion_allowance (skip_ws s) <> Starved.
Proof.
apply scan_once_ok. pose proof (skip_ws_length s). lia.
Qed.

(** What the scanner gives up on is a limit of the interpreter. *)
Section LoopsFail.
Variable sc : str -> scanned value.
Hypothesis sc_fail : forall s e, sc s = Fail e -> limit e.

Lemma array_loop_fail (n : nat) :
forall s acc e, array_loop sc n s acc = Fail e -> limit e.
Proof.
induction n as [|n IH]; intros s acc e; [discriminate|].
cbn [array_loop].
destruct (sc s) as [v r| | |e'] eqn:E; try discriminate.
- destruct (skip_ws r) as [|c r']; [discriminate|].
  destruct (c =? 93)%N; [discriminate|].
  destruct (c =? 44)%N; [apply IH | discriminate].
- intros [= <-]. eapply sc_fail, E.
Qed.

Lemma object_loop_fail (n : nat) :
forall s acc e, object_loop sc n s acc = Fail e -> limit e.
Proof.
induction n as [|n IH]; intros s acc e; [discriminate|].
cbn [object_loop].
destruct (scanstring s []) as [[key r]|]; [|discriminate].
destruct (skip_ws r) as [|c r1]; [discriminate|].
destruct (c =? 58)%N; [|discriminate].
destruct (sc (skip_ws r1)) as [v r2| | |e'] eqn:E; try discriminate.
- destruct (skip_ws r2) as [|c' r3]; [discriminate|].
  destruct (c' =? 125)%N; [discriminate|].
  destruct (c' =? 44)%N; [|discriminate].
  destruct (skip_ws r3) as [|q r4]; [discriminate|].
  destruct (q =? 34)%N; [apply IH | discriminate].
- intros [= <-]. eapply sc_fail, E.
Qed.
End LoopsFail.

Lemma scan_once_fail (f : nat) :
forall d s e, scan_once f d s = Fail e -> limit e.
Proof.
induction f as [|f IH]; intros d s e; [discriminate|].
cbn [scan_once]. destruct s as [|c r]; [discriminate|].
destruct (c =? 34)%N.
{ destruct (scanstring r []) as [[x r']|]; discriminate. }
destruct (c =? 123)%N.
{ destruct d as [|d]; [intros [= <-]; now right|].
  destruct (skip_ws r) as [|c' r']; [discriminate|].
  destruct (c' =? 125)%N; [discriminate|].
  destruct (c' =? 34)%N; [|discriminate].
  apply object_loop_fail, IH. }
destruct (c =? 91)%N.
{ destruct d as [|d]; [intros [= <-]; now right|].
  destruct (skip_ws r) as [|c' r']; [discriminate|].
  destruct (c' =? 93)%N; [discriminate|].
  apply array_loop_fail, IH. }
destruct (startswith (lit "null") (c :: r)); [discriminate|].
destruct (startswith (lit "true") (c :: r)); [discriminate|].
destruct (startswith (lit "false") (c :: r)); [discriminate|].
destruct (scan_number (c :: r)) as [[[v0|e0] r0]|] eqn:E4; [discriminate| |].
{ intros [= <-]. left. eapply scan_number_raises, E4. }
destruct (startswith (lit "NaN") (c :: r)); [discriminate|].
destruct (startswith (lit "Infinity") (c :: r)); [discriminate|].
destruct (startswith (lit "-Infinity") (c :: r)); discriminate.
Qed.
End JsonFacts.

(** ** The decoder *)

(** The decoder raises [JSONDecodeError], or [ValueError] or
    [RecursionError] at a limit of the interpreter. *)
Lemma loads_raises (s : str) (e : exn) :
  Json.loads s = Raise e ->
  e = JSONDecodeError \/ e = ValueError \/ e = RecursionError.
Proof.
  unfold Json.loads.
  destruct (startswith _ s); [intros [= <-]; now left|].
  destruct (Json.scan_once _ _ _) as [v r| | |e'] eqn:E.
  - destruct (Json.skip_ws r); [discriminate|]. intros [= <-]. now left.
  - intros [= <-]. now left.
  - intros [= <-]. now left.
  - intros [= <-]. right. eapply JsonFacts.scan_once_fail, E.
Qed.

Lemma try_loads_ok (s : str) (k : result value) (v : value) :
  Json.loads s = Ok v -> try_loads s k = Ok v.
Proof. unfold try_loads. now intros ->. Qed.

Lemma try_loads_skip (s : str) (k : result value) :
  malformed s -> try_loads s k = k.
Proof. unfold malformed, try_loads. now intros ->. Qed.

(** What the handler of the parser lets through. *)
Lemma try_loads_raises (s : str) (k : result value) (e : exn) :
  try_loads s k = Raise e ->
  k = Raise e \/ (Json.loads s = Raise e /\ (e = ValueError \/ e = RecursionError)).
Proof.
  unfold try_loads. destruct (Json.loads s) as [v|e'] eqn:E; [discriminate|].
  destruct (loads_raises _ E) as [-> | [-> | ->]]; [now left| |];
    intros [= <-]; right; split; auto.
Qed.

(** ** The parser as a list of decoding attempts *)

Lemma try_blocks_first_decoded (blocks : list str) (rest : list str) :
  try_blocks blocks (first_decoded rest) = first_decoded (map strip blocks ++ rest).
Proof. induction blocks as [|b bs IH]; simpl; [reflexivity | now rewrite IH]. Qed.

Lemma parse_gemini_response_attempts (response_text : str) :
  parse_gemini_response response_text = first_decoded (attempts response_text).
Proof.
  unfold parse_gemini_response, attempts, brace_candidate.
  cbv zeta. rewrite <- try_blocks_first_decoded. f_equal.
  simpl. destruct (_ && _); reflexivity.
Qed.

Lemma first_decoded_none (candidates : list str) :
  Forall malformed candidates -> first_decoded candidates = Ok (VDict []).
Proof.
  induction 1 as [|c cs Hc _ IH]; simpl; [reflexivity|].
  now rewrite (try_loads_skip _ Hc).
Qed.

Lemma first_decoded_hit (before after : list str) (c : str) (v : value) :
  Forall malformed before ->
  Json.loads c = Ok v ->
  first_decoded (before ++ c :: after) = Ok v.
Proof.
  induction 1 as [|c' cs Hc' _ IH]; simpl; intros Hv.
  - now apply try_loads_ok.
  - rewrite (try_loads_skip _ Hc'). now apply IH.
Qed.

(** The parser raises only what the decoder raised at a limit of the
    interpreter. *)
Lemma first_decoded_raises (candidates : list str) (e : exn) :
  first_decoded candidates = Raise e ->
  exists c, In c candidates
            /\ Json.loads c = Raise e /\ (e = ValueError \/ e = RecursionError).
Proof.
  induction candidates as [|c cs IH]; simpl; [discriminate|].
  intros H. apply try_loads_raises in H as [H | [H He]].
  - destruct (IH H) as [c' [Hin Hc']]. exists c'. split; [now right | exact Hc'].
  - exists c. split; [now left|]. now split.
Qed.

Lemma parse_gemini_response_raises (response_text : str) (e : exn) :
  parse_gemini_response response_text = Raise e ->
  e = ValueError \/ e = RecursionError.
Proof.
  rewrite parse_gemini_response_attempts. intros H.
  now destruct (first_decoded_raises _ H) as [c [_ [_ He]]].
Qed.

(** ** Fenced blocks, as the pattern sees them *)

Lemma startswith_app (p s : str) : startswith p (p ++ s) = true.
Proof. apply startswith_spec. now exists s. Qed.

Lemma skipn_length_app {A} (p s : list A) : skipn (length p) (p ++ s) = s.
Proof. induction p as [|a p IH]; cbn; [reflexivity | exact IH]. Qed.

Lemma firstn_length_app {A} (p s : list A) :
  firstn (length (p ++ s) - length s) (p ++ s) = p.
Proof.
  rewrite length_app. replace (length p + length s - length s)%nat with (length p) by lia.
  induction p as [|a p IH]; cbn; [now destruct s | now rewrite IH].
Qed.

Section Matcher.
Variable A : Type.

Lemma star_stops (c : char -> bool) (s : str) (k : str -> option A) :
  match s with [] => True | x :: _ => c x = false end ->
  Re.star c s k = k s.
Proof. destruct s as [|x s]; cbn; [reflexivity | now intros ->]. Qed.

Lemma lazy_star_skips (c : char -> bool) (skipped rest : str) (k : str -> option A) :
  Forall (fun x => c x = true) skipped ->
  (forall x s, In x skipped -> k (x :: s) = None) ->
  Re.lazy_star c (skipped ++ rest) k = Re.lazy_star c rest k.
Proof.
  induction 1 as [|x skipped Hx _ IH]; intros Hk; [reflexivity|].
  cbn [app Re.lazy_star]. rewrite (Hk x _ (or_introl eq_refl)), Hx.
  apply IH. intros y s Hy. apply Hk. now right.
Qed.

Lemma lazy_star_here (c : char -> bool) (s : str) (k : str -> option A) (a : A) :
  k s = Some a -> Re.lazy_star c s k = Some a.
Proof. intros H. destruct s; cbn; now rewrite H. Qed.
End Matcher.

Lemma no_backtick_head (x : char) (s : str) :
  x <> 96%N -> startswith backticks (x :: s) = false.
Proof.
  intros H. unfold backticks. cbn [startswith].
  destruct (96 =? x)%N eqn:E; [|reflexivity].
  apply N.eqb_eq in E. congruence.
Qed.

Lemma not_space_led_no_newline (t : str) :
  not_space_led t -> startswith [10%N] t = false.
Proof.
  destruct t as [|c t]; [reflexivity|]. cbn [not_space_led startswith].
  intros H. destruct (10 =? c)%N eqn:E; [|reflexivity].
  apply N.eqb_eq in E. subst c. discriminate H.
Qed.

(** The greedy [\s*] followed by a line feed gives back characters up to
    the last line feed of the run of white space. *)
Lemma star_backtracks_to_last_newline
      (A : Type) (w t : str) (k : str -> option A) :
  all_space w -> not_space_led t ->
  (forall s, startswith [10%N] s = false -> k s = None) ->
  match after_last_newline w with
  | Some w2 =>
      k (10%N :: w2 ++ t) <> None ->
      Re.star isspace (w ++ t) k = k (10%N :: w2 ++ t)
  | None => Re.star isspace (w ++ t) k = None
  end.
Proof.
  intros Hw Ht Hk. induction Hw as [|x w Hx _ IH].
  - cbn [after_last_newline app]. rewrite star_stops.
    + apply Hk. now apply not_space_led_no_newline.
    + destruct t; [exact I | exact Ht].
  - cbn [after_last_newline app Re.star]. rewrite Hx.
    destruct (after_last_newline w) as [w2|].
    + intros Hsome. rewrite (IH Hsome).
      destruct (k (10%N :: w2 ++ t)); [reflexivity | congruence].
    + rewrite IH. destruct (x =? 10)%N eqn:E.
      * apply N.eqb_eq in E. subst x. reflexivity.
      * apply Hk. cbn [startswith]. rewrite N.eqb_sym, E. reflexivity.
Qed.

Lemma after_last_newline_suffix (w w2 : str) :
  after_last_newline w = Some w2 -> exists w1, w = w1 ++ 10%N :: w2.
Proof.
  revert w2; induction w as [|x w IH]; intros w2; cbn; [discriminate|].
  destruct (after_last_newline w) as [t|].
  - intros [= <-]. destruct (IH _ eq_refl) as [w1 ->]. now exists (x :: w1).
  - destruct (x =? 10)%N eqn:E; [|discriminate].
    intros [= <-]. apply N.eqb_eq in E. subst x. now exists [].
Qed.

Lemma after_last_newline_cons (w : str) :
  exists w2, after_last_newline (10%N :: w) = Some w2.
Proof. cbn. destruct (after_last_newline w); eauto. Qed.

(** A text is a run of white space followed by a text that does not
    begin with white space. *)
Lemma leading_space (s : str) :
  exists w t, s = w ++ t /\ all_space w /\ not_space_led t.
Proof.
  induction s as [|c s (w & t & -> & Hw & Ht)].
  - exists [], []. repeat split. constructor.
  - destruct (isspace c) eqn:E.
    + exists (c :: w), t. repeat split; [now constructor | exact Ht].
    + exists [], (c :: w ++ t). repeat split; [constructor | exact E].
Qed.

Lemma lstrip_all_space (w t : str) :
  all_space w -> not_space_led t -> lstrip (w ++ t) = t.
Proof.
  intros Hw Ht. induction Hw as [|x w Hx _ IH]; cbn [app lstrip].
  - destruct t as [|c t]; [reflexivity|]. cbn [not_space_led lstrip] in *.
    now rewrite Ht.
  - now rewrite Hx.
Qed.

(** The pattern matches a fenced block at the head of a text; its group
    is the block's content, short of leading white space. *)
Lemma match_here_fenced (tag content rest : str) :
  json_tag tag -> no_backtick content ->
  exists cap,
    Re.match_here fence_pattern (fenced tag content ++ rest) = Some (rest, cap)
    /\ strip cap = strip content.
Proof.
  intros Htag Hcontent.
  destruct (leading_space content) as (w & t & -> & Hw & Ht).
  destruct (after_last_newline_cons w) as [w2 Hw2].
  destruct (after_last_newline_suffix _ Hw2) as [w1 Hsplit].
  assert (Hw' : all_space (10%N :: w)) by (constructor; [reflexivity | exact Hw]).
  assert (Hw2s : all_space w2).
  { rewrite Hsplit in Hw'. apply Forall_app in Hw' as [_ Hw'].
    now inversion Hw'. }
  assert (Hnb : no_backtick (w2 ++ t)).
  { apply Forall_app in Hcontent as [Hnw Hnt]. apply Forall_app. split; [|exact Hnt].
    assert (Hall : no_backtick (10%N :: w)) by (constructor; [discriminate | exact Hnw]).
    rewrite Hsplit in Hall. apply Forall_app in Hall as [_ Hall]. now inversion Hall. }
  exists (w2 ++ t). split.
  - assert (Hled : not_space_led (t ++ backticks ++ rest)).
    { destruct t as [|c t]; [reflexivity | exact Ht]. }
    assert (Hgroup :
              forall cap,
                Re.rmatch
                  (Re.Seq (Re.Lit [10%N])
                     (Re.Seq (Re.Group (Re.LazyStar (fun _ => true)))
                        (Re.Lit backticks)))
                  (10%N :: w2 ++ t ++ backticks ++ rest) cap
                  (fun s' cap' => Some (s', cap'))
                = Some (rest, w2 ++ t)).
    { intros cap. cbn [Re.rmatch]. cbn [startswith N.eqb Pos.eqb andb skipn length].
      rewrite (app_assoc w2 t). rewrite lazy_star_skips.
      - erewrite lazy_star_here; [reflexivity|].
        rewrite startswith_app, skipn_length_app.
        now rewrite firstn_length_app.
      - apply Forall_forall. reflexivity.
      - intros x s Hx. rewrite no_backtick_head; [reflexivity|].
        now apply (proj1 (Forall_forall _ _) Hnb). }
    assert (Hbody :
              forall cap,
                Re.rmatch
                  (Re.Seq (Re.Star isspace)
                     (Re.Seq (Re.Lit [10%N])
                        (Re.Seq (Re.Group (Re.LazyStar (fun _ => true)))
                           (Re.Lit backticks))))
                  ((10%N :: w) ++ t ++ backticks ++ rest) cap
                  (fun s' cap' => Some (s', cap'))
                = Some (rest, w2 ++ t)).
    { intros cap.
      change (Re.star isspace ((10%N :: w) ++ t ++ backticks ++ rest)
                (fun s' =>
                   Re.rmatch
                     (Re.Seq (Re.Lit [10%N])
                        (Re.Seq (Re.Group (Re.LazyStar (fun _ => true)))
                           (Re.Lit backticks)))
                     s' cap (fun s'' cap' => Some (s'', cap')))
              = Some (rest, w2 ++ t)).
      pose proof (@star_backtracks_to_last_newline _ (10%N :: w)
                    (t ++ backticks ++ rest)
                    (fun s' =>
                       Re.rmatch
                         (Re.Seq (Re.Lit [10%N])
                            (Re.Seq (Re.Group (Re.LazyStar (fun _ => true)))
                               (Re.Lit backticks)))
                         s' cap (fun s'' cap' => Some (s'', cap')))
                    Hw' Hled) as Hstar.
      rewrite Hw2 in Hstar. cbv beta in Hstar.
      etransitivity; [apply Hstar | apply Hgroup].
      - intros s Hs. cbn [Re.rmatch]. now rewrite Hs.
      - rewrite Hgroup. discriminate. }
    unfold Re.match_here, fence_pattern, fenced.
    cbn [Re.rmatch] in Hbody |- *.
    rewrite <- !app_assoc. rewrite startswith_app, skipn_length_app.
    destruct Htag as [-> | ->].
    + cbn [app] in Hbody |- *.
      replace (startswith (lit "json") (10%N :: w ++ t ++ backticks ++ rest))
        with false by reflexivity.
      exact (Hbody []).
    + rewrite startswith_app, skipn_length_app.
      match goal with
      | |- context [Re.star ?c ?s ?k] =>
          replace (Re.star c s k) with (Some (rest, w2 ++ t))
            by (symmetry; exact (Hbody []))
      end.
      reflexivity.
  - unfold strip. f_equal.
    rewrite (@lstrip_all_space w2 t Hw2s Ht). now rewrite (@lstrip_all_space w t Hw Ht).
Qed.

Lemma findall_from_skip (r : Re.regex) (covered rest : str) :
  Re.findall_from r (length covered) (covered ++ rest) = Re.findall_from r 0 rest.
Proof. induction covered as [|c covered IH]; [reflexivity | exact IH]. Qed.

Lemma findall_from_match (r : Re.regex) (matched rest cap : str) :
  matched <> [] ->
  Re.match_here r (matched ++ rest) = Some (rest, cap) ->
  Re.findall_from r 0 (matched ++ rest) = cap :: Re.findall_from r 0 rest.
Proof.
  intros Hne Hm. destruct matched as [|c matched]; [congruence|].
  cbn [app Re.findall_from] in *. rewrite Hm. f_equal.
  replace (length (c :: matched ++ rest) - length rest - 1)%nat with (length matched)
    by (cbn [length]; rewrite length_app; lia).
  apply findall_from_skip.
Qed.

Lemma findall_from_no_backtick (prose rest : str) :
  no_backtick prose ->
  Re.findall_from fence_pattern 0 (prose ++ rest)
  = Re.findall_from fence_pattern 0 rest.
Proof.
  induction 1 as [|c prose Hc _ IH]; [reflexivity|].
  cbn [app Re.findall_from].
  match goal with
  | |- context [Re.match_here ?r ?s] => assert (Hnone : Re.match_here r s = None)
  end.
  { unfold Re.match_here, fence_pattern. cbn [Re.rmatch].
    now rewrite no_backtick_head. }
  rewrite Hnone. exact IH.
Qed.

(** In a text made of prose and two fenced blocks, the pattern finds the
    two blocks, in order; each group is the block's content, short of
    leading white space. *)
Lemma findall_two_fenced (before between after tag1 tag2 content1 content2 : str) :
  json_tag tag1 -> json_tag tag2 ->
  no_backtick before -> no_backtick between -> no_backtick after ->
  no_backtick content1 -> no_backtick content2 ->
  exists cap1 cap2,
    Re.findall fence_pattern
      (before ++ fenced tag1 content1 ++ between ++ fenced tag2 content2 ++ after)
    = [cap1; cap2]
    /\ strip cap1 = strip content1
    /\ strip cap2 = strip content2.
Proof.
  intros Ht1 Ht2 Hb Hm Ha Hc1 Hc2. unfold Re.findall.
  destruct (@match_here_fenced tag1 content1
              (between ++ fenced tag2 content2 ++ after) Ht1 Hc1)
    as (cap1 & Hm1 & Hs1).
  destruct (@match_here_fenced tag2 content2 after Ht2 Hc2) as (cap2 & Hm2 & Hs2).
  exists cap1, cap2. split; [|now split].
  rewrite findall_from_no_backtick by exact Hb.
  rewrite (@findall_from_match fence_pattern (fenced tag1 content1) _ cap1);
    [|unfold fenced, backticks; discriminate | exact Hm1].
  rewrite findall_from_no_backtick by exact Hm.
  rewrite (@findall_from_match fence_pattern (fenced tag2 content2) _ cap2);
    [|unfold fenced, backticks; discriminate | exact Hm2].
  rewrite <- (app_nil_r after). rewrite findall_from_no_backtick by exact Ha.
  reflexivity.
Qed.

Lemma lstrip_app (a m : str) :
  not_space_led m -> m <> [] -> lstrip (a ++ m) = lstrip a ++ m.
Proof.
  intros Hled Hne. induction a as [|c a IH].
  - destruct m as [|x m]; [congruence|]. cbn in *. now rewrite Hled.
  - cbn. destruct (isspace c); [exact IH | reflexivity].
Qed.

Lemma lstrip_no_backtick (s : str) : no_backtick s -> no_backtick (lstrip s).
Proof.
  induction 1 as [|c s Hc Hs IH]; cbn; [constructor|].
  destruct (isspace c); [exact IH | now constructor].
Qed.

Lemma rstrip_no_backtick (s : str) : no_backtick s -> no_backtick (rstrip s).
Proof.
  intros H. unfold rstrip. apply Forall_rev, lstrip_no_backtick, Forall_rev, H.
Qed.

Lemma rstrip_app (p c : str) :
  not_space_led (rev p) -> p <> [] -> rstrip (p ++ c) = p ++ rstrip c.
Proof.
  intros Hled Hne. unfold rstrip. rewrite rev_app_distr.
  rewrite lstrip_app; [| exact Hled |].
  - now rewrite rev_app_distr, rev_involutive.
  - intros E. apply Hne. apply (f_equal (@rev char)) in E.
    now rewrite rev_involutive in E.
Qed.

(** Trimming a text that has a fenced block in it trims the prose
    around the blocks only. *)
Lemma strip_around (a m c : str) :
  strip (a ++ (backticks ++ m ++ backticks) ++ c)
  = lstrip a ++ (backticks ++ m ++ backticks) ++ rstrip c.
Proof.
  unfold strip. rewrite <- app_assoc.
  rewrite lstrip_app; [|reflexivity|discriminate].
  rewrite !app_assoc. rewrite rstrip_app; [reflexivity| |].
  - rewrite !rev_app_distr. reflexivity.
  - intros E. apply (f_equal (@length char)) in E.
    rewrite !length_app in E. cbn in E. lia.
Qed.

(** ** Response parser: claims C2, C4 *)

(** C2.  The claim says that what the parser returns is always a mapping.
    On the reply [[1]] the whole-text attempt succeeds and the parser
    returns the decoded list: a JSON array is not a mapping. *)
Theorem C2_parse_returns_a_list :
  parse_gemini_response (lit "[1]") = Ok (VList [VInt 1])
  /\ ~ is_mapping (VList [VInt 1]).
Proof. split; [vm_compute; reflexivity | intros H; exact H]. Qed.

(** What the parser does with the fenced blocks the pattern finds in
    the trimmed text: a block that decodes is returned when every block
    after it is malformed. *)
Lemma parse_fenced_blocks
      (response_text : str) (earlier later : list str) (block : str) (v : value) :
  Re.findall fence_pattern (strip response_text) = earlier ++ block :: later ->
  Json.loads (strip block) = Ok v ->
  Forall (fun b => malformed (strip b)) later ->
  parse_gemini_response response_text = Ok v.
Proof.
  intros Hblocks Hv Hlater.
  rewrite parse_gemini_response_attempts. unfold attempts. rewrite Hblocks.
  rewrite rev_app_distr. simpl. rewrite <- !app_assoc, !map_app. simpl.
  rewrite <- !app_assoc. simpl.
  apply first_decoded_hit; [|exact Hv].
  apply Forall_forall. intros c Hc.
  apply in_map_iff in Hc as [b [<- Hb]]. apply in_rev in Hb.
  now apply (proj1 (Forall_forall _ _) Hlater).
Qed.

(** In a reply made of prose and two fenced blocks, the blocks the
    pattern finds are the two contents. *)
Lemma strip_two_fenced (before between after tag1 tag2 content1 content2 : str) :
  json_tag tag1 -> json_tag tag2 ->
  no_backtick before -> no_backtick between -> no_backtick after ->
  no_backtick content1 -> no_backtick content2 ->
  exists cap1 cap2,
    Re.findall fence_pattern
      (strip (before ++ fenced tag1 content1 ++ between
              ++ fenced tag2 content2 ++ after))
    = [cap1; cap2]
    /\ strip cap1 = strip content1 /\ strip cap2 = strip content2.
Proof.
  intros Ht1 Ht2 Hb Hm Ha Hc1 Hc2.
  destruct (@findall_two_fenced (lstrip before) between (rstrip after)
              tag1 tag2 content1 content2 Ht1 Ht2
              (lstrip_no_backtick Hb) Hm (rstrip_no_backtick Ha) Hc1 Hc2)
    as (cap1 & cap2 & Hfind & Hcap1 & Hcap2).
  exists cap1, cap2. split; [|now split].
  replace (before ++ fenced tag1 content1 ++ between ++ fenced tag2 content2 ++ after)
    with (before
          ++ (backticks
              ++ (tag1 ++ [10%N] ++ content1 ++ backticks ++ between
                  ++ backticks ++ tag2 ++ [10%N] ++ content2)
              ++ backticks)
          ++ after)
    by (unfold fenced; now rewrite <- !app_assoc).
  rewrite strip_around.
  replace (lstrip before
           ++ (backticks
               ++ (tag1 ++ [10%N] ++ content1 ++ backticks ++ between
                   ++ backticks ++ tag2 ++ [10%N] ++ content2)
               ++ backticks)
           ++ rstrip after)
    with (lstrip before ++ fenced tag1 content1 ++ between
          ++ fenced tag2 content2 ++ rstrip after)
    by (unfold fenced; now rewrite <- !app_assoc).
  exact Hfind.
Qed.

(** C4.  The claim says that the blocks are tried from the last to the
    first and that the content of the first one that decodes is
    returned.  The loop goes on to the next block only when the decoder
    raises [JSONDecodeError].  In the reply [oversized_second_block] the
    pattern finds two blocks; the first decodes to a mapping; the
    second, which is tried first, is no JSON, but it begins with an
    integer of 4301 digits, on which the decoder raises [ValueError].
    The handler does not catch it, and the parser raises it instead of
    returning the content of the first block. *)
Theorem C4_undecodable_block_ends_the_scan :
  Re.findall fence_pattern (strip oversized_second_block) = [first_block; second_block]
  /\ Json.loads (strip first_block) = Ok (VDict [(lit "category", VStr (lit "first"))])
  /\ ~ decodes (strip second_block)
  /\ parse_gemini_response oversized_second_block = Raise ValueError.
Proof.
  assert (H2 : Json.loads (strip second_block) = Raise ValueError)
    by (vm_compute; reflexivity).
  split; [vm_compute; reflexivity|].
  split; [vm_compute; reflexivity|].
  split; [intros [v Hv]; rewrite H2 in Hv; discriminate Hv|].
  vm_compute. reflexivity.
Qed.

Lemma no_backtick_check (s : str) :
  forallb (fun c => negb (c =? 96)%N) s = true -> no_backtick s.
Proof.
  unfold no_backtick. rewrite forallb_forall, Forall_forall.
  intros H c Hc E. specialize (H c Hc). subst c. discriminate H.
Qed.

(** ** Orchestrator: claims C1, C6, C7 *)

(** C1.  The claim says that [classify_email] hands back a well-formed
    result whatever text the backend replies.  It does not: on the reply
    [[1]] the parser returns a list, and [parsed.get] raises
    [AttributeError], which nothing catches; on a reply whose
    [recommended_department] is a number the matcher raises [TypeError]
    out of [classify_email]; and a reply whose [category] is a number is
    stored as it is, so that a field documented as text holds an
    integer. *)
Theorem C1_classify_email_can_raise
        (model_name : str) (email : EmailInput) (researcher_db : Directory)
        (dept_summary : str) (w : world) :
  fst (classify_email (fun _ => Text (lit "[1]"))
         model_name email researcher_db dept_summary w)
  = Raise AttributeError
  /\ fst (classify_email (fun _ => Text (lit_q "{'recommended_department': 5}"))
            model_name email one_record_directory dept_summary w)
     = Raise TypeError
  /\ exists r,
      fst (classify_email (fun _ => Text (lit_q "{'category': 5}"))
             model_name email [] dept_summary w) = Ok r
      /\ category r = VInt 5.
Proof.
  unfold classify_email, bind, generate_content, lift, ret.
  cbv beta iota.
  split; [|split].
  - replace (parse_gemini_response (lit "[1]")) with (Ok (VList [VInt 1]))
      by (vm_compute; reflexivity).
    reflexivity.
  - replace (parse_gemini_response (lit_q "{'recommended_department': 5}"))
      with (Ok (VDict [(lit "recommended_department", VInt 5)]))
      by (vm_compute; reflexivity).
    vm_compute. reflexivity.
  - replace (parse_gemini_response (lit_q "{'category': 5}"))
      with (Ok (VDict [(lit "category", VInt 5)]))
      by (vm_compute; reflexivity).
    eexists. split; [vm_compute; reflexivity | reflexivity].
Qed.

(** C6.  When the reply parses to a non-empty mapping, every structured
    field of the result is the mapping's value under the key, or the
    field's default when the key is missing: [기타] for the category,
    [보통] for the urgency, the empty list for the key points and the
    suggested actions.  With an empty directory the matcher is not run
    and the result has no researchers; with a non-empty one the
    researchers are the matcher's answer for the parsed guesses, and only
    the matcher can make the call raise. *)
Theorem C6_fields_copied_with_defaults
        (client : Client) (model_name : str) (email : EmailInput)
        (researcher_db : Directory) (dept_summary : str) (w : world)
        (text : str) (d : dict) :
  client (classify_request model_name
            (build_classification_prompt email dept_summary)) = Text text ->
  parse_gemini_response text = Ok (VDict d) ->
  d <> [] ->
  let matcher :=
    find_matching_researchers researcher_db
      (field_or d (lit "recommended_department") (VStr []))
      (field_or d (lit "recommended_lab") (VStr []))
      (field_or d (lit "recommended_team") (VStr [])) 5 in
  match fst (classify_email client model_name email researcher_db dept_summary w) with
  | Ok r =>
      category r = field_or d (lit "category") (VStr (lit "기타"))
      /\ category_description r = field_or d (lit "category_description") (VStr [])
      /\ urgency r = field_or d (lit "urgency") (VStr (lit "보통"))
      /\ urgency_reason r = field_or d (lit "urgency_reason") (VStr [])
      /\ summary r = field_or d (lit "summary") (VStr [])
      /\ key_points r = field_or d (lit "key_points") (VList [])
      /\ recommended_department r = field_or d (lit "recommended_department") (VStr [])
      /\ recommended_lab r = field_or d (lit "recommended_lab") (VStr [])
      /\ recommended_team r = field_or d (lit "recommended_team") (VStr [])
      /\ suggested_actions r = field_or d (lit "suggested_actions") (VList [])
      /\ raw_response r = text
      /\ (researcher_db = [] -> recommended_researchers r = [])
      /\ (researcher_db <> [] -> matcher = Ok (recommended_researchers r))
  | Raise e => researcher_db <> [] /\ matcher = Raise e
  end.
Proof.
  intros Hreply Hparsed Hd matcher.
  unfold classify_email, bind, generate_content, lift, ret. cbn [fst snd].
  rewrite Hreply, Hparsed.
  destruct d as [|kv d']; [congruence|].
  cbn [Py.truthy negb Py.get].
  fold (field_or (kv :: d') (lit "recommended_department") (VStr [])).
  fold (field_or (kv :: d') (lit "recommended_lab") (VStr [])).
  fold (field_or (kv :: d') (lit "recommended_team") (VStr [])).
  destruct researcher_db as [|item rest].
  - cbn. repeat split; try reflexivity; congruence.
  - fold matcher. destruct matcher as [l|e] eqn:E; cbn.
    + repeat split; try reflexivity; congruence.
    + split; [congruence | reflexivity].
Qed.

Lemma C6_shipment_hold_witness :
  exists r,
    fst (classify_email (fun _ => Text quality_issue_reply) (lit "gemini-2.0-flash")
           shipment_hold one_record_directory [] empty_world) = Ok r
    /\ category r = VStr (lit "품질_이슈")
    /\ urgency r = VStr (lit "긴급")
    /\ key_points r = VList []
    /\ suggested_actions r = VList [].
Proof.
  pose proof (@C6_fields_copied_with_defaults
                (fun _ => Text quality_issue_reply) (lit "gemini-2.0-flash")
                shipment_hold one_record_directory [] empty_world
                quality_issue_reply
                [ (lit "category", VStr (lit "품질_이슈"));
                  (lit "urgency", VStr (lit "긴급"));
                  (lit "summary", VStr (lit "..."));
                  (lit "recommended_department", VStr (lit "Lab X")) ]
                eq_refl) as H.
  assert (Hparse : parse_gemini_response quality_issue_reply
                   = Ok (VDict [ (lit "category", VStr (lit "품질_이슈"));
                                 (lit "urgency", VStr (lit "긴급"));
                                 (lit "summary", VStr (lit "..."));
                                 (lit "recommended_department", VStr (lit "Lab X")) ]))
    by (vm_compute; reflexivity).
  specialize (H Hparse ltac:(discriminate)). cbv zeta in H.
  destruct (fst (classify_email _ _ _ _ _ _)) as [r|e].
  - exists r. destruct H as (Hc & _ & Hu & _ & _ & Hk & _ & _ & _ & Ha & _).
    repeat split; assumption.
  - destruct H as [_ H]. vm_compute in H. discriminate H.
Defined.

Lemma decodesb_false (s : str) : decodesb s = false -> ~ decodes s.
Proof. unfold decodesb. intros H [v E]. rewrite E in H. discriminate. Qed.

Lemma recovers_nothing_check (response_text : str) :
  forallb (fun c => negb (decodesb c)) (attempts response_text) = true ->
  recovers_nothing response_text.
Proof.
  unfold recovers_nothing. rewrite forallb_forall, Forall_forall.
  intros H c Hc. apply decodesb_false. specialize (H c Hc).
  now destruct (decodesb c).
Qed.

(** Whatever falsy value the parser returns, [classify_email] prints
    its warning and returns the parse-failure result at once. *)
Lemma classify_email_parse_failed
      (client : Client) (model_name : str) (email : EmailInput)
      (researcher_db : Directory) (dept_summary : str) (w : world)
      (text : str) (parsed : value) :
  client (classify_request model_name
            (build_classification_prompt email dept_summary)) = Text text ->
  parse_gemini_response text = Ok parsed ->
  Py.truthy parsed = false ->
  fst (classify_email client model_name email researcher_db dept_summary w)
  = Ok (parse_failed text).
Proof.
  intros Hreply Hparse Hfalsy.
  unfold classify_email, bind, generate_content, lift, ret. cbn [fst snd].
  rewrite Hreply, Hparse, Hfalsy. reflexivity.
Qed.

(** A backend call that raises ends in the backend-failure result, with
    the exception's text in the summary: the exception does not leave
    [classify_email]. *)
Lemma classify_email_backend_failed
      (client : Client) (model_name : str) (email : EmailInput)
      (researcher_db : Directory) (dept_summary : str) (w : world) (e : str) :
  client (classify_request model_name
            (build_classification_prompt email dept_summary)) = Failure e ->
  fst (classify_email client model_name email researcher_db dept_summary w)
  = Ok (backend_failed e)
  /\ summary (backend_failed e) = VStr (lit "분류 실패: " ++ e).
Proof.
  intros Hreply.
  unfold classify_email, bind, generate_content, lift, ret. cbn [fst snd].
  rewrite Hreply. split; reflexivity.
Qed.

(** C7.  The claim says that on a reply from which the parser recovers
    nothing the parser returns the empty mapping, and [classify_email]
    the result of a failed parse.  The reply [oversized_reply], an
    integer of 4301 digits and a word, is no JSON: none of the attempts
    of the parser decodes.  But the decoder raises [ValueError] on it,
    not [JSONDecodeError]; the handlers of the parser do not catch it,
    and it leaves the parser and then [classify_email], which calls the
    parser outside its [try] block. *)
Theorem C7_unparseable_reply_can_raise
        (model_name : str) (email : EmailInput) (researcher_db : Directory)
        (dept_summary : str) (w : world) :
  recovers_nothing oversized_reply
  /\ parse_gemini_response oversized_reply = Raise ValueError
  /\ fst (classify_email (fun _ => Text oversized_reply)
            model_name email researcher_db dept_summary w)
     = Raise ValueError.
Proof.
  assert (Hparse : parse_gemini_response oversized_reply = Raise ValueError)
    by (vm_compute; reflexivity).
  split; [apply recovers_nothing_check; vm_compute; reflexivity|].
  split; [exact Hparse|].
  unfold classify_email, bind, generate_content, lift, ret. cbv beta iota.
  rewrite Hparse. reflexivity.
Qed.

(** ** Backend selector: claim C8 *)





(** ** Prompt builder: claim C9 *)

(** C9.  The prompt is a function of the four fields of the mail and of
    the department summary: two invocations on identical inputs produce
    the same sequence of code points. *)
Theorem C9_prompt_deterministic
        (email1 email2 : EmailInput) (dept_summary1 dept_summary2 : str) :
  subject email1 = subject email2 ->
  body email1 = body email2 ->
  sender email1 = sender email2 ->
  date email1 = date email2 ->
  dept_summary1 = dept_summary2 ->
  build_classification_prompt email1 dept_summary1
  = build_classification_prompt email2 dept_summary2.
Proof.
  destruct email1, email2. cbn [subject body sender date].
  intros -> -> -> -> ->. reflexivity.
Qed.

Lemma C9_shipment_hold_witness :
  build_classification_prompt shipment_hold (lit "- Lab X: Formulation")
  = build_classification_prompt
      {| subject := lit "[Urgent] Shipment hold";
         body := lit "SPF measured 38 vs labeled 50+";
         sender := lit "";
         date := lit "" |}
      (lit "- Lab X: " ++ lit "Formulation").
Proof.
  apply C9_prompt_deterministic; reflexivity.
Defined.

(** ** Matcher: lists, sorting, slicing *)

Lemma slice_to_firstn {A} (limit : Z) (l : list A) :
  0 <= limit -> slice_to limit l = firstn (Z.to_nat limit) l.
Proof.
  intros H. unfold slice_to, slice, clamp. cbn [skipn].
  destruct (0 <? 0) eqn:E0; [discriminate|].
  destruct (limit <? 0) eqn:E; [apply Z.ltb_lt in E; lia|].
  rewrite (Z.min_l 0) by lia. rewrite Z.sub_0_r. cbn [Z.to_nat skipn].
  destruct (Z.le_ge_cases limit (Z.of_nat (length l))) as [Hle|Hge].
  - now rewrite Z.min_l by lia.
  - rewrite Z.min_r by lia. rewrite Nat2Z.id.
    rewrite firstn_all. symmetry. apply firstn_all2. lia.
Qed.

Lemma In_firstn {A} (n : nat) (l : list A) (x : A) :
  In x (firstn n l) -> In x l.
Proof.
  revert l; induction n as [|n IH]; intros [|y l]; cbn; try tauto.
  intros [H|H]; [now left | right; now apply IH].
Qed.

Lemma In_skipn {A} (n : nat) (l : list A) (x : A) :
  In x (skipn n l) -> In x l.
Proof.
  revert l; induction n as [|n IH]; intros [|y l]; cbn; try tauto.
  intros H. right. now apply IH.
Qed.

Lemma slice_to_incl {A} (limit : Z) (l : list A) (x : A) :
  In x (slice_to limit l) -> In x l.
Proof.
  unfold slice_to, slice. intros H. apply In_firstn in H.
  now apply In_skipn in H.
Qed.

Lemma insert_desc_perm (x : dict) (l : list dict) :
  Permutation (insert_desc x l) (x :: l).
Proof.
  induction l as [|y r IH]; cbn; [reflexivity|].
  destruct (match_score x <? match_score y); [|reflexivity].
  rewrite IH. apply perm_swap.
Qed.

Lemma sort_desc_perm (l : list dict) : Permutation (sort_desc l) l.
Proof.
  induction l as [|x l IH]; cbn; [reflexivity|].
  rewrite insert_desc_perm. now constructor.
Qed.

Lemma insert_desc_descending (x : dict) (l : list dict) :
  descending l -> descending (insert_desc x l).
Proof.
  unfold descending. induction 1 as [|y r Hr IH Hy]; cbn.
  - constructor; constructor.
  - destruct (match_score x <? match_score y) eqn:E.
    + apply Z.ltb_lt in E. constructor; [exact IH|].
      apply Forall_forall. intros z Hz.
      apply (Permutation_in _ (insert_desc_perm x r)) in Hz.
      destruct Hz as [<- | Hz]; [lia|].
      now apply (proj1 (Forall_forall _ _) Hy).
    + apply Z.ltb_ge in E. constructor; [now constructor|].
      constructor; [exact E|].
      apply Forall_forall. intros z Hz.
      pose proof (proj1 (Forall_forall _ _) Hy z Hz) as Hzy. cbv beta in Hzy. lia.
Qed.

Lemma sort_desc_descending (l : list dict) : descending (sort_desc l).
Proof.
  induction l as [|x l IH]; cbn; [constructor | now apply insert_desc_descending].
Qed.

(** Stability: the entries with a given score keep their order. *)
Lemma insert_desc_stable (s : Z) (x : dict) (l : list dict) :
  filter (fun e => match_score e =? s) (insert_desc x l)
  = filter (fun e => match_score e =? s) (x :: l).
Proof.
  induction l as [|y r IH]; [reflexivity|].
  cbn [insert_desc]. destruct (match_score x <? match_score y) eqn:E; [|reflexivity].
  apply Z.ltb_lt in E. cbn [filter] in *. rewrite IH.
  destruct (match_score x =? s) eqn:Ex, (match_score y =? s) eqn:Ey;
    try reflexivity.
  apply Z.eqb_eq in Ex, Ey. lia.
Qed.

Lemma sort_desc_stable (s : Z) (l : list dict) :
  filter (fun e => match_score e =? s) (sort_desc l)
  = filter (fun e => match_score e =? s) l.
Proof.
  induction l as [|x l IH]; [reflexivity|].
  cbn [sort_desc fold_right]. fold (sort_desc l).
  rewrite insert_desc_stable. cbn [filter]. now rewrite IH.
Qed.

Lemma descending_firstn (n : nat) (l : list dict) :
  descending l -> descending (firstn n l).
Proof.
  unfold descending. intros H. revert n.
  induction H as [|y r Hr IH Hy]; intros [|n]; cbn; try constructor.
  - apply IH.
  - apply Forall_forall. intros z Hz. apply In_firstn in Hz.
    now apply (proj1 (Forall_forall _ _) Hy).
Qed.

Lemma Forall2_filter {A B} (R : A -> B -> Prop) (p : A -> bool) (q : B -> bool)
      (l1 : list A) (l2 : list B) :
  Forall2 R l1 l2 ->
  (forall x y, R x y -> p x = q y) ->
  Forall2 R (filter p l1) (filter q l2).
Proof.
  intros H Hpq. induction H as [|x y l1 l2 Hxy _ IH]; cbn; [constructor|].
  rewrite (Hpq _ _ Hxy). destruct (q y); [constructor|]; assumption.
Qed.

Lemma Forall2_In_r {A B} (R : A -> B -> Prop) (l1 : list A) (l2 : list B) :
  Forall2 R l1 l2 -> forall y, In y l2 -> exists x, In x l1 /\ R x y.
Proof.
  induction 1 as [|x y l1 l2 Hxy _ IH]; cbn; [tauto|].
  intros z [<- | Hz].
  - exists x. now split; [left|].
  - destruct (IH z Hz) as [x' [Hx' Hr]]. exists x'. now split; [right|].
Qed.

Lemma filter_filter {A} (p q : A -> bool) (l : list A) :
  filter p (filter q l) = filter (fun x => q x && p x) l.
Proof.
  induction l as [|x l IH]; cbn; [reflexivity|].
  destruct (q x); cbn; [destruct (p x)|]; now rewrite IH.
Qed.

(** ** Matcher: the loop over the directory *)

Lemma signal_spec (guess field : str) :
  signal guess field = true <-> guess_matches guess field.
Proof.
  unfold signal, guess_matches, substring. destruct guess as [|c g].
  - split; [discriminate | intros [H _]; congruence].
  - rewrite contains_spec. split; [intros H; split; [discriminate | exact H] | tauto].
Qed.

Lemma guess_in_field_str (g field : str) :
  guess_in_field (VStr g) field = Ok (signal g field).
Proof.
  unfold guess_in_field, signal. destruct g as [|c g]; cbn; [reflexivity|].
  destruct field; reflexivity.
Qed.

Lemma score_record_str (d l t : str) (info : StaffRecord) :
  score_record (VStr d) (VStr l) (VStr t) info = Ok (directory_score d l t info).
Proof.
  unfold score_record, directory_score. rewrite !guess_in_field_str. cbn.
  destruct (signal d _), (signal l _), (signal t _); reflexivity.
Qed.

Lemma guess_in_field_raises (guess : value) (field : str) (e : exn) :
  guess_in_field guess field = Raise e -> e = TypeError.
Proof.
  unfold guess_in_field. destruct (negb _); [discriminate|].
  destruct field; [discriminate|]. destruct guess; congruence.
Qed.

Lemma score_record_raises (department lab team : value) (info : StaffRecord) (e : exn) :
  score_record department lab team info = Raise e -> e = TypeError.
Proof.
  unfold score_record, rbind.
  destruct (guess_in_field department _) eqn:E1;
    [|intros [= <-]; now apply guess_in_field_raises in E1].
  destruct (guess_in_field lab _) eqn:E2;
    [|intros [= <-]; now apply guess_in_field_raises in E2].
  destruct (guess_in_field team _) eqn:E3;
    [discriminate|intros [= <-]; now apply guess_in_field_raises in E3].
Qed.

Lemma score_record_range (department lab team : value) (info : StaffRecord) (s : Z) :
  score_record department lab team info = Ok s -> 0 <= s <= 6.
Proof.
  unfold score_record, rbind.
  destruct (guess_in_field department _) as [b1|]; [|discriminate].
  destruct (guess_in_field lab _) as [b2|]; [|discriminate].
  destruct (guess_in_field team _) as [b3|]; [|discriminate].
  intros [= <-]. destruct b1, b2, b3; lia.
Qed.

Lemma collect_candidates_ok (department lab team : value) (items : Directory) :
  forall acc res,
    collect_candidates items department lab team acc = Ok res ->
    exists new,
      res = acc ++ new
      /\ Forall2 (is_candidate department lab team)
           (filter (scoring department lab team) items) new.
Proof.
  induction items as [|[code info] rest IH]; intros acc res; cbn [collect_candidates].
  - intros [= <-]. exists []. split; [now rewrite app_nil_r | constructor].
  - unfold rbind. cbn [filter]. unfold scoring at 1. cbn [snd].
    destruct (score_record department lab team info) as [s|e] eqn:Es; [|discriminate].
    replace (s >? 0) with (0 <? s) by (rewrite Z.gtb_ltb; reflexivity).
    destruct (0 <? s) eqn:Epos.
    + destruct (candidate code info s) as [c|e] eqn:Ec; [|discriminate].
      intros H. apply IH in H as [new [-> Hnew]].
      exists (c :: new). split; [now rewrite <- app_assoc|].
      constructor; [|exact Hnew]. exists s. now split.
    + apply IH.
Qed.

Lemma collect_candidates_raises (department lab team : value) (items : Directory) :
  forall acc e,
    collect_candidates items department lab team acc = Raise e ->
    (exists code info,
        In (code, info) items /\ score_record department lab team info = Raise e)
    \/ (e = KeyError (lit "name")
        /\ exists code info s,
            In (code, info) items
            /\ score_record department lab team info = Ok s
            /\ 0 < s
            /\ sr_name info = None).
Proof.
  induction items as [|[code info] rest IH]; intros acc e; cbn [collect_candidates].
  - discriminate.
  - unfold rbind. intros H.
    assert (Hrest : forall acc',
               collect_candidates rest department lab team acc' = Raise e ->
               (exists code0 info0,
                   In (code0, info0) ((code, info) :: rest)
                   /\ score_record department lab team info0 = Raise e)
               \/ (e = KeyError (lit "name")
                   /\ exists code0 info0 s0,
                       In (code0, info0) ((code, info) :: rest)
                       /\ score_record department lab team info0 = Ok s0
                       /\ 0 < s0
                       /\ sr_name info0 = None)).
    { intros acc' H'. destruct (IH _ _ H') as [(c0 & i0 & Hin & Hs) | (-> & c0 & i0 & s0 & Hin & Hs)].
      - left. exists c0, i0. split; [now right | exact Hs].
      - right. split; [reflexivity|]. exists c0, i0, s0. split; [now right | exact Hs]. }
    destruct (score_record department lab team info) as [s|e'] eqn:Es.
    + destruct (s >? 0) eqn:Epos.
      * unfold candidate at 1 in H. destruct (sr_name info) eqn:En.
        -- now apply Hrest in H.
        -- injection H as <-. right. split; [reflexivity|].
           exists code, info, s. rewrite Z.gtb_ltb in Epos. apply Z.ltb_lt in Epos.
           repeat split; try assumption. now left.
      * now apply Hrest in H.
    + injection H as <-. left. exists code, info. split; [now left | exact Es].
Qed.

Lemma is_candidate_in (department lab team : value) (items : Directory) (new : list dict) :
  Forall2 (is_candidate department lab team)
    (filter (scoring department lab team) items) new ->
  forall c, In c new ->
    exists code info s,
      In (code, info) items
      /\ score_record department lab team info = Ok s
      /\ 0 < s
      /\ candidate code info s = Ok c.
Proof.
  intros H c Hc.
  destruct (Forall2_In_r H c Hc) as [[code info] [Hin [s [Hs Hcand]]]].
  apply filter_In in Hin as [Hin Hscoring].
  unfold scoring in Hscoring. cbn [fst snd] in *. rewrite Hs in Hscoring.
  apply Z.ltb_lt in Hscoring. now exists code, info, s.
Qed.

Lemma candidate_fields (code : str) (info : StaffRecord) (s : Z) (c : dict) :
  candidate code info s = Ok c ->
  exists name,
    sr_name info = Some name
    /\ map fst c = candidate_keys
    /\ Py.lookup (lit "code") c = Some (VStr code)
    /\ Py.lookup (lit "name") c = Some (VStr name)
    /\ Py.lookup (lit "department") c = Some (VStr (get_or (sr_department info) []))
    /\ Py.lookup (lit "lab") c = Some (VStr (get_or (sr_lab info) []))
    /\ Py.lookup (lit "team") c = Some (VStr (get_or (sr_team info) []))
    /\ Py.lookup (lit "position") c = Some (VStr (get_or (sr_position info) []))
    /\ Py.lookup (lit "email") c = Some (VStr (get_or (sr_email info) []))
    /\ Py.lookup (lit "email_verified") c
       = Some (VBool (get_or (sr_email_verified info) false))
    /\ Py.lookup (lit "match_score") c = Some (VInt s).
Proof.
  unfold candidate. destruct (sr_name info) as [name|]; [|discriminate].
  intros [= <-]. exists name. split; [reflexivity|].
  repeat split; vm_compute; reflexivity.
Qed.

Lemma candidate_match_score (code : str) (info : StaffRecord) (s : Z) (c : dict) :
  candidate code info s = Ok c -> match_score c = s.
Proof.
  intros H. apply candidate_fields in H as (name & _ & _ & _ & _ & _ & _ & _ & _ & _ & _ & H).
  unfold match_score. now rewrite H.
Qed.

Lemma find_matching_researchers_entries
      (researcher_db : Directory) (department lab team : value) (limit : Z)
      (res : list dict) :
  find_matching_researchers researcher_db department lab team limit = Ok res ->
  forall c, In c res ->
    exists code info s,
      In (code, info) researcher_db
      /\ score_record department lab team info = Ok s
      /\ 0 < s
      /\ candidate code info s = Ok c.
Proof.
  unfold find_matching_researchers, rbind.
  destruct (collect_candidates _ _ _ _ _) as [cands|e] eqn:E; [|discriminate].
  intros [= <-] c Hc. apply slice_to_incl in Hc.
  apply (Permutation_in _ (sort_desc_perm cands)) in Hc.
  apply collect_candidates_ok in E as [new [-> Hnew]]. cbn [app] in Hc.
  eapply is_candidate_in; eassumption.
Qed.

Lemma find_matching_researchers_raises_str
      (researcher_db : Directory) (d l t : str) (limit : Z) (e : exn) :
  find_matching_researchers researcher_db (VStr d) (VStr l) (VStr t) limit = Raise e ->
  e = KeyError (lit "name").
Proof.
  unfold find_matching_researchers, rbind.
  destruct (collect_candidates _ _ _ _ _) as [cands|e'] eqn:E; [discriminate|].
  intros [= <-].
  apply collect_candidates_raises in E as [(code & info & _ & Hs) | [-> _]].
  - rewrite score_record_str in Hs. discriminate.
  - reflexivity.
Qed.

(** ** Matcher: claims C3, C5, C10 *)

(** C3, as stated, fails: the record's department [Lab] is contained in
    the guess [Lab X], so the claimed rule gives the record 3 points, but
    the code tests only whether the guess is contained in the record's
    field, scores the record 0 and leaves it out. *)
Lemma C3_record_in_guess_counterexample :
  claimed_score (lit "Lab X") [] [] (staff (lit "Kim") (lit "Lab") [] []) = 3
  /\ find_matching_researchers
       [(lit "A1", staff (lit "Kim") (lit "Lab") [] [])]
       (VStr (lit "Lab X")) (VStr []) (VStr []) 5
     = Ok [].
Proof. split; vm_compute; reflexivity. Qed.

(** C3, amended.  Every entry the matcher returns stands for a directory
    record and carries as [match_score] the sum of three independent
    signals, 3 for the department, 2 for the lab, 1 for the team, where a
    signal fires exactly when the guess is non-empty and is contained
    (case-sensitively, as a substring) in the record's field; the sum is
    never 0.  With textual guesses the only way not to return is the
    [KeyError] of a scoring record without a name. *)
Theorem C3_guess_in_record_scoring
        (researcher_db : Directory) (d l t : str) (limit : Z) :
  match find_matching_researchers researcher_db (VStr d) (VStr l) (VStr t) limit with
  | Ok res =>
      Forall
        (fun e =>
           exists code info (in_dept in_lab in_team : bool),
             In (code, info) researcher_db
             /\ (in_dept = true <-> guess_matches d (get_or (sr_department info) []))
             /\ (in_lab = true <-> guess_matches l (get_or (sr_lab info) []))
             /\ (in_team = true <-> guess_matches t (get_or (sr_team info) []))
             /\ Py.lookup (lit "code") e = Some (VStr code)
             /\ Py.lookup (lit "match_score") e
                = Some (VInt ((if in_dept then 3 else 0)
                              + (if in_lab then 2 else 0)
                              + (if in_team then 1 else 0)))
             /\ 0 < (if in_dept then 3 else 0)
                    + (if in_lab then 2 else 0)
                    + (if in_team then 1 else 0))
        res
  | Raise e => e = KeyError (lit "name")
  end.
Proof.
  destruct (find_matching_researchers _ _ _ _ _) as [res|e] eqn:E.
  - apply Forall_forall. intros c Hc.
    destruct (find_matching_researchers_entries _ _ _ _ _ E _ Hc)
      as (code & info & s & Hin & Hs & Hpos & Hcand).
    rewrite score_record_str in Hs. injection Hs as <-.
    apply candidate_fields in Hcand
      as (name & _ & _ & Hcode & _ & _ & _ & _ & _ & _ & _ & Hscore).
    exists code, info,
      (signal d (get_or (sr_department info) [])),
      (signal l (get_or (sr_lab info) [])),
      (signal t (get_or (sr_team info) [])).
    split; [exact Hin|]. do 3 (split; [apply signal_spec|]).
    split; [exact Hcode|]. split; [exact Hscore | exact Hpos].
  - now apply find_matching_researchers_raises_str in E.
Qed.

(** C10.  Every entry the matcher returns has exactly the nine keys
    [code], [name], [department], [lab], [team], [position], [email],
    [email_verified], [match_score], in that order; its score lies
    between 1 and 6; [department], [lab], [team], [position] and [email]
    are the record's fields or the empty string when the record lacks
    them, and [email_verified] is [False] when the record lacks it.  The
    matcher fails to return only on a [TypeError] (a guess that is not
    text) or the [KeyError] of a scoring record without a name. *)
Theorem C10_entry_shape
        (researcher_db : Directory) (department lab team : value) (limit : Z) :
  match find_matching_researchers researcher_db department lab team limit with
  | Ok res =>
      Forall
        (fun e =>
           exists code info name score,
             In (code, info) researcher_db
             /\ sr_name info = Some name
             /\ 1 <= score <= 6
             /\ map fst e = candidate_keys
             /\ Py.lookup (lit "code") e = Some (VStr code)
             /\ Py.lookup (lit "name") e = Some (VStr name)
             /\ Py.lookup (lit "department") e
                = Some (VStr (match sr_department info with Some x => x | None => [] end))
             /\ Py.lookup (lit "lab") e
                = Some (VStr (match sr_lab info with Some x => x | None => [] end))
             /\ Py.lookup (lit "team") e
                = Some (VStr (match sr_team info with Some x => x | None => [] end))
             /\ Py.lookup (lit "position") e
                = Some (VStr (match sr_position info with Some x => x | None => [] end))
             /\ Py.lookup (lit "email") e
                = Some (VStr (match sr_email info with Some x => x | None => [] end))
             /\ Py.lookup (lit "email_verified") e
                = Some (VBool (match sr_email_verified info with
                               | Some b => b
                               | None => false
                               end))
             /\ Py.lookup (lit "match_score") e = Some (VInt score))
        res
  | Raise e => e = TypeError \/ e = KeyError (lit "name")
  end.
Proof.
  destruct (find_matching_researchers _ _ _ _ _) as [res|e] eqn:E.
  - apply Forall_forall. intros c Hc.
    destruct (find_matching_researchers_entries _ _ _ _ _ E _ Hc)
      as (code & info & s & Hin & Hs & Hpos & Hcand).
    apply score_record_range in Hs.
    apply candidate_fields in Hcand as (name & Hname & Hkeys & Hfields).
    exists code, info, name, s.
    split; [exact Hin|]. split; [exact Hname|]. split; [lia|].
    split; [exact Hkeys|]. exact Hfields.
  - unfold find_matching_researchers, rbind in E.
    destruct (collect_candidates _ _ _ _ _) as [cands|e'] eqn:Ec; [discriminate|].
    injection E as <-.
    apply collect_candidates_raises in Ec as [(code & info & _ & Hs) | [-> _]].
    + left. now apply score_record_raises in Hs.
    + now right.
Qed.

(** C5, as stated, fails twice.  Two records that tie are both returned,
    with equal scores, so the order is not strictly descending; and with
    the limit -1 the slice [candidates[:-1]] drops the last candidate
    only, so the result is longer than the limit. *)
Lemma C5_ties_and_negative_limit_counterexample :
  (exists e1 e2,
      find_matching_researchers tied_directory
        (VStr (lit "Lab X")) (VStr []) (VStr []) 5 = Ok [e1; e2]
      /\ match_score e1 = 3 /\ match_score e2 = 3)
  /\ (exists e1,
         find_matching_researchers tied_directory
           (VStr (lit "Lab X")) (VStr []) (VStr []) (-1) = Ok [e1]
         /\ ~ Z.of_nat (length [e1]) <= -1).
Proof.
  split.
  - eexists. eexists. split; [vm_compute; reflexivity|].
    split; vm_compute; reflexivity.
  - eexists. split; [vm_compute; reflexivity|]. cbn. lia.
Qed.

(** C5, amended.  For a limit that is not negative, the matcher returns
    at most [limit] entries, none when the directory is empty, ordered by
    descending score (equal scores may be adjacent); the result is the
    first [limit] entries of a ranking in which, for every score, the
    entries with that score are the directory's records with that score,
    all of them and in the directory's iteration order. *)
Theorem C5_ranked_prefix
        (researcher_db : Directory) (d l t : str) (limit : Z) :
  0 <= limit ->
  match find_matching_researchers researcher_db (VStr d) (VStr l) (VStr t) limit with
  | Ok res =>
      Z.of_nat (length res) <= limit
      /\ (researcher_db = [] -> res = [])
      /\ descending res
      /\ exists ranking,
          res = firstn (Z.to_nat limit) ranking
          /\ forall s, 0 < s ->
               Forall2
                 (fun item e => Py.lookup (lit "code") e = Some (VStr (fst item)))
                 (filter (fun item => directory_score d l t (snd item) =? s)
                    researcher_db)
                 (filter (fun e => match_score e =? s) ranking)
  | Raise e => e = KeyError (lit "name")
  end.
Proof.
  intros Hlimit.
  destruct (find_matching_researchers _ _ _ _ _) as [res|e] eqn:E;
    [|now apply find_matching_researchers_raises_str in E].
  unfold find_matching_researchers, rbind in E.
  destruct (collect_candidates _ _ _ _ _) as [cands|e] eqn:Ec; [|discriminate].
  injection E as <-. rewrite slice_to_firstn by exact Hlimit.
  apply collect_candidates_ok in Ec as [new [-> Hnew]]. cbn [app].
  split; [|split; [|split]].
  - pose proof (firstn_le_length (Z.to_nat limit) (sort_desc new)). lia.
  - intros ->. inversion Hnew. subst. now destruct (Z.to_nat limit).
  - apply descending_firstn, sort_desc_descending.
  - exists (sort_desc new). split; [reflexivity|].
    intros s Hs. rewrite sort_desc_stable.
    assert (Hscore : forall item c,
               is_candidate (VStr d) (VStr l) (VStr t) item c ->
               match_score c = directory_score d l t (snd item)
               /\ Py.lookup (lit "code") c = Some (VStr (fst item))).
    { intros item c (s' & Hs' & Hc). rewrite score_record_str in Hs'.
      injection Hs' as <-. split; [now apply candidate_match_score in Hc|].
      now apply candidate_fields in Hc as (name & _ & _ & Hcode & _). }
    assert (Hfilter :
              filter (fun item => directory_score d l t (snd item) =? s) researcher_db
              = filter (fun item => directory_score d l t (snd item) =? s)
                  (filter (scoring (VStr d) (VStr l) (VStr t)) researcher_db)).
    { rewrite filter_filter. apply filter_ext. intros item.
      unfold scoring. rewrite score_record_str.
      destruct (directory_score d l t (snd item) =? s) eqn:Eq;
        [|now rewrite andb_false_r].
      apply Z.eqb_eq in Eq. rewrite andb_true_r. symmetry. apply Z.ltb_lt. lia. }
    rewrite Hfilter.
    apply Forall2_impl with (R1 := is_candidate (VStr d) (VStr l) (VStr t)).
    + intros item c Hic. now apply Hscore.
    + apply Forall2_filter; [exact Hnew|].
      intros item c Hic. now rewrite (proj1 (Hscore _ _ Hic)).
Qed.

Lemma C5_tied_directory_witness :
  exists e1 e2,
    find_matching_researchers tied_directory
      (VStr (lit "Lab X")) (VStr (lit "Analysis")) (VStr []) 2 = Ok [e1; e2]
    /\ Py.lookup (lit "code") e1 = Some (VStr (lit "B2"))
    /\ Py.lookup (lit "code") e2 = Some (VStr (lit "A1"))
    /\ descending [e1; e2].
Proof.
  pose proof (@C5_ranked_prefix tied_directory (lit "Lab X") (lit "Analysis") [] 2
                ltac:(lia)) as H.
  destruct (find_matching_researchers _ _ _ _ _) as [res|e] eqn:E.
  - destruct H as (_ & _ & Hdesc & _).
    vm_compute in E. injection E as <-.
    eexists. eexists. split; [reflexivity|].
    split; [vm_compute; reflexivity|]. split; [vm_compute; reflexivity|].
    exact Hdesc.
  - vm_compute in E. discriminate E.
Defined.

(** * Further properties *)

(** ** Matcher: guesses that cannot raise, sizes, and what is left out *)

Lemma guess_in_field_falsy (guess : value) (field : str) :
  Py.truthy guess = false -> guess_in_field guess field = Ok false.
Proof. unfold guess_in_field. now intros ->. Qed.

Lemma score_record_falsy (department lab team : value) (info : StaffRecord) :
  Py.truthy department = false -> Py.truthy lab = false -> Py.truthy team = false ->
  score_record department lab team info = Ok 0.
Proof.
  intros H1 H2 H3. unfold score_record.
  now rewrite !guess_in_field_falsy by assumption.
Qed.

Lemma collect_candidates_falsy (department lab team : value) (items : Directory) :
  Py.truthy department = false -> Py.truthy lab = false -> Py.truthy team = false ->
  forall acc, collect_candidates items department lab team acc = Ok acc.
Proof.
  intros H1 H2 H3. induction items as [|[code info] rest IH]; intros acc; cbn.
  - reflexivity.
  - rewrite score_record_falsy by assumption. cbn. apply IH.
Qed.

Lemma slice_to_nil {A} (limit : Z) : slice_to limit (@nil A) = [].
Proof.
  unfold slice_to, slice. cbn [length skipn].
  now destruct (Z.to_nat _), (Z.to_nat _).
Qed.

(** X1.  When none of the three guesses is truthy (empty texts, [None],
    zero), the matcher returns the empty list for every directory and
    every limit: no field is tested, and the records need not even have
    a name. *)
Theorem matcher_without_guess
        (researcher_db : Directory) (department lab team : value) (limit : Z) :
  Py.truthy department = false -> Py.truthy lab = false -> Py.truthy team = false ->
  find_matching_researchers researcher_db department lab team limit = Ok [].
Proof.
  intros H1 H2 H3. unfold find_matching_researchers.
  rewrite collect_candidates_falsy by assumption. cbn. now rewrite slice_to_nil.
Qed.

Lemma matcher_without_guess_witness :
  find_matching_researchers tied_directory (VStr []) VNone (VInt 0) 5 = Ok [].
Proof. apply matcher_without_guess; reflexivity. Defined.

Lemma guess_in_field_safe (guess : value) (field : str) :
  safe_guess guess -> exists b, guess_in_field guess field = Ok b.
Proof.
  intros [[s ->] | H].
  - rewrite guess_in_field_str. eauto.
  - rewrite guess_in_field_falsy by exact H. eauto.
Qed.

Lemma score_record_safe (department lab team : value) (info : StaffRecord) :
  safe_guess department -> safe_guess lab -> safe_guess team ->
  exists s, score_record department lab team info = Ok s.
Proof.
  intros H1 H2 H3. unfold score_record.
  destruct (guess_in_field_safe (get_or (sr_department info) []) H1) as [b1 ->].
  destruct (guess_in_field_safe (get_or (sr_lab info) []) H2) as [b2 ->].
  destruct (guess_in_field_safe (get_or (sr_team info) []) H3) as [b3 ->].
  cbn. eauto.
Qed.

Lemma collect_candidates_named (department lab team : value) (items : Directory) :
  safe_guess department -> safe_guess lab -> safe_guess team ->
  all_named items ->
  forall acc, exists res, collect_candidates items department lab team acc = Ok res.
Proof.
  intros H1 H2 H3 Hnamed.
  induction Hnamed as [|[code info] rest Hname _ IH]; intros acc; cbn.
  - eauto.
  - destruct (score_record_safe info H1 H2 H3) as [s ->]. cbn.
    destruct (s >? 0); [|apply IH].
    unfold candidate. cbn [snd] in Hname.
    destruct (sr_name info) as [name|]; [|congruence]. cbn. apply IH.
Qed.

Lemma matcher_returns_for_safe_guesses
      (researcher_db : Directory) (department lab team : value) (limit : Z) :
  safe_guess department -> safe_guess lab -> safe_guess team ->
  all_named researcher_db ->
  exists res,
    find_matching_researchers researcher_db department lab team limit = Ok res.
Proof.
  intros H1 H2 H3 Hnamed. unfold find_matching_researchers.
  destruct (collect_candidates_named H1 H2 H3 Hnamed []) as [cands ->].
  cbn. eauto.
Qed.

(** X2.  On a directory whose records hold what [build_researcher_db]
    writes (texts under [department], [lab], [team], [name], [position]
    and [email], a boolean under [email_verified]), some keys possibly
    missing: the matcher returns, and raises nothing, whenever each
    guess is a text or falsy and every record has a name; and a scoring
    record without a name is the one thing that makes it raise on such
    guesses.  (A record that holds a number where a text belongs is not
    a [StaffRecord], and nothing is said of it.) *)
Theorem matcher_returns
        (researcher_db : Directory) (department lab team : value) (limit : Z) :
  safe_guess department -> safe_guess lab -> safe_guess team ->
  (all_named researcher_db ->
   exists res,
     find_matching_researchers researcher_db department lab team limit = Ok res)
  /\ (forall e,
         find_matching_researchers researcher_db department lab team limit = Raise e ->
         e = KeyError (lit "name")
         /\ exists code info s,
             In (code, info) researcher_db
             /\ score_record department lab team info = Ok s
             /\ 0 < s
             /\ sr_name info = None).
Proof.
  intros H1 H2 H3. split.
  - now apply matcher_returns_for_safe_guesses.
  - intros e He. unfold find_matching_researchers, rbind in He.
    destruct (collect_candidates _ _ _ _ _) as [cands|e'] eqn:E; [discriminate|].
    injection He as <-.
    apply collect_candidates_raises in E as [(code & info & _ & Hs) | H]; [|exact H].
    destruct (score_record_safe info H1 H2 H3) as [s Hs']. congruence.
Qed.

Lemma all_named_check (researcher_db : Directory) :
  forallb (fun item => match sr_name (snd item) with Some _ => true | None => false end)
    researcher_db = true ->
  all_named researcher_db.
Proof.
  unfold all_named. rewrite forallb_forall, Forall_forall.
  intros H item Hitem. specialize (H item Hitem).
  destruct (sr_name (snd item)); [discriminate | discriminate H].
Qed.

Lemma matcher_returns_witness :
  exists res,
    find_matching_researchers tied_directory
      (VStr (lit "Lab X")) VNone (VStr (lit "Analysis")) 3 = Ok res.
Proof.
  apply (@matcher_returns tied_directory
           (VStr (lit "Lab X")) VNone (VStr (lit "Analysis")) 3).
  - left. eauto.
  - right. reflexivity.
  - left. eauto.
  - apply all_named_check. reflexivity.
Defined.

Lemma slice_to_length {A} (limit : Z) (l : list A) :
  Z.of_nat (length (slice_to limit l))
  = if limit <? 0 then Z.max 0 (Z.of_nat (length l) + limit)
    else Z.min limit (Z.of_nat (length l)).
Proof.
  unfold slice_to, slice, clamp.
  replace (0 <? 0) with false by reflexivity.
  rewrite (Z.min_l 0) by lia. cbn [Z.to_nat skipn]. rewrite Z.sub_0_r.
  rewrite length_firstn.
  destruct (limit <? 0) eqn:E.
  - apply Z.ltb_lt in E. lia.
  - apply Z.ltb_ge in E. lia.
Qed.

Lemma Forall2_length_eq {A B} (R : A -> B -> Prop) (l1 : list A) (l2 : list B) :
  Forall2 R l1 l2 -> length l1 = length l2.
Proof. induction 1; cbn; congruence. Qed.

Lemma scoring_str (d l t : str) (item : str * StaffRecord) :
  scoring (VStr d) (VStr l) (VStr t) item = (0 <? directory_score d l t (snd item)).
Proof. unfold scoring. now rewrite score_record_str. Qed.

(** X3.  The number of entries the matcher returns for a textual guess:
    with [n] the number of directory records the guess gives points to,
    it is the smaller of [limit] and [n] when the limit is not negative,
    and [n + limit] (but not less than zero) when it is negative, the
    slice then dropping the last [-limit] candidates. *)
Theorem matcher_result_length
        (researcher_db : Directory) (d l t : str) (limit : Z) (res : list dict) :
  find_matching_researchers researcher_db (VStr d) (VStr l) (VStr t) limit = Ok res ->
  Z.of_nat (length res)
  = if limit <? 0
    then Z.max 0 (scoring_count d l t researcher_db + limit)
    else Z.min limit (scoring_count d l t researcher_db).
Proof.
  unfold find_matching_researchers, rbind.
  destruct (collect_candidates _ _ _ _ _) as [cands|e] eqn:E; [|discriminate].
  intros [= <-]. rewrite slice_to_length.
  apply collect_candidates_ok in E as [new [-> Hnew]]. cbn [app].
  rewrite (Permutation_length (sort_desc_perm new)).
  rewrite <- (Forall2_length_eq Hnew).
  unfold scoring_count.
  now rewrite (filter_ext _ _ (scoring_str d l t)).
Qed.

Lemma matcher_result_length_witness :
  exists res,
    find_matching_researchers tied_directory
      (VStr (lit "Lab X")) (VStr []) (VStr []) (-1) = Ok res
    /\ Z.of_nat (length res) = 1.
Proof.
  eexists. split; [vm_compute; reflexivity|].
  apply (@matcher_result_length tied_directory (lit "Lab X") [] [] (-1)).
  vm_compute. reflexivity.
Defined.

Lemma descending_app_le (l1 l2 : list dict) :
  descending (l1 ++ l2) ->
  forall a b, In a l1 -> In b l2 -> match_score b <= match_score a.
Proof.
  unfold descending. induction l1 as [|x l1 IH]; cbn; [tauto|].
  intros H a b [<- | Ha] Hb.
  - inversion H as [|? ? _ Hall]. subst.
    apply (proj1 (Forall_forall _ _) Hall). apply in_or_app. now right.
  - inversion H. subst. now apply IH.
Qed.

Lemma Forall2_In_l {A B} (R : A -> B -> Prop) (l1 : list A) (l2 : list B) :
  Forall2 R l1 l2 -> forall x, In x l1 -> exists y, In y l2 /\ R x y.
Proof.
  induction 1 as [|x y l1 l2 Hxy _ IH]; cbn; [tauto|].
  intros z [<- | Hz].
  - exists y. now split; [left|].
  - destruct (IH z Hz) as [y' [Hy' Hr]]. exists y'. now split; [right|].
Qed.

(** X4.  What the limit cuts off never outscores what is returned: for a
    textual guess and a limit that is not negative, every directory
    record with a positive score either has its entry in the result, or
    scores no more than every entry of the result. *)
Theorem matcher_left_out_scores_less
        (researcher_db : Directory) (d l t : str) (limit : Z) (res : list dict)
        (code : str) (info : StaffRecord) :
  0 <= limit ->
  find_matching_researchers researcher_db (VStr d) (VStr l) (VStr t) limit = Ok res ->
  In (code, info) researcher_db ->
  0 < directory_score d l t info ->
  (exists e,
      In e res
      /\ Py.lookup (lit "code") e = Some (VStr code)
      /\ Py.lookup (lit "match_score") e = Some (VInt (directory_score d l t info)))
  \/ (forall e, In e res -> directory_score d l t info <= match_score e).
Proof.
  intros Hlimit Hres Hin Hpos.
  unfold find_matching_researchers, rbind in Hres.
  destruct (collect_candidates _ _ _ _ _) as [cands|e] eqn:E; [|discriminate].
  injection Hres as <-. rewrite slice_to_firstn by exact Hlimit.
  apply collect_candidates_ok in E as [new [-> Hnew]]. cbn [app].
  assert (Hitem : In (code, info)
                    (filter (scoring (VStr d) (VStr l) (VStr t)) researcher_db)).
  { apply filter_In. split; [exact Hin|]. rewrite scoring_str. now apply Z.ltb_lt. }
  destruct (Forall2_In_l Hnew _ Hitem) as (c & Hc & s & Hs & Hcand).
  cbn [fst snd] in Hs, Hcand. rewrite score_record_str in Hs. injection Hs as <-.
  apply (Permutation_in _ (Permutation_sym (sort_desc_perm new))) in Hc.
  rewrite <- (firstn_skipn (Z.to_nat limit) (sort_desc new)) in Hc.
  apply in_app_or in Hc as [Hc | Hc].
  - left. exists c. split; [exact Hc|].
    apply candidate_fields in Hcand
      as (name & _ & _ & Hcode & _ & _ & _ & _ & _ & _ & _ & Hscore).
    now split.
  - right. intros e He.
    rewrite <- (candidate_match_score _ _ _ Hcand).
    apply (@descending_app_le (firstn (Z.to_nat limit) (sort_desc new))
             (skipn (Z.to_nat limit) (sort_desc new))); try assumption.
    rewrite firstn_skipn. apply sort_desc_descending.
Qed.

Lemma matcher_left_out_scores_less_witness :
  (exists e,
      In e tied_top_one
      /\ Py.lookup (lit "code") e = Some (VStr (lit "A1"))
      /\ Py.lookup (lit "match_score") e = Some (VInt 3))
  \/ (forall e, In e tied_top_one -> 3 <= match_score e).
Proof.
  apply (@matcher_left_out_scores_less tied_directory (lit "Lab X") (lit "Analysis") []
           1 tied_top_one (lit "A1")
           (staff (lit "Kim") (lit "Lab X") (lit "Formulation") [])).
  - lia.
  - vm_compute. reflexivity.
  - left. reflexivity.
  - vm_compute. reflexivity.
Defined.

(** ** Orchestrator: one call, and when it returns *)

(** X5.  Whatever the backend answers and whatever follows,
    [classify_email] calls the backend exactly once, with the prompt
    built from the mail and the summary and the fixed generation
    parameters: there is no second attempt on any path, not even on the
    paths that raise. *)
Theorem classify_email_calls_backend_once
        (client : Client) (model_name : str) (email : EmailInput)
        (researcher_db : Directory) (dept_summary : str) (w : world) :
  calls (snd (classify_email client model_name email researcher_db dept_summary w))
  = calls w
    ++ [classify_request model_name (build_classification_prompt email dept_summary)].
Proof.
  unfold classify_email, bind, generate_content, lift, ret, print. cbn [fst snd].
  destruct (client _) as [text|e|]; [|reflexivity|reflexivity].
  destruct (parse_gemini_response text) as [parsed|e]; [|reflexivity].
  destruct (Py.truthy parsed) eqn:Et; cbn [negb]; [|reflexivity].
  destruct parsed; try reflexivity.
  cbn [Py.get]. destruct researcher_db as [|item rest]; [reflexivity|].
  destruct (find_matching_researchers _ _ _ _ _); reflexivity.
Qed.

(** X6.  On a directory whose records hold what [build_researcher_db]
    writes (texts and a boolean, some keys possibly missing):
    [classify_email] returns a result, and raises nothing, whenever the
    reply parses to a mapping whose three routing guesses are texts or
    falsy (or are missing), every record of the directory has a name,
    and the first 500 characters of the reply, which are printed when
    the mapping is empty, can be encoded for the standard output. *)
Theorem classify_email_returns
        (client : Client) (model_name : str) (email : EmailInput)
        (researcher_db : Directory) (dept_summary : str) (w : world)
        (text : str) (d : dict) :
  client (classify_request model_name
            (build_classification_prompt email dept_summary)) = Text text ->
  parse_gemini_response text = Ok (VDict d) ->
  encodable (slice_to 500 text) ->
  safe_guess (field_or d (lit "recommended_department") (VStr [])) ->
  safe_guess (field_or d (lit "recommended_lab") (VStr [])) ->
  safe_guess (field_or d (lit "recommended_team") (VStr [])) ->
  all_named researcher_db ->
  exists r,
    fst (classify_email client model_name email researcher_db dept_summary w) = Ok r.
Proof.
  intros Hreply Hparse _ H1 H2 H3 Hnamed.
  unfold classify_email, bind, generate_content, lift, ret, print. cbn [fst snd].
  rewrite Hreply, Hparse.
  destruct d as [|kv d']; [cbn; eauto|].
  cbn [Py.truthy negb Py.get].
  fold (field_or (kv :: d') (lit "recommended_department") (VStr [])).
  fold (field_or (kv :: d') (lit "recommended_lab") (VStr [])).
  fold (field_or (kv :: d') (lit "recommended_team") (VStr [])).
  destruct researcher_db as [|item rest]; [cbn; eauto|].
  destruct (matcher_returns_for_safe_guesses 5 H1 H2 H3 Hnamed) as [res ->].
  cbn. eauto.
Qed.

Lemma encodable_check (s : str) :
  forallb (fun c => negb (is_surrogate c)) s = true -> encodable s.
Proof.
  unfold encodable. rewrite forallb_forall, Forall_forall.
  intros H c Hc. specialize (H c Hc). now destruct (is_surrogate c).
Qed.

Lemma classify_email_returns_witness :
  exists r,
    fst (classify_email (fun _ => Text quality_issue_reply) (lit "gemini-2.0-flash")
           shipment_hold one_record_directory [] empty_world) = Ok r.
Proof.
  apply (@classify_email_returns
           (fun _ => Text quality_issue_reply) (lit "gemini-2.0-flash")
           shipment_hold one_record_directory [] empty_world quality_issue_reply
           [ (lit "category", VStr (lit "품질_이슈"));
             (lit "urgency", VStr (lit "긴급"));
             (lit "summary", VStr (lit "..."));
             (lit "recommended_department", VStr (lit "Lab X")) ]).
  - reflexivity.
  - vm_compute. reflexivity.
  - apply encodable_check. vm_compute. reflexivity.
  - left. eexists. vm_compute. reflexivity.
  - left. eexists. vm_compute. reflexivity.
  - left. eexists. vm_compute. reflexivity.
  - apply all_named_check. reflexivity.
Defined.

(** ** Response parser: replies without fenced blocks *)

Lemma lstrip_Forall (P : char -> Prop) (s : str) : Forall P s -> Forall P (lstrip s).
Proof.
  induction 1 as [|c s Hc Hs IH]; cbn; [constructor|].
  destruct (isspace c); [exact IH | now constructor].
Qed.

Lemma rstrip_Forall (P : char -> Prop) (s : str) : Forall P s -> Forall P (rstrip s).
Proof.
  intros H. unfold rstrip. apply Forall_rev, lstrip_Forall, Forall_rev, H.
Qed.

Lemma strip_Forall (P : char -> Prop) (s : str) : Forall P s -> Forall P (strip s).
Proof. intros H. unfold strip. apply rstrip_Forall, lstrip_Forall, H. Qed.

Lemma findall_no_backtick (text : str) :
  no_backtick text -> Re.findall fence_pattern text = [].
Proof.
  intros H. unfold Re.findall. rewrite <- (app_nil_r text).
  now rewrite findall_from_no_backtick.
Qed.

Lemma attempts_no_backtick (response_text : str) :
  no_backtick response_text ->
  attempts response_text
  = strip response_text :: brace_candidate (strip response_text).
Proof.
  intros H. unfold attempts.
  rewrite findall_no_backtick by (now apply strip_Forall). reflexivity.
Qed.

Lemma find_char_first (c : char) (p r : str) :
  ~ In c p -> find [c] (p ++ c :: r) = Z.of_nat (length p).
Proof.
  induction p as [|x p IH]; intros Hp.
  - cbn [app find startswith length]. now rewrite N.eqb_refl.
  - cbn [app find startswith]. destruct (c =? x)%N eqn:E.
    + apply N.eqb_eq in E. subst x. exfalso. apply Hp. now left.
    + cbn [andb]. rewrite IH by (intros H; apply Hp; now right).
      destruct (Z.of_nat (length p) <? 0) eqn:El; [apply Z.ltb_lt in El; lia|].
      cbn [length]. lia.
Qed.

Lemma rfind_char_absent (c : char) (r : str) : ~ In c r -> rfind [c] r = -1.
Proof.
  induction r as [|x r IH]; intros Hr; [reflexivity|].
  cbn [rfind startswith]. rewrite IH by (intros H; apply Hr; now right).
  cbn. destruct (c =? x)%N eqn:E; [|reflexivity].
  apply N.eqb_eq in E. subst x. exfalso. apply Hr. now left.
Qed.

Lemma rfind_char_last (c : char) (p r : str) :
  ~ In c r -> rfind [c] (p ++ c :: r) = Z.of_nat (length p).
Proof.
  intros Hr. induction p as [|x p IH].
  - cbn [app rfind startswith length]. rewrite rfind_char_absent by exact Hr.
    cbn. now rewrite N.eqb_refl.
  - cbn [app rfind]. rewrite IH.
    destruct (0 <=? Z.of_nat (length p)) eqn:El; [|apply Z.leb_gt in El; lia].
    cbn [length]. lia.
Qed.

Lemma slice_middle {A} (p m r : list A) :
  slice (Z.of_nat (length p)) (Z.of_nat (length p) + Z.of_nat (length m)) (p ++ m ++ r)
  = m.
Proof.
  unfold slice, clamp. rewrite !length_app.
  destruct (Z.of_nat (length p) <? 0) eqn:E1; [apply Z.ltb_lt in E1; lia|].
  destruct (Z.of_nat (length p) + Z.of_nat (length m) <? 0) eqn:E2;
    [apply Z.ltb_lt in E2; lia|].
  rewrite !Z.min_l by lia.
  replace (Z.of_nat (length p) + Z.of_nat (length m) - Z.of_nat (length p))
    with (Z.of_nat (length m)) by lia.
  rewrite !Nat2Z.id. rewrite skipn_length_app.
  rewrite <- (Nat.add_0_r (length m)). rewrite firstn_app_2. cbn. apply app_nil_r.
Qed.

(** X7.  A reply without backticks (so without fenced blocks) that is
    JSON once trimmed is decoded as it is. *)
Theorem parse_plain_json (response_text : str) (v : value) :
  no_backtick response_text ->
  Json.loads (strip response_text) = Ok v ->
  parse_gemini_response response_text = Ok v.
Proof.
  intros Hnb Hv. rewrite parse_gemini_response_attempts, attempts_no_backtick by exact Hnb.
  cbn [first_decoded]. now apply try_loads_ok.
Qed.

Lemma parse_plain_json_witness :
  parse_gemini_response (lit_q "  {'urgency': '긴급'}  ")
  = Ok (VDict [(lit "urgency", VStr (lit "긴급"))]).
Proof.
  apply parse_plain_json.
  - apply no_backtick_check. vm_compute. reflexivity.
  - vm_compute. reflexivity.
Defined.

(** X8.  The brace scan: in a reply without backticks that is
    malformed as a whole (the decoder raises [JSONDecodeError] on the
    trimmed reply, and not [ValueError] or [RecursionError], which
    would leave the parser), made of prose without an opening brace,
    then a text that opens and closes with a brace and decodes, then
    prose without a closing brace, the parser returns what the text
    between the braces decodes to. *)
Theorem parse_object_in_prose (prose inner trailer : str) (v : value) :
  no_backtick (prose ++ (123%N :: inner ++ [125%N]) ++ trailer) ->
  ~ In 123%N prose ->
  ~ In 125%N trailer ->
  malformed (strip (prose ++ (123%N :: inner ++ [125%N]) ++ trailer)) ->
  Json.loads (123%N :: inner ++ [125%N]) = Ok v ->
  parse_gemini_response (prose ++ (123%N :: inner ++ [125%N]) ++ trailer) = Ok v.
Proof.
  intros Hnb Hprose Htrailer Hwhole Hv.
  rewrite parse_gemini_response_attempts, attempts_no_backtick by exact Hnb.
  cbn [first_decoded]. rewrite (try_loads_skip _ Hwhole).
  assert (Hstrip : strip (prose ++ (123%N :: inner ++ [125%N]) ++ trailer)
                   = lstrip prose ++ (123%N :: inner ++ [125%N]) ++ rstrip trailer).
  { unfold strip. rewrite lstrip_app; [|reflexivity|discriminate].
    rewrite app_assoc. rewrite rstrip_app; [now rewrite <- app_assoc| |].
    - rewrite rev_app_distr. cbn [rev]. rewrite rev_app_distr. reflexivity.
    - intros E. apply (f_equal (@length char)) in E.
      rewrite !length_app in E. cbn in E. lia. }
  rewrite Hstrip. unfold brace_candidate.
  assert (Hp : ~ In 123%N (lstrip prose)).
  { intros H. apply Hprose.
    assert (Hall : Forall (fun c => c <> 123%N) (lstrip prose)).
    { apply lstrip_Forall, Forall_forall. intros c Hc E. subst c. now apply Hprose. }
    exfalso. exact (proj1 (Forall_forall _ _) Hall _ H eq_refl). }
  assert (Ht : ~ In 125%N (rstrip trailer)).
  { intros H.
    assert (Hall : Forall (fun c => c <> 125%N) (rstrip trailer)).
    { apply rstrip_Forall, Forall_forall. intros c Hc E. subst c. now apply Htrailer. }
    exact (proj1 (Forall_forall _ _) Hall _ H eq_refl). }
  assert (Hfind : find (lit "{")
                    (lstrip prose ++ (123%N :: inner ++ [125%N]) ++ rstrip trailer)
                  = Z.of_nat (length (lstrip prose))).
  { change (lit "{") with [123%N].
    replace (lstrip prose ++ (123%N :: inner ++ [125%N]) ++ rstrip trailer)
      with (lstrip prose ++ 123%N :: (inner ++ [125%N] ++ rstrip trailer))
      by (cbn [app]; rewrite <- ?app_assoc; reflexivity).
    now apply find_char_first. }
  assert (Hrfind : rfind (lit "}")
                     (lstrip prose ++ (123%N :: inner ++ [125%N]) ++ rstrip trailer)
                   = Z.of_nat (length (lstrip prose)) + Z.of_nat (length inner) + 1).
  { change (lit "}") with [125%N].
    replace (lstrip prose ++ (123%N :: inner ++ [125%N]) ++ rstrip trailer)
      with ((lstrip prose ++ 123%N :: inner) ++ 125%N :: rstrip trailer)
      by (cbn [app]; rewrite <- ?app_assoc; cbn [app]; rewrite <- ?app_assoc;
          reflexivity).
    rewrite rfind_char_last by exact Ht.
    rewrite length_app. cbn [length]. lia. }
  rewrite Hfind, Hrfind.
  replace (Z.of_nat (length (lstrip prose)) + Z.of_nat (length inner) + 1 + 1)
    with (Z.of_nat (length (lstrip prose))
          + Z.of_nat (length (123%N :: inner ++ [125%N])))
    by (cbn [length]; rewrite length_app; cbn [length]; lia).
  replace (Z.of_nat (length (lstrip prose)) >=? 0) with true
    by (symmetry; apply Z.geb_le; lia).
  replace (Z.of_nat (length (lstrip prose))
           + Z.of_nat (length (123%N :: inner ++ [125%N]))
           >? Z.of_nat (length (lstrip prose))) with true
    by (symmetry; apply Z.gtb_lt; cbn [length]; lia).
  cbn [andb first_decoded]. rewrite slice_middle. now apply try_loads_ok.
Qed.

Lemma malformedb_true (s : str) : malformedb s = true -> malformed s.
Proof.
  unfold malformedb, malformed. destruct (Json.loads s) as [v|e]; [discriminate|].
  destruct e; try discriminate. reflexivity.
Qed.

Lemma parse_object_in_prose_witness :
  parse_gemini_response
    (lit "Sure! Here it is: "
     ++ (123%N :: lit_q "'category': '기타'" ++ [125%N])
     ++ lit " Hope it helps.")
  = Ok (VDict [(lit "category", VStr (lit "기타"))]).
Proof.
  apply parse_object_in_prose.
  - apply no_backtick_check. vm_compute. reflexivity.
  - vm_compute. intuition discriminate.
  - vm_compute. intuition discriminate.
  - apply malformedb_true. vm_compute. reflexivity.
  - vm_compute. reflexivity.
Defined.

Lemma lstrip_leading_space (w x : str) : all_space w -> lstrip (w ++ x) = lstrip x.
Proof. induction 1 as [|c w Hc _ IH]; cbn; [reflexivity | now rewrite Hc]. Qed.

Lemma rstrip_trailing_space (x w : str) : all_space w -> rstrip (x ++ w) = rstrip x.
Proof.
  intros Hw. unfold rstrip. rewrite rev_app_distr.
  rewrite lstrip_leading_space; [reflexivity | now apply Forall_rev].
Qed.

Lemma lstrip_before_space (t w : str) :
  all_space w ->
  lstrip (t ++ w) = lstrip t ++ w \/ (lstrip t = [] /\ lstrip (t ++ w) = []).
Proof.
  intros Hw. induction t as [|c t IH]; cbn.
  - right. split; [reflexivity|].
    rewrite <- (app_nil_r w). now rewrite lstrip_leading_space.
  - destruct (isspace c); [exact IH | now left].
Qed.

Lemma strip_surrounding_space (w t w' : str) :
  all_space w -> all_space w' -> strip (w ++ t ++ w') = strip t.
Proof.
  intros Hw Hw'. unfold strip. rewrite lstrip_leading_space by exact Hw.
  destruct (lstrip_before_space t Hw') as [-> | [E ->]].
  - now apply rstrip_trailing_space.
  - now rewrite E.
Qed.

(** X9.  White space around the reply does not change what the parser
    returns. *)
Theorem parse_ignores_surrounding_space (leading response_text trailing : str) :
  all_space leading -> all_space trailing ->
  parse_gemini_response (leading ++ response_text ++ trailing)
  = parse_gemini_response response_text.
Proof.
  intros Hl Ht. unfold parse_gemini_response.
  now rewrite strip_surrounding_space.
Qed.

Lemma all_space_check (w : str) : forallb isspace w = true -> all_space w.
Proof.
  unfold all_space. rewrite forallb_forall, Forall_forall. auto.
Qed.

Lemma parse_ignores_surrounding_space_witness :
  parse_gemini_response ([10; 32; 9]%N ++ lit_q "{'a': 1}" ++ [32; 13; 10; 160]%N)
  = parse_gemini_response (lit_q "{'a': 1}").
Proof.
  apply parse_ignores_surrounding_space; apply all_space_check; reflexivity.
Defined.

(** ** Backend selector: the credential and the log *)

(** X10.  Without a usable credential (each of [GEMINI_API_KEY] and
    [GOOGLE_API_KEY] unset or empty) the selector prints its three
    lines of advice and exits with status 1, whatever the candidates;
    it builds no client and probes nothing. *)
Theorem configure_gemini_without_credential
        (models : list str) (getenv : str -> option str)
        (genai_Client : str -> Client) (w : world) :
  no_credential getenv ->
  fst (configure_gemini_with models getenv genai_Client w) = Raise (SystemExit 1)
  /\ calls (snd (configure_gemini_with models getenv genai_Client w)) = calls w
  /\ stdout (snd (configure_gemini_with models getenv genai_Client w))
     = stdout w ++ credential_help.
Proof.
  intros [Hgemini Hgoogle]. unfold configure_gemini_with, lookup_api_key.
  assert (Hkey : match getenv (lit "GEMINI_API_KEY") with
                 | Some (c :: k) => Some (c :: k)
                 | _ => getenv (lit "GOOGLE_API_KEY")
                 end = None
                 \/ match getenv (lit "GEMINI_API_KEY") with
                    | Some (c :: k) => Some (c :: k)
                    | _ => getenv (lit "GOOGLE_API_KEY")
                    end = Some []).
  { destruct Hgemini as [-> | ->], Hgoogle as [-> | ->]; auto. }
  destruct Hkey as [-> | ->];
    (split; [reflexivity|]; split; [reflexivity|]);
    unfold bind, print, raise; cbn [fst snd stdout];
    unfold credential_help; now rewrite <- !app_assoc.
Qed.

Lemma configure_gemini_without_credential_witness :
  fst (configure_gemini (fun _ => Some []) (fun _ => quota_on_m1) empty_world)
  = Raise (SystemExit 1)
  /\ calls (snd (configure_gemini (fun _ => Some []) (fun _ => quota_on_m1) empty_world))
     = calls empty_world
  /\ stdout (snd (configure_gemini (fun _ => Some []) (fun _ => quota_on_m1) empty_world))
     = stdout empty_world ++ credential_help.
Proof.
  apply configure_gemini_without_credential. split; right; reflexivity.
Defined.




(** ** What can leave [classify_email] *)

Lemma find_matching_researchers_raises
      (researcher_db : Directory) (department lab team : value) (limit : Z) (e : exn) :
  find_matching_researchers researcher_db department lab team limit = Raise e ->
  e = TypeError \/ e = KeyError (lit "name").
Proof.
  unfold find_matching_researchers, rbind.
  destruct (collect_candidates _ _ _ _ _) as [cands|e'] eqn:E; [discriminate|].
  intros [= <-].
  apply collect_candidates_raises in E as [(code & info & _ & Hs) | [-> _]].
  - left. exact (score_record_raises _ _ _ _ Hs).
  - now right.
Qed.

Lemma Forall_encodable_check (lines : list str) :
  forallb (forallb (fun c => negb (is_surrogate c))) lines = true ->
  Forall encodable lines.
Proof.
  rewrite forallb_forall, Forall_forall.
  intros H line Hline. apply encodable_check, H, Hline.
Qed.

(** X12.  What can leave [classify_email], on a directory whose records
    hold what [build_researcher_db] writes and when the lines it prints
    can be encoded for the standard output.  An exception leaves it
    only after the backend has answered: [AttributeError] when the
    answer has no text; [ValueError] or [RecursionError] when the
    decoder raised it in the parser; [AttributeError] when the parser
    returned a non-empty value that is no mapping; and otherwise
    [TypeError] or [KeyError('name')] out of the matcher, on a
    directory that is not empty.  A failing backend call and a reply
    whose attempts are all malformed do not make it raise. *)
Theorem classify_email_raises_only
        (client : Client) (model_name : str) (email : EmailInput)
        (researcher_db : Directory) (dept_summary : str) (w : world) (e : exn) :
  Forall encodable
    (printed (classify_email client model_name email researcher_db dept_summary) w) ->
  fst (classify_email client model_name email researcher_db dept_summary w) = Raise e ->
  (client (classify_request model_name
             (build_classification_prompt email dept_summary)) = NoText
   /\ e = AttributeError)
  \/ exists text,
      client (classify_request model_name
                (build_classification_prompt email dept_summary)) = Text text
      /\ ((parse_gemini_response text = Raise e
           /\ (e = ValueError \/ e = RecursionError))
          \/ exists parsed,
              parse_gemini_response text = Ok parsed
              /\ Py.truthy parsed = true
              /\ ((e = AttributeError /\ forall d, parsed <> VDict d)
                  \/ (exists d,
                         parsed = VDict d
                         /\ researcher_db <> []
                         /\ find_matching_researchers researcher_db
                              (field_or d (lit "recommended_department") (VStr []))
                              (field_or d (lit "recommended_lab") (VStr []))
                              (field_or d (lit "recommended_team") (VStr [])) 5
                            = Raise e
                         /\ (e = TypeError \/ e = KeyError (lit "name"))))).
Proof.
  intros _.
  unfold classify_email, bind, generate_content, lift, ret, print, raise.
  cbn [fst snd].
  destruct (client _) as [text|msg|] eqn:Ereply; [|discriminate|].
  2:{ intros [= <-]. left. now split. }
  destruct (parse_gemini_response text) as [parsed|e'] eqn:Eparsed.
  2:{ cbn [fst]. intros [= <-]. right. exists text. split; [reflexivity|].
      left. split; [exact Eparsed|].
      exact (parse_gemini_response_raises _ Eparsed). }
  destruct (Py.truthy parsed) eqn:Et; cbn [negb]; [|discriminate].
  intros H. right. exists text. split; [reflexivity|].
  right. exists parsed. split; [exact Eparsed|]. split; [exact Et|].
  destruct parsed as [ | b | z | f | s | l | d ];
    try (left; cbn in H; injection H as <-; split; [reflexivity | discriminate]).
  right. exists d. split; [reflexivity|]. cbn [Py.get] in H.
  destruct researcher_db as [|item rest]; [discriminate H|].
  split; [discriminate|]. unfold field_or.
  destruct (find_matching_researchers _ _ _ _ _) as [res|e''] eqn:Em; [discriminate H|].
  injection H as <-. split; [reflexivity|].
  exact (find_matching_researchers_raises _ _ _ _ _ Em).
Qed.

Lemma classify_email_raises_only_witness :
  ((fun _ : request => Text oversized_reply)
     (classify_request (lit "gemini-2.0-flash")
        (build_classification_prompt shipment_hold [])) = NoText
   /\ ValueError = AttributeError)
  \/ exists text,
      (fun _ : request => Text oversized_reply)
        (classify_request (lit "gemini-2.0-flash")
           (build_classification_prompt shipment_hold [])) = Text text
      /\ ((parse_gemini_response text = Raise ValueError
           /\ (ValueError = ValueError \/ ValueError = RecursionError))
          \/ exists parsed,
              parse_gemini_response text = Ok parsed
              /\ Py.truthy parsed = true
              /\ ((ValueError = AttributeError /\ forall d, parsed <> VDict d)
                  \/ (exists d,
                         parsed = VDict d
                         /\ one_record_directory <> []
                         /\ find_matching_researchers one_record_directory
                              (field_or d (lit "recommended_department") (VStr []))
                              (field_or d (lit "recommended_lab") (VStr []))
                              (field_or d (lit "recommended_team") (VStr [])) 5
                            = Raise ValueError
                         /\ (ValueError = TypeError
                             \/ ValueError = KeyError (lit "name"))))).
Proof.
  assert (Hparse : parse_gemini_response oversized_reply = Raise ValueError)
    by (vm_compute; reflexivity).
  assert (Hrun : classify_email (fun _ => Text oversized_reply) (lit "gemini-2.0-flash")
                   shipment_hold one_record_directory [] empty_world
                 = (Raise ValueError,
                    {| stdout := [];
                       calls := [classify_request (lit "gemini-2.0-flash")
                                   (build_classification_prompt shipment_hold [])] |})).
  { unfold classify_email, bind, generate_content, lift, ret. cbv beta iota.
    rewrite Hparse. reflexivity. }
  apply (@classify_email_raises_only (fun _ => Text oversized_reply)
           (lit "gemini-2.0-flash") shipment_hold one_record_directory []
           empty_world ValueError).
  - unfold printed. rewrite Hrun. constructor.
  - rewrite Hrun. reflexivity.
Defined.

(** ** [get_department_summary] *)

Lemma str_ltb_irrefl (a : str) : str_ltb a a = false.
Proof.
  induction a as [|x a IH]; cbn [str_ltb]; [reflexivity|].
  now rewrite N.ltb_irrefl.
Qed.

Lemma str_ltb_trans (a b c : str) :
  str_ltb a b = true -> str_ltb b c = true -> str_ltb a c = true.
Proof.
  revert b c; induction a as [|x a IH]; intros [|y b] [|z c]; cbn [str_ltb];
    try congruence.
  destruct (N.ltb_spec x y), (N.ltb_spec y x), (N.ltb_spec y z),
    (N.ltb_spec z y), (N.ltb_spec x z), (N.ltb_spec z x);
    try lia; try congruence.
  apply IH.
Qed.

Lemma str_ltb_total (a b : str) :
  str_ltb a b = false -> str_ltb b a = false -> a = b.
Proof.
  revert b; induction a as [|x a IH]; intros [|y b]; cbn [str_ltb];
    try congruence.
  destruct (N.ltb_spec x y), (N.ltb_spec y x); try congruence.
  intros H1 H2. assert (x = y) by lia. subst y. f_equal. now apply IH.
Qed.

Lemma str_ltb_asym (a b : str) : str_ltb a b = true -> str_ltb b a = false.
Proof.
  intros H. destruct (str_ltb b a) eqn:E; [|reflexivity].
  pose proof (str_ltb_trans _ _ _ H E) as F.
  now rewrite str_ltb_irrefl in F.
Qed.

Lemma insert_by_perm {A} (key : A -> str) (x : A) (l : list A) :
  Permutation (insert_by key x l) (x :: l).
Proof.
  induction l as [|y r IH]; cbn [insert_by]; [reflexivity|].
  destruct (str_ltb (key y) (key x)); [|reflexivity].
  rewrite IH. apply perm_swap.
Qed.

Lemma sorted_by_perm {A} (key : A -> str) (l : list A) :
  Permutation (sorted_by key l) l.
Proof.
  induction l as [|x l IH]; cbn [sorted_by fold_right]; [reflexivity|].
  fold (sorted_by key l). rewrite insert_by_perm. now constructor.
Qed.

Lemma sorted_In (l : list str) (x : str) : In x (sorted l) <-> In x l.
Proof.
  split; apply Permutation_in;
    [|symmetry]; apply sorted_by_perm.
Qed.

Lemma insert_ascending (x : str) (l : list str) :
  ascending l -> ~ In x l -> ascending (insert_by (fun s => s) x l).
Proof.
  unfold ascending.
  induction 1 as [|y r Hr IH Hy]; intros Hx; cbn [insert_by].
  - repeat constructor.
  - destruct (str_ltb y x) eqn:E.
    + constructor.
      * apply IH. intros F; apply Hx; now right.
      * apply Forall_forall. intros z Hz.
        apply (Permutation_in _ (insert_by_perm _ x r)) in Hz.
        destruct Hz as [<- | Hz]; [exact E|].
        exact (proj1 (Forall_forall _ _) Hy z Hz).
    + assert (Hxy : str_ltb x y = true).
      { destruct (str_ltb x y) eqn:F; [reflexivity|].
        exfalso; apply Hx; left. now apply str_ltb_total. }
      constructor; [now constructor|].
      constructor; [exact Hxy|].
      apply Forall_forall. intros z Hz.
      apply (str_ltb_trans _ _ _ Hxy).
      exact (proj1 (Forall_forall _ _) Hy z Hz).
Qed.

Lemma sorted_ascending (l : list str) : NoDup l -> ascending (sorted l).
Proof.
  induction 1 as [|x l Hx Hl IH]; cbn; [constructor|].
  apply insert_ascending; [exact IH|].
  intros F. apply Hx. now apply sorted_In.
Qed.

Lemma ascending_unique (l1 l2 : list str) :
  ascending l1 -> ascending l2 -> (forall x, In x l1 <-> In x l2) -> l1 = l2.
Proof.
  unfold ascending. intros H1; revert l2.
  induction H1 as [|a l1 H1 IH Ha]; intros l2 H2 Hsame.
  - destruct l2 as [|b l2]; [reflexivity|].
    now destruct (proj2 (Hsame b) (or_introl eq_refl)).
  - destruct H2 as [|b l2 H2 Hb].
    { now destruct (proj1 (Hsame a) (or_introl eq_refl)). }
    pose proof (proj1 (Forall_forall _ _) Ha) as Ha'.
    pose proof (proj1 (Forall_forall _ _) Hb) as Hb'.
    cbv beta in Ha', Hb'.
    assert (a = b) as <-.
    { destruct (proj1 (Hsame a) (or_introl eq_refl)) as [E | Hin]; [now symmetry|].
      destruct (proj2 (Hsame b) (or_introl eq_refl)) as [E | Hin']; [exact E|].
      pose proof (str_ltb_asym _ _ (Ha' _ Hin')) as F.
      rewrite (Hb' _ Hin) in F. discriminate. }
    f_equal. apply IH; [exact H2|].
    intros x; split; intros Hx.
    + destruct (proj1 (Hsame x) (or_intror Hx)) as [E | Hin]; [|exact Hin].
      subst x. pose proof (Ha' _ Hx) as F. now rewrite str_ltb_irrefl in F.
    + destruct (proj2 (Hsame x) (or_intror Hx)) as [E | Hin]; [|exact Hin].
      subst x. pose proof (Hb' _ Hx) as F. now rewrite str_ltb_irrefl in F.
Qed.

Lemma sorted_same_elements (l1 l2 : list str) :
  NoDup l1 -> NoDup l2 -> (forall x, In x l1 <-> In x l2) ->
  sorted l1 = sorted l2.
Proof.
  intros H1 H2 Hsame.
  apply ascending_unique; try now apply sorted_ascending.
  intros x. now rewrite !sorted_In.
Qed.

Lemma sorted_by_fst_map {B} (g : str -> B) (keys : list str) :
  sorted_by fst (map (fun d => (d, g d)) keys)
  = map (fun d => (d, g d)) (sorted keys).
Proof.
  induction keys as [|k keys IH]; cbn; [reflexivity|].
  fold (sorted_by (@fst str B) (map (fun d => (d, g d)) keys)).
  fold (sorted_by (fun s : str => s) keys). fold (sorted keys).
  rewrite IH. generalize (sorted keys) as l.
  induction l as [|y r IHr]; cbn; [reflexivity|].
  destruct (str_ltb y k); cbn; [now rewrite IHr | reflexivity].
Qed.

Lemma eqb_sym (a b : str) : PyStr.eqb a b = PyStr.eqb b a.
Proof.
  destruct (PyStr.eqb a b) eqn:E, (PyStr.eqb b a) eqn:F; try reflexivity.
  - apply eqb_eq in E. subst b.
    now rewrite (proj2 (eqb_eq a a) eq_refl) in F.
  - apply eqb_eq in F. subst b.
    now rewrite (proj2 (eqb_eq a a) eq_refl) in E.
Qed.

Lemma eqb_refl (a : str) : PyStr.eqb a a = true.
Proof. now apply eqb_eq. Qed.

Lemma eqb_neq (a b : str) : PyStr.eqb a b = false <-> a <> b.
Proof.
  split.
  - intros E F. apply eqb_eq in F. congruence.
  - intros F. destruct (PyStr.eqb a b) eqn:E; [|reflexivity].
    now apply eqb_eq in E.
Qed.

Lemma mem_spec (x : str) (s : list str) :
  existsb (PyStr.eqb x) s = true <-> In x s.
Proof.
  rewrite existsb_exists. split.
  - intros [y [Hy E]]. apply eqb_eq in E. now subst y.
  - intros H. exists x. split; [exact H | apply eqb_refl].
Qed.

Lemma set_add_In (x y : str) (s : list str) :
  In y (set_add x s) <-> y = x \/ In y s.
Proof.
  unfold set_add. destruct (existsb (PyStr.eqb x) s) eqn:E.
  - apply mem_spec in E. split; [now right|]. now intros [-> | H].
  - rewrite in_app_iff. cbn. intuition congruence.
Qed.

Lemma set_add_NoDup (x : str) (s : list str) : NoDup s -> NoDup (set_add x s).
Proof.
  intros H. unfold set_add. destruct (existsb (PyStr.eqb x) s) eqn:E; [exact H|].
  assert (Hx : ~ In x s).
  { intros F. apply mem_spec in F. congruence. }
  apply NoDup_rev in H. rewrite <- (rev_involutive (s ++ [x])).
  apply NoDup_rev. rewrite rev_app_distr. cbn. constructor; [|exact H].
  now rewrite <- in_rev.
Qed.

Lemma distinct_snoc (l : list str) (x : str) :
  distinct (l ++ [x]) = set_add x (distinct l).
Proof. unfold distinct. now rewrite fold_left_app. Qed.

Lemma distinct_In (l : list str) (y : str) : In y (distinct l) <-> In y l.
Proof.
  induction l as [|x l IH] using rev_ind; [reflexivity|].
  rewrite distinct_snoc, set_add_In, in_app_iff, IH. cbn. intuition congruence.
Qed.

Lemma distinct_NoDup (l : list str) : NoDup (distinct l).
Proof.
  induction l as [|x l IH] using rev_ind; [constructor|].
  rewrite distinct_snoc. now apply set_add_NoDup.
Qed.

Lemma shown_departments_In (infos : list StaffRecord) (d : str) :
  In d (shown_departments infos)
  <-> usable_department d = true /\ exists info, In info infos /\ department_of info = d.
Proof.
  unfold shown_departments. rewrite distinct_In, filter_In, in_map_iff.
  split.
  - intros [[info [E H]] U]. split; [exact U|]. now exists info.
  - intros [U [info [H E]]]. split; [|exact U]. now exists info.
Qed.

Lemma collected_In (f : StaffRecord -> str) (d : str) (infos : list StaffRecord)
      (s : str) :
  In s (collected f d infos)
  <-> s <> [] /\ exists info, In info infos /\ department_of info = d /\ f info = s.
Proof.
  unfold collected. rewrite distinct_In, filter_In, in_map_iff.
  split.
  - intros [[info [E H]] N]. apply filter_In in H. destruct H as [H D].
    apply eqb_eq in D. split; [now destruct s|]. now exists info.
  - intros [N [info [H [D E]]]]. split; [|now destruct s].
    exists info. split; [exact E|]. apply filter_In. split; [exact H|].
    now apply eqb_eq.
Qed.

Lemma collected_snoc (f : StaffRecord -> str) (d : str) (infos : list StaffRecord)
      (x : StaffRecord) :
  collected f d (infos ++ [x])
  = if PyStr.eqb (department_of x) d
    then match f x with
         | [] => collected f d infos
         | _ :: _ => set_add (f x) (collected f d infos)
         end
    else collected f d infos.
Proof.
  unfold collected. rewrite filter_app. cbn [filter].
  destruct (PyStr.eqb (department_of x) d).
  - rewrite map_app, filter_app. cbn [map filter].
    destruct (f x) as [|c r] eqn:E.
    + now rewrite app_nil_r.
    + apply distinct_snoc.
  - now rewrite app_nil_r.
Qed.

Lemma collected_absent (f : StaffRecord -> str) (d : str) (infos : list StaffRecord) :
  usable_department d = true -> ~ In d (shown_departments infos) ->
  collected f d infos = [].
Proof.
  intros U H. destruct (collected f d infos) as [|s r] eqn:E; [reflexivity|].
  exfalso. assert (Hs : In s (collected f d infos)) by (rewrite E; now left).
  apply collected_In in Hs. destruct Hs as [_ [info [Hin [D _]]]].
  apply H, shown_departments_In. split; [exact U|]. now exists info.
Qed.

Lemma summary_step_eq (departments : list (str * department_sets))
      (info : StaffRecord) :
  summary_step departments info
  = if usable_department (department_of info)
    then add_lab_team (department_of info) (lab_of info) (team_of info)
           (if existsb (fun e => PyStr.eqb (fst e) (department_of info)) departments
            then departments
            else departments ++ [(department_of info, ([], []))])
    else departments.
Proof.
  unfold summary_step, usable_department, department_of, lab_of, team_of.
  destruct (strip (get_or (sr_department info) [])) as [|c r]; [reflexivity|].
  now destruct (PyStr.eqb (c :: r) (lit "nan") || PyStr.eqb (c :: r) (lit "-")).
Qed.

Lemma collected_entry_other (infos : list StaffRecord) (x : StaffRecord) (d : str) :
  department_of x <> d ->
  collected_entry (infos ++ [x]) d = collected_entry infos d.
Proof.
  intros H. unfold collected_entry. rewrite !collected_snoc.
  now rewrite (proj2 (eqb_neq _ _) H).
Qed.

Lemma add_lab_team_collected (infos : list StaffRecord) (x : StaffRecord)
      (keys : list str) :
  NoDup keys ->
  add_lab_team (department_of x) (lab_of x) (team_of x)
    (map (collected_entry infos) keys)
  = map (collected_entry (infos ++ [x])) keys.
Proof.
  induction 1 as [|d keys Hd Hkeys IH]; [reflexivity|].
  cbn [map]. unfold collected_entry at 1. cbn [add_lab_team].
  destruct (PyStr.eqb d (department_of x)) eqn:E.
  - apply eqb_eq in E. subst d. f_equal.
    + unfold collected_entry. rewrite !collected_snoc, eqb_refl. reflexivity.
    + apply map_ext_in. intros d' Hd'. symmetry. apply collected_entry_other.
      intros F. now subst d'.
  - f_equal; [|exact IH].
    symmetry. apply collected_entry_other. intros F. subst d.
    now rewrite eqb_refl in E.
Qed.

Lemma shown_departments_snoc (infos : list StaffRecord) (x : StaffRecord) :
  shown_departments (infos ++ [x])
  = if usable_department (department_of x)
    then set_add (department_of x) (shown_departments infos)
    else shown_departments infos.
Proof.
  unfold shown_departments. rewrite map_app, filter_app. cbn [map filter].
  destruct (usable_department (department_of x)).
  - apply distinct_snoc.
  - now rewrite app_nil_r.
Qed.

Lemma has_entry_spec (infos : list StaffRecord) (dept : str) (keys : list str) :
  existsb (fun e => PyStr.eqb (fst e) dept) (map (collected_entry infos) keys)
  = existsb (PyStr.eqb dept) keys.
Proof.
  induction keys as [|d l IHl]; [reflexivity|].
  cbn. now rewrite IHl, (eqb_sym d).
Qed.

Lemma summary_loop (infos : list StaffRecord) :
  fold_left summary_step infos []
  = map (collected_entry infos) (shown_departments infos).
Proof.
  induction infos as [|x infos IH] using rev_ind; [reflexivity|].
  rewrite fold_left_app. cbn [fold_left].
  rewrite IH, summary_step_eq, shown_departments_snoc.
  destruct (usable_department (department_of x)) eqn:U.
  - assert (E : (if existsb (fun e => PyStr.eqb (fst e) (department_of x))
                      (map (collected_entry infos) (shown_departments infos))
                 then map (collected_entry infos) (shown_departments infos)
                 else map (collected_entry infos) (shown_departments infos)
                      ++ [(department_of x, ([], []))])
                = map (collected_entry infos)
                    (set_add (department_of x) (shown_departments infos))).
    { unfold set_add.
      rewrite has_entry_spec.
      destruct (existsb (PyStr.eqb (department_of x)) (shown_departments infos)) eqn:F;
        [reflexivity|].
      rewrite map_app. cbn [map]. unfold collected_entry at 3.
      assert (N : ~ In (department_of x) (shown_departments infos)).
      { intros G. apply mem_spec in G. congruence. }
      now rewrite !(@collected_absent _ _ _ U N). }
    rewrite E. apply add_lab_team_collected.
    apply set_add_NoDup, distinct_NoDup.
  - apply map_ext_in. intros d Hd. symmetry. apply collected_entry_other.
    intros F. subst d. apply shown_departments_In in Hd. destruct Hd as [V _].
    congruence.
Qed.

(** The summary as a formula: one line for each department the loop has
    an entry for, in ascending order, with the labs collected for it, in
    ascending order. *)
Lemma get_department_summary_shown (researcher_db : Directory) :
  get_department_summary researcher_db
  = join [10%N]
      (map (fun d => summary_line d (sorted (collected lab_of d (map snd researcher_db))))
         (sorted (shown_departments (map snd researcher_db)))).
Proof.
  unfold get_department_summary. cbv zeta. rewrite summary_loop.
  unfold collected_entry.
  rewrite (sorted_by_fst_map
             (fun d => (collected lab_of d (map snd researcher_db),
                        collected team_of d (map snd researcher_db)))).
  rewrite map_map. reflexivity.
Qed.

Lemma dept_lab_pairs_In (researcher_db : Directory) (d l : str) :
  In (d, l) (dept_lab_pairs researcher_db)
  <-> exists info, In info (map snd researcher_db)
                   /\ department_of info = d /\ lab_of info = l.
Proof.
  unfold dept_lab_pairs. rewrite in_map_iff. split.
  - intros [item [E H]]. injection E as E1 E2. exists (snd item).
    split; [now apply in_map|]. now split.
  - intros [info [H [E1 E2]]]. apply in_map_iff in H.
    destruct H as [item [E H]]. exists item. split; [|exact H]. now subst.
Qed.

Lemma shown_departments_pairs (researcher_db : Directory) (d : str) :
  In d (shown_departments (map snd researcher_db))
  <-> usable_department d = true
      /\ exists l, In (d, l) (dept_lab_pairs researcher_db).
Proof.
  rewrite shown_departments_In. split; intros [U H]; (split; [exact U|]).
  - destruct H as [info [H E]]. exists (lab_of info).
    apply dept_lab_pairs_In. now exists info.
  - destruct H as [l H]. apply dept_lab_pairs_In in H.
    destruct H as [info [H [E _]]]. now exists info.
Qed.

Lemma collected_labs_pairs (researcher_db : Directory) (d l : str) :
  In l (collected lab_of d (map snd researcher_db))
  <-> l <> [] /\ In (d, l) (dept_lab_pairs researcher_db).
Proof. now rewrite collected_In, dept_lab_pairs_In. Qed.

(** X13. The summary has one line [- department: lab, lab, ...] for each
    usable department of the directory (trimmed; not empty, [nan] or a
    dash), the departments strictly ascending and each named once, and
    on each line the non-empty trimmed labs of the records of that
    department, strictly ascending and each named once. *)
Theorem summary_lists_departments_and_labs (researcher_db : Directory) :
  exists (depts : list str) (labs : str -> list str),
    get_department_summary researcher_db
    = join [10%N] (map (fun d => summary_line d (labs d)) depts)
    /\ ascending depts
    /\ (forall d, In d depts
                  <-> usable_department d = true
                      /\ exists l, In (d, l) (dept_lab_pairs researcher_db))
    /\ (forall d, ascending (labs d))
    /\ (forall d l, In l (labs d)
                    <-> l <> [] /\ In (d, l) (dept_lab_pairs researcher_db)).
Proof.
  exists (sorted (shown_departments (map snd researcher_db))),
    (fun d => sorted (collected lab_of d (map snd researcher_db))).
  split; [apply get_department_summary_shown|].
  split; [apply sorted_ascending, distinct_NoDup|].
  split; [intros d; rewrite sorted_In; apply shown_departments_pairs|].
  split; [intros d; apply sorted_ascending, distinct_NoDup|].
  intros d l. rewrite sorted_In. apply collected_labs_pairs.
Qed.

(** X14. The summary depends only on which (department, lab) pairs
    occur in the directory after trimming: two directories with the
    same pairs have the same summary, whatever the order of their
    records, their staff codes, repetitions, and team and other
    fields. *)
Theorem summary_determined_by_pairs (db1 db2 : Directory) :
  (forall p, In p (dept_lab_pairs db1) <-> In p (dept_lab_pairs db2)) ->
  get_department_summary db1 = get_department_summary db2.
Proof.
  intros Hsame. rewrite !get_department_summary_shown.
  assert (Hd : sorted (shown_departments (map snd db1))
               = sorted (shown_departments (map snd db2))).
  { apply sorted_same_elements; try apply distinct_NoDup.
    intros d. rewrite !shown_departments_pairs.
    split; intros [U [l H]]; (split; [exact U|]); exists l; now apply Hsame. }
  rewrite Hd. f_equal. apply map_ext. intros d. f_equal.
  apply sorted_same_elements; try apply distinct_NoDup.
  intros l. rewrite !collected_labs_pairs.
  split; intros [N H]; (split; [exact N|]); now apply Hsame.
Qed.

Lemma summary_determined_by_pairs_witness :
  get_department_summary two_departments
  = get_department_summary shuffled_departments.
Proof.
  apply (summary_determined_by_pairs two_departments shuffled_departments).
  assert (E1 : dept_lab_pairs two_departments
               = [ (lit "Skin Care", lit "Lab B"); (lit "Make-up", lit "Lab C");
                   (lit "Skin Care", lit "Lab A"); (lit "nan", lit "Lab Z") ])
    by (vm_compute; reflexivity).
  assert (E2 : dept_lab_pairs shuffled_departments
               = [ (lit "nan", lit "Lab Z"); (lit "Skin Care", lit "Lab A");
                   (lit "Make-up", lit "Lab C"); (lit "Skin Care", lit "Lab B");
                   (lit "Skin Care", lit "Lab A") ])
    by (vm_compute; reflexivity).
  intros p. rewrite E1, E2. cbn [In]. tauto.
Defined.

Lemma join_nil_inv (sep : str) (parts : list str) :
  join sep parts = [] -> parts = [] \/ exists r, parts = [] :: r.
Proof.
  destruct parts as [|p ps]; [now left|]. intros H. right.
  destruct p as [|c p]; [now exists ps|].
  destruct ps; discriminate H.
Qed.

(** X15. The summary is the empty text exactly when no record of the
    directory has a usable department. *)
Theorem summary_empty_iff (researcher_db : Directory) :
  get_department_summary researcher_db = []
  <-> Forall (fun item => usable_department (department_of (snd item)) = false)
        researcher_db.
Proof.
  rewrite get_department_summary_shown. split.
  - intros H. apply join_nil_inv in H.
    assert (E : sorted (shown_departments (map snd researcher_db)) = []).
    { destruct H as [H | [r H]].
      - now apply map_eq_nil in H.
      - destruct (sorted (shown_departments (map snd researcher_db))); [reflexivity|].
        discriminate H. }
    apply Forall_forall. intros item Hitem.
    destruct (usable_department (department_of (snd item))) eqn:U; [|reflexivity].
    exfalso.
    assert (Hin : In (department_of (snd item))
                    (sorted (shown_departments (map snd researcher_db)))).
    { apply sorted_In, shown_departments_In. split; [exact U|].
      exists (snd item). split; [now apply in_map | reflexivity]. }
    now rewrite E in Hin.
  - intros H.
    destruct (sorted (shown_departments (map snd researcher_db))) as [|d r] eqn:E;
      [reflexivity|].
    exfalso.
    assert (Hin : In d (sorted (shown_departments (map snd researcher_db))))
      by (rewrite E; now left).
    apply sorted_In, shown_departments_In in Hin.
    destruct Hin as [U [info [Hinfo D]]]. apply in_map_iff in Hinfo.
    destruct Hinfo as [item [<- Hitem]].
    pose proof (proj1 (Forall_forall _ _) H item Hitem) as F. cbv beta in F.
    congruence.
Qed.
(** ** The directory file *)



(** ** Trimming *)

Lemma lstrip_idempotent (s : str) : lstrip (lstrip s) = lstrip s.
Proof.
  induction s as [|c s IH]; [reflexivity|]. cbn [lstrip].
  destruct (isspace c) eqn:E; [exact IH|]. cbn [lstrip]. now rewrite E.
Qed.

Lemma lstrip_snoc (u : str) (c : char) :
  isspace c = false -> exists w, lstrip (u ++ [c]) = w ++ [c].
Proof.
  intros Hc. induction u as [|x u IH]; cbn [app lstrip].
  - rewrite Hc. now exists [].
  - destruct (isspace x); [exact IH|]. now exists (x :: u).
Qed.

Lemma rstrip_head (c : char) (t : str) :
  isspace c = false -> exists r, rstrip (c :: t) = c :: r.
Proof.
  intros Hc. unfold rstrip. cbn [rev].
  destruct (@lstrip_snoc (rev t) c Hc) as [w ->].
  rewrite rev_app_distr. cbn. now exists (rev w).
Qed.

Lemma lstrip_head (s : str) :
  match lstrip s with
  | [] => True
  | c :: _ => isspace c = false
  end.
Proof.
  induction s as [|c s IH]; [exact I|]. cbn [lstrip].
  destruct (isspace c) eqn:E; [exact IH | exact E].
Qed.

Lemma strip_idempotent (s : str) : strip (strip s) = strip s.
Proof.
  unfold strip.
  assert (H : lstrip (rstrip (lstrip s)) = rstrip (lstrip s)).
  { pose proof (lstrip_head s) as Hh. destruct (lstrip s) as [|c t]; [reflexivity|].
    destruct (@rstrip_head c t Hh) as [r ->]. cbn [lstrip]. now rewrite Hh. }
  rewrite H. unfold rstrip. now rewrite rev_involutive, lstrip_idempotent.
Qed.

(** A trimmed text has no white space at either end. *)
Lemma strip_trimmed (s : str) : trimmed (strip s).
Proof.
  unfold trimmed. destruct (strip s) as [|c t] eqn:E; [exact I|].
  split.
  - pose proof (strip_idempotent s) as H. rewrite E in H.
    unfold strip in H. pose proof (lstrip_head (c :: t)) as Hh.
    destruct (lstrip (c :: t)) as [|c' t'] eqn:El.
    + cbn in H. discriminate H.
    + destruct (@rstrip_head c' t' Hh) as [r Hr]. rewrite Hr in H.
      injection H as -> _. exact Hh.
  - unfold strip, rstrip in E.
    pose proof (lstrip_head (rev (lstrip s))) as Hh.
    destruct (lstrip (rev (lstrip s))) as [|x u]; [discriminate E|].
    cbn [rev] in E. rewrite <- E. now rewrite last_last.
Qed.

(** ** [load_email_overrides] *)

Lemma setitem_Forall (P : str * value -> Prop) (k : str) (v : value) (d : dict) :
  P (k, v) -> (forall k' v', P (k', v') -> k = k' -> P (k', v)) ->
  Forall P d -> Forall P (Py.setitem k v d).
Proof.
  intros Hnew Hsame. induction 1 as [|[k' v'] d Hkv Hd IH]; cbn [Py.setitem].
  - now constructor.
  - destruct (PyStr.eqb k k') eqn:E.
    + apply eqb_eq in E. constructor; [|exact Hd]. now apply (Hsame k' v').
    + now constructor.
Qed.

Lemma collect_overrides_usable (items : list (str * value)) :
  forall overrides w,
    Forall usable_override overrides ->
    exists res,
      fst (collect_overrides items overrides w) = Ok res
      /\ Forall usable_override res
      /\ calls (snd (collect_overrides items overrides w)) = calls w.
Proof.
  induction items as [|[key val] items IH]; intros overrides w Hov;
    cbn [collect_overrides].
  - exists overrides. now split.
  - destruct key as [|c key]; [now apply IH|].
    destruct (override_email val) as [|e email] eqn:Ee; [now apply IH|].
    destruct (contains (lit "@") (e :: email)) eqn:Eat.
    + apply IH. apply setitem_Forall; [| |exact Hov].
      * split; [apply strip_idempotent|]. exists (e :: email).
        split; [reflexivity|]. split; [discriminate|]. split; [exact Eat|].
        rewrite <- Ee. destruct val as [ | | | | s | | d ]; try discriminate Ee.
        -- apply strip_idempotent.
        -- cbn [override_email] in *.
           destruct (Py.lookup (lit "email") d) as [[ | | | | s | | ]|];
             try discriminate Ee.
           apply strip_idempotent.
      * intros k' v' [Hk _] <-. split; [exact Hk|]. exists (e :: email).
        split; [reflexivity|]. split; [discriminate|]. split; [exact Eat|].
        rewrite <- Ee. destruct val as [ | | | | s | | d ]; try discriminate Ee.
        -- apply strip_idempotent.
        -- cbn [override_email] in *.
           destruct (Py.lookup (lit "email") d) as [[ | | | | s | | ]|];
             try discriminate Ee.
           apply strip_idempotent.
    + unfold bind, print.
      destruct (IH overrides
                  {| stdout := stdout w
                               ++ [lit "[경고] 이메일 형식 이상 (code=" ++ (c :: key)
                                   ++ lit "): " ++ e :: email];
                     calls := calls w |} Hov) as [res [H1 [H2 H3]]].
      exists res. split; [exact H1|]. split; [exact H2 | exact H3].
Qed.

(** X18.  [load_email_overrides] returns, and raises nothing, whenever
    the file is missing, cannot be opened or read (an [IOError]), or
    holds a text that decodes or is malformed JSON, provided the lines
    it prints can be encoded for the standard output.  Every entry it
    returns has a trimmed code and an address that is a trimmed,
    non-empty text with an [@] in it, and it makes no backend call.
    Its handler names [JSONDecodeError] and [IOError] only: a file that
    is no UTF-8 raises [UnicodeDecodeError] out of it, and a text with
    an integer literal of more digits than the interpreter converts
    raises [ValueError] out of it. *)
Theorem load_email_overrides_usable
        (decode_error : str -> str) (file : file_state) (w : world) :
  (Forall encodable (printed (load_email_overrides decode_error file) w) ->
   file <> Garbled ->
   (forall text, file = Contents text -> decodes text \/ malformed text) ->
   exists overrides, fst (load_email_overrides decode_error file w) = Ok overrides)
  /\ (forall overrides,
         fst (load_email_overrides decode_error file w) = Ok overrides ->
         Forall usable_override overrides)
  /\ calls (snd (load_email_overrides decode_error file w)) = calls w
  /\ (file = Garbled ->
      fst (load_email_overrides decode_error file w) = Raise UnicodeDecodeError)
  /\ (forall text,
         file = Contents text ->
         Json.loads text = Raise ValueError ->
         fst (load_email_overrides decode_error file w) = Raise ValueError).
Proof.
  assert (Hrun : forall text data,
             Json.loads text = Ok (VDict data) ->
             exists res,
               fst (load_email_overrides decode_error (Contents text) w) = Ok res
               /\ Forall usable_override res
               /\ calls (snd (load_email_overrides decode_error (Contents text) w))
                  = calls w).
  { intros text data E. cbn [load_email_overrides]. rewrite E.
    destruct (@collect_overrides_usable data [] w (Forall_nil _))
      as [res [H1 [H2 H3]]].
    exists res. unfold bind, print, ret.
    destruct (collect_overrides data [] w) as [[r|e] w']; cbn [fst snd] in *;
      [|discriminate H1].
    injection H1 as ->. now split. }
  split; [|split; [|split; [|split]]].
  - intros _ Hfile Htext.
    destruct file as [ | msg | text | ]; [now exists []|now exists []| |congruence].
    destruct (Htext text eq_refl) as [[v Hv] | Hm].
    + destruct v as [ | | | | | | data ];
        try (cbn [load_email_overrides]; rewrite Hv; now exists []).
      destruct (Hrun text data Hv) as [res [H _]]. now exists res.
    + unfold malformed in Hm. cbn [load_email_overrides]. rewrite Hm. now exists [].
  - intros overrides.
    destruct file as [ | msg | text | ].
    1, 2: cbn; intros [= <-]; apply Forall_nil.
    2: discriminate.
    destruct (Json.loads text) as [v|e] eqn:E.
    + destruct v as [ | | | | | | data ];
        try (cbn [load_email_overrides]; rewrite E; cbn; intros [= <-];
             apply Forall_nil).
      destruct (Hrun text data E) as [res [H1 [H2 _]]]. rewrite H1.
      now intros [= <-].
    + cbn [load_email_overrides]. rewrite E.
      destruct e; cbn; try discriminate. intros [= <-]. apply Forall_nil.
  - destruct file as [ | msg | text | ]; try reflexivity.
    destruct (Json.loads text) as [v|e] eqn:E.
    + destruct v as [ | | | | | | data ];
        try (cbn [load_email_overrides]; rewrite E; reflexivity).
      now destruct (Hrun text data E) as [res [_ [_ H]]].
    + cbn [load_email_overrides]. rewrite E. now destruct e.
  - now intros ->.
  - intros text -> E. cbn [load_email_overrides]. now rewrite E.
Qed.

Lemma load_email_overrides_usable_witness :
  exists overrides,
    fst (load_email_overrides (fun _ => []) (Contents overrides_text) empty_world)
    = Ok overrides.
Proof.
  apply (proj1 (@load_email_overrides_usable (fun _ => []) (Contents overrides_text)
                  empty_world)).
  - apply Forall_encodable_check. vm_compute. reflexivity.
  - discriminate.
  - intros text [= <-]. left. eexists. vm_compute. reflexivity.
Defined.

Lemma override_email_nested (val : value) :
  override_email (nested_format val) = override_email val.
Proof. now destruct val. Qed.

Lemma collect_overrides_nested (items : list (str * value)) :
  forall overrides w,
    collect_overrides (map (fun kv => (fst kv, nested_format (snd kv))) items)
      overrides w
    = collect_overrides items overrides w.
Proof.
  induction items as [|[key val] items IH]; intros overrides w; [reflexivity|].
  cbn [map fst snd collect_overrides]. rewrite override_email_nested.
  destruct key as [|c key]; [apply IH|].
  destruct (override_email val) as [|e email]; [apply IH|].
  destruct (contains (lit "@") (e :: email)); [apply IH|].
  unfold bind, print. apply IH.
Qed.

(** X19.  The two formats of an entry are interchangeable: a file in
    which addresses stand under the key [email] of a mapping instead of
    as the bare text, for some or all entries, gives the same overrides
    and the same printed lines. *)
Theorem load_email_overrides_formats
        (decode_error : str -> str) (text text' : str) (data data' : dict)
        (w : world) :
  Json.loads text = Ok (VDict data) ->
  Json.loads text' = Ok (VDict data') ->
  map (fun kv => (fst kv, nested_format (snd kv))) data
  = map (fun kv => (fst kv, nested_format (snd kv))) data' ->
  load_email_overrides decode_error (Contents text') w
  = load_email_overrides decode_error (Contents text) w.
Proof.
  intros E E' Hsame. cbn [load_email_overrides]. rewrite E, E'.
  unfold bind.
  rewrite <- (collect_overrides_nested data), <- (collect_overrides_nested data').
  now rewrite Hsame.
Qed.

Lemma load_email_overrides_formats_witness :
  load_email_overrides (fun _ => []) (Contents overrides_nested_text) empty_world
  = load_email_overrides (fun _ => []) (Contents overrides_text) empty_world.
Proof.
  assert (E : exists data, Json.loads overrides_text = Ok (VDict data)
                           /\ exists data', Json.loads overrides_nested_text = Ok (VDict data')
                           /\ map (fun kv => (fst kv, nested_format (snd kv))) data
                              = map (fun kv => (fst kv, nested_format (snd kv))) data').
  { eexists. split; [vm_compute; reflexivity|].
    eexists. split; [vm_compute; reflexivity|]. vm_compute. reflexivity. }
  destruct E as [data [E [data' [E' Hsame]]]].
  exact (@load_email_overrides_formats (fun _ => []) overrides_text
           overrides_nested_text data data' empty_world E E' Hsame).
Defined.

(** ** [_normalize_column] *)

Lemma remove_char_Forall (P : char -> Prop) (c : char) (s : str) :
  Forall P s -> Forall P (remove_char c s).
Proof.
  intros H. unfold remove_char. apply Forall_forall. intros x Hx.
  apply filter_In in Hx as [Hx _]. exact (proj1 (Forall_forall _ _) H x Hx).
Qed.

Lemma remove_char_absent (c : char) (s : str) : Forall (fun x => x <> c) (remove_char c s).
Proof.
  unfold remove_char. apply Forall_forall. intros x Hx.
  apply filter_In in Hx as [_ Hx]. apply negb_true_iff, N.eqb_neq in Hx. exact Hx.
Qed.

Lemma remove_char_id (c : char) (s : str) :
  Forall (fun x => x <> c) s -> remove_char c s = s.
Proof.
  unfold remove_char. induction 1 as [|x s Hx Hs IH]; cbn [filter]; [reflexivity|].
  now rewrite (proj2 (N.eqb_neq _ _) Hx), IH.
Qed.

Lemma removed_no_blank (s : str) :
  no_blank (remove_char 32%N (remove_char 9%N (remove_char 13%N (remove_char 10%N s)))).
Proof.
  unfold no_blank.
  pose proof (remove_char_absent 10%N s) as H10.
  pose proof (remove_char_absent 13%N (remove_char 10%N s)) as H13.
  pose proof (remove_char_absent 9%N (remove_char 13%N (remove_char 10%N s))) as H9.
  pose proof (remove_char_absent 32%N
                (remove_char 9%N (remove_char 13%N (remove_char 10%N s)))) as H32.
  apply (remove_char_Forall 13%N) in H10.
  apply (remove_char_Forall 9%N) in H10, H13.
  apply (remove_char_Forall 32%N) in H10, H13, H9.
  rewrite Forall_forall in *. intros x Hx.
  repeat split; [apply H32 | apply H9 | apply H13 | apply H10]; exact Hx.
Qed.

Lemma no_blank_removed (s : str) :
  no_blank s ->
  remove_char 32%N (remove_char 9%N (remove_char 13%N (remove_char 10%N s))) = s.
Proof.
  unfold no_blank. intros H.
  rewrite (@remove_char_id 10%N s), (@remove_char_id 13%N s),
    (@remove_char_id 9%N s), (@remove_char_id 32%N s); try reflexivity;
    apply Forall_forall; intros x Hx;
    destruct (proj1 (Forall_forall _ _) H x Hx) as [H32 [H9 [H13 H10]]]; assumption.
Qed.

(** X20.  [_normalize_column] yields a normal form: its result has no
    blank, tab, carriage return or line feed anywhere and no white
    space of any kind at either end, and normalizing it again changes
    nothing. *)
Theorem normalize_column_normal_form (str_of : value -> str) (val : value) :
  no_blank (_normalize_column str_of val)
  /\ trimmed (_normalize_column str_of val)
  /\ _normalize_column str_of (VStr (_normalize_column str_of val))
     = _normalize_column str_of val.
Proof.
  assert (H : forall s,
             no_blank (strip (remove_char 32%N (remove_char 9%N (remove_char 13%N
                                 (remove_char 10%N s)))))
             /\ trimmed (strip (remove_char 32%N (remove_char 9%N (remove_char 13%N
                                   (remove_char 10%N s)))))
             /\ _normalize_column str_of
                  (VStr (strip (remove_char 32%N (remove_char 9%N (remove_char 13%N
                                  (remove_char 10%N s))))))
                = strip (remove_char 32%N (remove_char 9%N (remove_char 13%N
                           (remove_char 10%N s))))).
  { intros s.
    assert (Hnb : no_blank (strip (remove_char 32%N (remove_char 9%N
                              (remove_char 13%N (remove_char 10%N s))))))
      by apply strip_Forall, removed_no_blank.
    split; [exact Hnb|]. split; [apply strip_trimmed|].
    cbn [_normalize_column text_of]. rewrite (no_blank_removed Hnb).
    apply strip_idempotent. }
  destruct val; try apply H.
  cbn [_normalize_column]. split; [constructor|]. split; [exact I | reflexivity].
Qed.

(** ** [print_result] *)

Lemma for_each_print_returns {A} (line : A -> str) (l : list A) :
  forall w, exists w', for_each (fun x => print (line x)) l w = (Ok tt, w').
Proof.
  induction l as [|x l IH]; intros w; cbn [for_each].
  - now exists w.
  - unfold bind, print at 1. apply IH.
Qed.

Lemma for_each_from_print_returns {A} (line : N -> A -> str) (l : list A) :
  forall i w,
    exists w', for_each_from (fun i x => print (line i x)) i l w = (Ok tt, w').
Proof.
  induction l as [|x l IH]; intros i w; cbn [for_each_from].
  - now exists w.
  - unfold bind, print at 1. apply IH.
Qed.

Lemma print_key_points_returns (str_of : value -> str) (result : ClassificationResult)
      (w : world) :
  (exists w', print_key_points str_of result w = (Ok tt, w'))
  <-> listable (key_points result).
Proof.
  unfold print_key_points, listable.
  destruct (Py.truthy (key_points result)) eqn:Et.
  - unfold bind, print at 1, lift. cbv beta iota.
    destruct (key_points result) as [ | b | z | f | s | l | d ]; cbn [items_of];
      try (split; [intros [w' H]; discriminate H | intros [H | []]; discriminate H]);
      (split; [intros _; now right | intros _; apply for_each_print_returns]).
  - split; [intros _; now left | intros _; now exists w].
Qed.

Lemma print_actions_returns (str_of : value -> str) (result : ClassificationResult)
      (w : world) :
  (exists w', print_actions str_of result w = (Ok tt, w'))
  <-> listable (suggested_actions result).
Proof.
  unfold print_actions, listable.
  destruct (Py.truthy (suggested_actions result)) eqn:Et.
  - unfold bind, print at 1, lift. cbv beta iota.
    destruct (suggested_actions result) as [ | b | z | f | s | l | d ]; cbn [items_of];
      try (split; [intros [w' H]; discriminate H | intros [H | []]; discriminate H]);
      (split; [intros _; now right
              | intros _;
                apply (for_each_from_print_returns
                         (fun i action =>
                            lit "  " ++ PyInt.decimal i ++ lit ". "
                            ++ text_of str_of action))]).
  - split; [intros _; now left | intros _; now exists w].
Qed.

Lemma texts_of_safe (parts : list value) :
  (exists l, texts_of (filter Py.truthy parts) = Ok l) <-> Forall safe_guess parts.
Proof.
  induction parts as [|p parts IH]; cbn [filter].
  - split; [constructor | intros _; now exists []].
  - destruct (Py.truthy p) eqn:Et.
    + destruct p as [ | b | z | f | s | l | d ]; cbn [texts_of];
        try (split;
             [intros [l' H]; discriminate H
             | intros H; inversion H as [|? ? [[s' Hs] | Hs] ?]; subst;
               [discriminate Hs | rewrite Et in Hs; discriminate Hs]]).
      unfold rbind. split.
      * intros [l' H]. constructor; [left; now exists s|].
        apply IH. destruct (texts_of _) as [r|e]; [now exists r | discriminate H].
      * intros H. inversion H as [|? ? _ Hparts]; subst.
        apply IH in Hparts as [r ->]. now exists (s :: r).
    + rewrite IH. split.
      * intros H. constructor; [now right | exact H].
      * intros H. now inversion H.
Qed.

Lemma print_department_returns (result : ClassificationResult) (w : world) :
  (exists w', print_department result w = (Ok tt, w'))
  <-> safe_guess (recommended_department result)
      /\ safe_guess (recommended_lab result)
      /\ safe_guess (recommended_team result).
Proof.
  unfold print_department. unfold bind, print at 1, lift. cbv beta iota zeta.
  pose proof (texts_of_safe [recommended_department result; recommended_lab result;
                             recommended_team result]) as H.
  assert (Hall : Forall safe_guess [recommended_department result;
                                    recommended_lab result; recommended_team result]
                 <-> safe_guess (recommended_department result)
                     /\ safe_guess (recommended_lab result)
                     /\ safe_guess (recommended_team result)).
  { split.
    - intros F. inversion F as [|? ? H1 F1]; subst. inversion F1 as [|? ? H2 F2]; subst.
      inversion F2 as [|? ? H3 _]; subst. now repeat split.
    - intros [H1 [H2 H3]].
      constructor; [exact H1|]. constructor; [exact H2|].
      constructor; [exact H3 | constructor]. }
  rewrite <- Hall, <- H.
  destruct (filter Py.truthy _) as [|p parts] eqn:Ef.
  - split; [intros _; now exists [] | intros _; eexists; reflexivity].
  - unfold rbind. destruct (texts_of (p :: parts)) as [l|e].
    + split; [intros _; now exists l | intros _; eexists; reflexivity].
    + split; [intros [w' F]; discriminate F | intros [l F]; discriminate F].
Qed.

Lemma print_researcher_returns (str_of : value -> str) (r : dict) (w : world) :
  (exists w', print_researcher str_of r w = (Ok tt, w')) <-> printable_entry r.
Proof.
  unfold print_researcher, printable_entry, has_key, getitem, bind, lift, print, ret.
  destruct (Py.lookup (lit "email_verified") r) as [ev|];
    [|split; [intros [w' H]; discriminate H | intros [ev [H _]]; discriminate H]].
  destruct (Py.lookup (lit "name") r);
    [|split; [intros [w' H]; discriminate H | intros [x [_ [H _]]]; now destruct H]].
  destruct (Py.lookup (lit "code") r);
    [|split; [intros [w' H]; discriminate H | intros [x [_ [_ [H _]]]]; now destruct H]].
  destruct (Py.lookup (lit "department") r);
    [|split; [intros [w' H]; discriminate H
             | intros [x [_ [_ [_ [H _]]]]]; now destruct H]].
  destruct (Py.lookup (lit "lab") r);
    [|split; [intros [w' H]; discriminate H
             | intros [x [_ [_ [_ [_ [H _]]]]]]; now destruct H]].
  destruct (Py.lookup (lit "team") r);
    [|split; [intros [w' H]; discriminate H
             | intros [x [_ [_ [_ [_ [_ [H _]]]]]]]; now destruct H]].
  destruct (Py.lookup (lit "position") r);
    [|split; [intros [w' H]; discriminate H
             | intros [x [_ [_ [_ [_ [_ [_ [H _]]]]]]]]; now destruct H]].
  cbv beta iota.
  destruct (Py.truthy ev) eqn:Et.
  - destruct (Py.lookup (lit "email") r).
    + split; [|intros _; eexists; reflexivity].
      intros _. exists ev. repeat split; discriminate.
    + split; [intros [w' H]; discriminate H|].
      intros [x [Hx [_ [_ [_ [_ [_ [_ H]]]]]]]]. injection Hx as <-.
      now destruct (H Et).
  - split; [|intros _; eexists; reflexivity].
    intros _. exists ev. repeat split; try discriminate.
    intros F. rewrite Et in F. discriminate F.
Qed.

Lemma for_each_researcher_returns (str_of : value -> str) (l : list dict) :
  forall w,
    (exists w', for_each (print_researcher str_of) l w = (Ok tt, w'))
    <-> Forall printable_entry l.
Proof.
  induction l as [|r l IH]; intros w; cbn [for_each].
  - split; [constructor | intros _; now exists w].
  - unfold bind. split.
    + intros [w' H].
      destruct (print_researcher str_of r w) as [[[]|e] w1] eqn:E; [|discriminate H].
      constructor.
      * apply (print_researcher_returns str_of r w). now exists w1.
      * apply (IH w1). now exists w'.
    + intros H. inversion H as [|? ? Hr Hl]; subst.
      apply (print_researcher_returns str_of r w) in Hr as [w1 ->].
      apply (IH w1), Hl.
Qed.

Lemma print_researchers_returns (str_of : value -> str) (result : ClassificationResult)
      (w : world) :
  (exists w', print_researchers str_of result w = (Ok tt, w'))
  <-> Forall printable_entry (recommended_researchers result).
Proof.
  unfold print_researchers.
  destruct (recommended_researchers result) as [|r l] eqn:E.
  - split; [constructor | intros _; eexists; reflexivity].
  - unfold bind, print at 1. cbv beta iota. apply for_each_researcher_returns.
Qed.

Lemma returns_after (m k : M unit) (C : Prop) :
  (forall w, exists w1, m w = (Ok tt, w1)) ->
  (forall w, returns k w <-> C) ->
  forall w, returns (m ;; k) w <-> C.
Proof.
  intros Hm Hk w. destruct (Hm w) as [w1 E]. rewrite <- (Hk w1).
  unfold returns, bind. now rewrite E.
Qed.

Lemma returns_when (m k : M unit) (Cm Ck : Prop) :
  (forall w, (exists w1, m w = (Ok tt, w1)) <-> Cm) ->
  (forall w, returns k w <-> Ck) ->
  forall w, returns (m ;; k) w <-> Cm /\ Ck.
Proof.
  intros Hm Hk w. unfold returns, bind.
  destruct (m w) as [[[]|e] w1] eqn:E.
  - rewrite <- (Hm w), <- (Hk w1). unfold returns. split.
    + intros H. split; [now exists w1 | exact H].
    + now intros [_ H].
  - split.
    + intros [a [w' H]]. discriminate H.
    + intros [H _]. apply (Hm w) in H as [w' H]. rewrite E in H. discriminate H.
Qed.

Lemma returns_print (line : str) (w : world) : returns (print line) w <-> True.
Proof. split; [trivial|]. intros _. unfold returns, print. eexists. eexists. reflexivity. Qed.

(** The report goes through when each of its blocks does. *)
Lemma print_result_blocks
      (str_of : value -> str) (email : EmailInput) (result : ClassificationResult) :
  forall w,
    returns (print_result str_of email result) w
    <-> hashable (urgency result)
        /\ listable (key_points result)
        /\ (safe_guess (recommended_department result)
            /\ safe_guess (recommended_lab result)
            /\ safe_guess (recommended_team result))
        /\ Forall printable_entry (recommended_researchers result)
        /\ listable (suggested_actions result)
        /\ True.
Proof.
  intros w. unfold print_result.
  destruct (icon_for (urgency result)) as [icon|e] eqn:Ei.
  - assert (Hh : hashable (urgency result)).
    { destruct (urgency result); try exact I; discriminate Ei. }
    enough (G : forall w,
               returns
                 (print (10%N :: repeat 61%N 60) ;;
                  print (lit "  코스맥스 이메일 분류 결과") ;;
                  print (repeat 61%N 60) ;;
                  print (10%N :: lit "[이메일 정보]") ;;
                  print (lit "  제목: " ++ subject email) ;;
                  match sender email with
                  | [] => ret tt
                  | _ :: _ => print (lit "  발신자: " ++ sender email)
                  end ;;
                  print (10%N :: lit "[분류 결과]") ;;
                  print (lit "  카테고리: " ++ text_of str_of (category result)) ;;
                  print (lit "  분류 근거: "
                         ++ text_of str_of (category_description result)) ;;
                  print (lit "  긴급도: " ++ icon ++ lit " "
                         ++ text_of str_of (urgency result)) ;;
                  print (lit "  긴급도 근거: " ++ text_of str_of (urgency_reason result)) ;;
                  print (10%N :: lit "[요약]") ;;
                  print (lit "  " ++ text_of str_of (summary result)) ;;
                  print_key_points str_of result ;;
                  print_department result ;;
                  print_researchers str_of result ;;
                  print_actions str_of result ;;
                  print (10%N :: repeat 61%N 60)) w
               <-> listable (key_points result)
                   /\ (safe_guess (recommended_department result)
                       /\ safe_guess (recommended_lab result)
                       /\ safe_guess (recommended_team result))
                   /\ Forall printable_entry (recommended_researchers result)
                   /\ listable (suggested_actions result)
                   /\ True).
    { rewrite <- (G w). unfold returns, bind at 1, lift. split.
      - intros H. split; [exact Hh | exact H].
      - now intros [_ H]. }
    clear w.
    do 5 (apply returns_after; [intros w; eexists; reflexivity|]).
    apply returns_after; [intros w; destruct (sender email); eexists; reflexivity|].
    do 7 (apply returns_after; [intros w; eexists; reflexivity|]).
    apply returns_when; [apply print_key_points_returns|].
    apply returns_when; [apply print_department_returns|].
    apply returns_when; [apply print_researchers_returns|].
    apply returns_when; [apply print_actions_returns|].
    apply returns_print.
  - unfold returns, bind at 1, lift. split.
    + intros [a [w' H]]. discriminate H.
    + intros [Hh _]. destruct (urgency result); try discriminate Ei; destruct Hh.
Qed.

(** X21.  When the lines of the report can be encoded for the standard
    output (no text shown has a lone surrogate in it), [print_result]
    returns, and raises nothing, exactly when the result can be shown:
    the urgency can be hashed (it is no list and no mapping), the key
    points and the suggested actions are falsy or can be iterated, each
    of the three routing fields is falsy or a text, and every candidate
    has the keys its line reads. *)
Theorem print_result_returns_iff
        (str_of : value -> str) (email : EmailInput) (result : ClassificationResult)
        (w : world) :
  Forall encodable (printed (print_result str_of email result) w) ->
  (returns (print_result str_of email result) w
   <-> printable_fields result
       /\ Forall printable_entry (recommended_researchers result)).
Proof.
  intros _. rewrite (print_result_blocks str_of email result w).
  unfold printable_fields. tauto.
Qed.

Lemma quality_issue_result_spec :
  fst (classify_email (fun _ => Text quality_issue_reply) (lit "gemini-2.0-flash")
         shipment_hold one_record_directory [] empty_world)
  = Ok quality_issue_result.
Proof. vm_compute. reflexivity. Qed.

Lemma print_result_returns_iff_witness :
  returns (print_result (fun _ => []) shipment_hold quality_issue_result) empty_world
  <-> printable_fields quality_issue_result
      /\ Forall printable_entry (recommended_researchers quality_issue_result).
Proof.
  apply print_result_returns_iff.
  apply Forall_encodable_check. vm_compute. reflexivity.
Defined.

Lemma matcher_entries_printable
      (researcher_db : Directory) (department lab team : value) (limit : Z)
      (res : list dict) :
  find_matching_researchers researcher_db department lab team limit = Ok res ->
  Forall printable_entry res.
Proof.
  intros H. apply Forall_forall. intros c Hc.
  destruct (find_matching_researchers_entries _ _ _ _ _ H c Hc)
    as (code & info & s & _ & _ & _ & Hcand).
  apply candidate_fields in Hcand
    as (name & _ & _ & Hcode & Hname & Hdept & Hlab & Hteam & Hpos & Hemail & Hev & _).
  unfold printable_entry, has_key. eexists. split; [exact Hev|].
  rewrite Hcode, Hname, Hdept, Hlab, Hteam, Hpos, Hemail.
  repeat split; discriminate.
Qed.

Lemma fallback_printable (s : value) (raw : str) :
  printable_fields {| category := VStr [];
                      category_description := VStr [];
                      urgency := VStr [];
                      urgency_reason := VStr [];
                      summary := s;
                      key_points := VList [];
                      recommended_department := VStr [];
                      recommended_lab := VStr [];
                      recommended_team := VStr [];
                      recommended_researchers := [];
                      suggested_actions := VList [];
                      raw_response := raw |}.
Proof.
  unfold printable_fields, listable, safe_guess. cbn.
  repeat split; try (now left); now right.
Qed.

(** X22.  The report after a classification: whatever [classify_email]
    returns, its candidates have every key the report reads, so that,
    when the lines of the report can be encoded for the standard output,
    [print_result] goes through exactly when the fields the backend
    filled in can be shown; and the result of a failed backend call or
    of a reply the parser made nothing of can then always be shown. *)
Theorem report_after_classification
        (str_of : value -> str) (client : Client) (model_name : str)
        (email : EmailInput) (researcher_db : Directory) (dept_summary : str)
        (w w1 : world) (r : ClassificationResult) :
  fst (classify_email client model_name email researcher_db dept_summary w) = Ok r ->
  Forall encodable (printed (print_result str_of email r) w1) ->
  Forall printable_entry (recommended_researchers r)
  /\ (returns (print_result str_of email r) w1 <-> printable_fields r)
  /\ ((exists text parsed,
          client (classify_request model_name
                    (build_classification_prompt email dept_summary)) = Text text
          /\ parse_gemini_response text = Ok parsed
          /\ Py.truthy parsed = true)
      \/ returns (print_result str_of email r) w1).
Proof.
  intros H _.
  assert (G : Forall printable_entry (recommended_researchers r)
              /\ ((exists text parsed,
                      client (classify_request model_name
                                (build_classification_prompt email dept_summary))
                      = Text text
                      /\ parse_gemini_response text = Ok parsed
                      /\ Py.truthy parsed = true)
                  \/ printable_fields r)).
  { revert H.
    unfold classify_email, bind, generate_content, lift, ret, print, raise.
    cbn [fst snd].
    destruct (client _) as [text|msg|] eqn:Ereply; [| |discriminate].
    - destruct (parse_gemini_response text) as [parsed|e] eqn:Eparsed;
        [|discriminate].
      destruct (Py.truthy parsed) eqn:Et; cbn [negb].
      + intros H. split; [|left; now exists text, parsed].
        destruct parsed as [ | b | z | f | s | l | d ]; try discriminate H.
        cbn [Py.get] in H. destruct researcher_db as [|item rest].
        * injection H as <-. constructor.
        * destruct (find_matching_researchers _ _ _ _ _) as [res|e] eqn:Em;
            [|discriminate H].
          injection H as <-. cbn [recommended_researchers].
          exact (matcher_entries_printable _ _ _ _ _ Em).
      + intros [= <-]. split; [constructor|]. right. apply fallback_printable.
    - intros [= <-]. split; [constructor|]. right. apply fallback_printable. }
  destruct G as [Hentries Hfields]. split; [exact Hentries|]. split.
  - rewrite (print_result_blocks str_of email r w1).
    unfold printable_fields. tauto.
  - destruct Hfields as [Hreply | Hfields]; [now left|]. right.
    rewrite (print_result_blocks str_of email r w1).
    unfold printable_fields in Hfields. tauto.
Qed.

Lemma report_after_classification_witness :
  Forall printable_entry (recommended_researchers quality_issue_result)
  /\ (returns (print_result (fun _ => []) shipment_hold quality_issue_result)
         empty_world
      <-> printable_fields quality_issue_result)
  /\ ((exists text parsed,
          (fun _ : request => Text quality_issue_reply)
            (classify_request (lit "gemini-2.0-flash")
               (build_classification_prompt shipment_hold [])) = Text text
          /\ parse_gemini_response text = Ok parsed
          /\ Py.truthy parsed = true)
      \/ returns (print_result (fun _ => []) shipment_hold quality_issue_result)
           empty_world).
Proof.
  apply (@report_after_classification (fun _ => [])
           (fun _ => Text quality_issue_reply) (lit "gemini-2.0-flash")
           shipment_hold one_record_directory [] empty_world empty_world
           quality_issue_result).
  - vm_compute. reflexivity.
  - apply Forall_encodable_check. vm_compute. reflexivity.
Defined.

(** ** [run_file_mode] *)










(** *** Lines *)




(** *** Trimmed texts *)















(** ** Response parser and orchestrator: attempts that are malformed *)

(** X24.  The fenced blocks are tried from the last to the first, and a
    block is passed over when the decoder raises [JSONDecodeError] on
    it: among the blocks the pattern finds in the trimmed reply, a block
    that decodes is the one returned when every block after it is
    malformed.  In particular, in a reply made of prose and two fenced
    blocks (each with or without the [json] tag, prose and contents free
    of backticks), a second block that decodes is what the parser
    returns, whatever the first block holds; and when the second block
    is malformed and the first decodes, the parser returns what the
    first decodes to. *)
Theorem fenced_blocks_last_to_first :
  (forall (response_text : str) (earlier later : list str) (block : str) (v : value),
      Re.findall fence_pattern (strip response_text) = earlier ++ block :: later ->
      Json.loads (strip block) = Ok v ->
      Forall (fun b => malformed (strip b)) later ->
      parse_gemini_response response_text = Ok v)
  /\ (forall (before between after tag1 tag2 content1 content2 : str) (v : value),
         json_tag tag1 -> json_tag tag2 ->
         no_backtick before -> no_backtick between -> no_backtick after ->
         no_backtick content1 -> no_backtick content2 ->
         Json.loads (strip content2) = Ok v ->
         parse_gemini_response
           (before ++ fenced tag1 content1 ++ between ++ fenced tag2 content2 ++ after)
         = Ok v)
  /\ (forall (before between after tag1 tag2 content1 content2 : str) (v : value),
         json_tag tag1 -> json_tag tag2 ->
         no_backtick before -> no_backtick between -> no_backtick after ->
         no_backtick content1 -> no_backtick content2 ->
         malformed (strip content2) ->
         Json.loads (strip content1) = Ok v ->
         parse_gemini_response
           (before ++ fenced tag1 content1 ++ between ++ fenced tag2 content2 ++ after)
         = Ok v).
Proof.
  split; [exact parse_fenced_blocks|]. split.
  - intros before between after tag1 tag2 content1 content2 v
           Ht1 Ht2 Hb Hm Ha Hc1 Hc2 Hv.
    destruct (@strip_two_fenced before between after tag1 tag2 content1 content2
                Ht1 Ht2 Hb Hm Ha Hc1 Hc2) as (cap1 & cap2 & Hfind & _ & Hcap2).
    apply (@parse_fenced_blocks _ [cap1] [] cap2 v Hfind);
      [now rewrite Hcap2 | constructor].
  - intros before between after tag1 tag2 content1 content2 v
           Ht1 Ht2 Hb Hm Ha Hc1 Hc2 Hbad Hv.
    destruct (@strip_two_fenced before between after tag1 tag2 content1 content2
                Ht1 Ht2 Hb Hm Ha Hc1 Hc2) as (cap1 & cap2 & Hfind & Hcap1 & Hcap2).
    apply (@parse_fenced_blocks _ [] [cap2] cap1 v Hfind); [now rewrite Hcap1|].
    constructor; [|constructor]. now rewrite Hcap2.
Qed.

Lemma fenced_blocks_last_to_first_witness :
  parse_gemini_response two_fenced_blocks
  = Ok (VDict [(lit "category", VStr (lit "fixed"))]).
Proof.
  unfold two_fenced_blocks.
  apply (proj1 (proj2 fenced_blocks_last_to_first)).
  - right; reflexivity.
  - right; reflexivity.
  - apply no_backtick_check; vm_compute; reflexivity.
  - apply no_backtick_check; vm_compute; reflexivity.
  - constructor.
  - apply no_backtick_check; vm_compute; reflexivity.
  - apply no_backtick_check; vm_compute; reflexivity.
  - vm_compute; reflexivity.
Defined.

Lemma unparseable_check (response_text : str) :
  forallb malformedb (attempts response_text) = true -> unparseable response_text.
Proof.
  unfold unparseable. rewrite forallb_forall, Forall_forall.
  intros H c Hc. apply malformedb_true, H, Hc.
Qed.

(** X25.  A reply the parser makes nothing of: when the decoder raises
    [JSONDecodeError] on every attempt of the parser (the fenced blocks,
    the trimmed reply, the text between the first opening and the last
    closing brace), the parser returns the empty mapping; and when
    moreover the first 500 characters of the reply can be encoded for
    the standard output, [classify_email] prints its warning and these
    characters and returns at once: the result has a non-empty
    diagnostic summary, an empty category, no researchers, and keeps the
    raw reply. *)
Theorem unparseable_reply_result
        (client : Client) (model_name : str) (email : EmailInput)
        (researcher_db : Directory) (dept_summary : str) (w : world) (text : str) :
  client (classify_request model_name
            (build_classification_prompt email dept_summary)) = Text text ->
  unparseable text ->
  encodable (slice_to 500 text) ->
  parse_gemini_response text = Ok (VDict [])
  /\ (exists r diagnostic,
        classify_email client model_name email researcher_db dept_summary w
        = (Ok r,
           {| stdout := stdout w
                        ++ [ lit "[경고] Gemini 응답 JSON 파싱 실패";
                             lit "[DEBUG] 원본 응답:" ++ [10%N] ++ slice_to 500 text ];
              calls := calls w
                       ++ [classify_request model_name
                             (build_classification_prompt email dept_summary)] |})
        /\ summary r = VStr diagnostic
        /\ diagnostic <> []
        /\ category r = VStr []
        /\ recommended_researchers r = []
        /\ raw_response r = text).
Proof.
  intros Hreply Hnothing _.
  assert (Hparse : parse_gemini_response text = Ok (VDict [])).
  { rewrite parse_gemini_response_attempts. now apply first_decoded_none. }
  split; [exact Hparse|].
  exists (parse_failed text), (lit "JSON 파싱 실패 — 원본 응답을 확인하세요").
  split.
  { unfold classify_email, bind, generate_content, lift, ret, print. cbn [fst snd].
    rewrite Hreply, Hparse. cbn [Py.truthy negb stdout calls].
    now rewrite <- app_assoc. }
  split; [reflexivity|]. split; [|now repeat split].
  vm_compute. discriminate.
Qed.

Lemma unparseable_reply_result_witness :
  parse_gemini_response (lit "I cannot classify this, sorry.") = Ok (VDict [])
  /\ (exists r diagnostic,
        classify_email (fun _ => Text (lit "I cannot classify this, sorry."))
          (lit "gemini-2.0-flash") shipment_hold one_record_directory []
          empty_world
        = (Ok r,
           {| stdout := stdout empty_world
                        ++ [ lit "[경고] Gemini 응답 JSON 파싱 실패";
                             lit "[DEBUG] 원본 응답:" ++ [10%N]
                             ++ slice_to 500 (lit "I cannot classify this, sorry.") ];
              calls := calls empty_world
                       ++ [classify_request (lit "gemini-2.0-flash")
                             (build_classification_prompt shipment_hold [])] |})
        /\ summary r = VStr diagnostic
        /\ diagnostic <> []
        /\ category r = VStr []
        /\ recommended_researchers r = []
        /\ raw_response r = lit "I cannot classify this, sorry.").
Proof.
  apply (@unparseable_reply_result
           (fun _ => Text (lit "I cannot classify this, sorry."))).
  - reflexivity.
  - apply unparseable_check. vm_compute. reflexivity.
  - apply encodable_check. vm_compute. reflexivity.
Defined.
